(** * xtrnlib: admission gate and tool-request pipeline

    A shallow embedding of [src/xtrnlib/index.ts]: the [XTRNState] durable
    object (the admission gate), the [XTRNServer] tool registry, the
    per-request validation pipeline of [setupToolRoute], the admission
    middleware of [setupToolMiddleware] and the metadata assembler
    [buildDetails].

    Conventions.
    - A JavaScript [number] that only ever counts requests is a [Z].
    - [undefined]/[null] are [None]; a string is falsy exactly when it is
      empty, so [if (header)] is [truthy header].
    - The durable object's storage and the environment bindings are finite
      maps with string keys.
    - Library calls whose failure the source handles ([atob], [JSON.parse],
      [z.safeParse]) return an explicit failure; they are fields of the
      [Platform] interface, as the schema validator and the codec are
      external collaborators of the library.
    - So are the library calls whose failure the source does not handle
      ([z.toJSONSchema], an assignment that a validator object up the
      prototype chain decides) and Hono's matching of a route pattern
      against a path. *)

From stdpp Require Import base strings gmap list.
From Stdlib Require Import ZArith Lia Ascii Sorted.

Open Scope string_scope.
Open Scope list_scope.
Open Scope Z_scope.

(** ** The admission gate: [class XTRNState extends DurableObject] *)

Module Gate.

(** The storage key used by the constructor, [windDown] and [reset]. *)
Definition refuseRequests_key : string := "refuseRequests".

(** The two private fields of the class. *)
Record XTRNState : Type := mkState {
  activeRequests : Z;
  refuseRequests : bool;
}.

(** A live actor: the in-memory instance together with the durable
    storage [this.ctx.storage] it is bound to. *)
Record Actor : Type := mkActor {
  inst : XTRNState;
  storage : gmap string bool;
}.

(** [constructor]: the field initialisers give [activeRequests = 0], and
    the [blockConcurrencyWhile] callback, which completes before any
    method runs, loads
    [(await storage.get("refuseRequests")) || false]. *)
Definition constructor (st : gmap string bool) : Actor :=
  {| inst := {| activeRequests := 0;
                refuseRequests := default false (st !! refuseRequests_key) |};
     storage := st |}.

(** Re-creation of the actor (eviction, redeploy): the instance is lost,
    the storage is kept, the constructor runs again. *)
Definition restart (a : Actor) : Actor := constructor (storage a).

Record AcquireResult : Type := mkAcquire {
  allowed : bool;
  acq_activeRequests : Z;
}.

Record StateView : Type := mkView {
  view_activeRequests : Z;
  refusingRequests : bool;
}.

(** [tryAcquire()] *)
Definition tryAcquire (a : Actor) : AcquireResult * Actor :=
  if refuseRequests (inst a) then
    ({| allowed := false; acq_activeRequests := activeRequests (inst a) |}, a)
  else
    let n := activeRequests (inst a) + 1 in
    ({| allowed := true; acq_activeRequests := n |},
     {| inst := {| activeRequests := n;
                   refuseRequests := refuseRequests (inst a) |};
        storage := storage a |}).

(** [release()]: [Math.max(0, this.activeRequests - 1)] *)
Definition release (a : Actor) : Z * Actor :=
  let n := Z.max 0 (activeRequests (inst a) - 1) in
  (n, {| inst := {| activeRequests := n;
                    refuseRequests := refuseRequests (inst a) |};
         storage := storage a |}).

(** [windDown()]: sets the flag, then [storage.put("refuseRequests", true)]. *)
Definition windDown (a : Actor) : Z * Actor :=
  (activeRequests (inst a),
   {| inst := {| activeRequests := activeRequests (inst a);
                 refuseRequests := true |};
      storage := <[refuseRequests_key := true]> (storage a) |}).

(** [getState()] *)
Definition getState (a : Actor) : StateView * Actor :=
  ({| view_activeRequests := activeRequests (inst a);
      refusingRequests := refuseRequests (inst a) |}, a).

(** [reset()]: clears both fields, then [storage.delete("refuseRequests")]. *)
Definition reset (a : Actor) : unit * Actor :=
  (tt, {| inst := {| activeRequests := 0; refuseRequests := false |};
          storage := delete refuseRequests_key (storage a) |}).

(** The remote calls a stub can make, and what can happen to an actor. *)
Inductive GateOp : Type :=
| OpTryAcquire | OpRelease | OpWindDown | OpGetState | OpReset.

Inductive ActorEvent : Type :=
| Invoke (op : GateOp)
| Recreate.

Global Instance GateOp_eq_dec : EqDecision GateOp.
Proof. solve_decision. Defined.

Global Instance ActorEvent_eq_dec : EqDecision ActorEvent.
Proof. solve_decision. Defined.

Definition apply_op (op : GateOp) (a : Actor) : Actor :=
  match op with
  | OpTryAcquire => (tryAcquire a).2
  | OpRelease => (release a).2
  | OpWindDown => (windDown a).2
  | OpGetState => (getState a).2
  | OpReset => (reset a).2
  end.

Definition apply_event (ev : ActorEvent) (a : Actor) : Actor :=
  match ev with
  | Invoke op => apply_op op a
  | Recreate => restart a
  end.

(** Calls are serialised by the durable object: a history is a list. *)
Definition run_ops (ops : list GateOp) (a : Actor) : Actor :=
  foldl (fun acc op => apply_op op acc) a ops.

Definition run_events (evs : list ActorEvent) (a : Actor) : Actor :=
  foldl (fun acc ev => apply_event ev acc) a evs.

(** The gate as first created for a deployment: nothing stored yet. *)
Definition initial : Actor := constructor ∅.

Fixpoint occurrences (op : GateOp) (ops : list GateOp) : Z :=
  match ops with
  | [] => 0
  | o :: rest => (if decide (o = op) then 1 else 0) + occurrences op rest
  end.

(** N and M of a history. *)
Definition acquires (ops : list GateOp) : Z := occurrences OpTryAcquire ops.
Definition releases (ops : list GateOp) : Z := occurrences OpRelease ops.

(** A history with no [windDown] and no [reset]: [tryAcquire], [release]
    and [getState] calls only. *)
Definition no_drain_no_reset (ops : list GateOp) : Prop :=
  Forall (fun op => op ≠ OpWindDown ∧ op ≠ OpReset) ops.

(** All prefixes of a history, the empty one first. *)
Fixpoint prefixes (ops : list GateOp) : list (list GateOp) :=
  [] :: match ops with
        | [] => []
        | o :: rest => map (cons o) (prefixes rest)
        end.

(** No [release] arrives before the [tryAcquire] it pairs with: every
    prefix of the history has at most as many releases as acquires. *)
Definition releases_matched (ops : list GateOp) : Prop :=
  Forall (fun p => releases p ≤ acquires p) (prefixes ops).

Definition no_reset (evs : list ActorEvent) : Prop :=
  Forall (fun ev => ev ≠ Invoke OpReset) evs.

(** The gate is draining, in memory and in storage. *)
Definition draining (a : Actor) : Prop :=
  refuseRequests (inst a) = true ∧ storage a !! refuseRequests_key = Some true.

End Gate.

(** ** JavaScript values, exceptions and control flow *)

Module JS.

(** JSON data as tool parameters and user configuration carry it. The
    pipeline passes these values on and never computes with them. *)
#[warnings="-register-all"]
Inductive JSValue : Type :=
| JNull
| JBool (b : bool)
| JNum (n : Z)
| JStr (s : string)
| JArr (items : list JSValue)
| JObj (fields : list (string * JSValue)).

(** What a [throw] carries: an [Error] with its message, or any other
    value, of which only [String(value)] is ever observed. *)
Inductive Thrown : Type :=
| ErrorObj (message : string)
| NonError (shown : string).

(** [error instanceof Error ? error.message : String(error)] *)
Definition error_text (e : Thrown) : string :=
  match e with
  | ErrorObj message => message
  | NonError shown => shown
  end.

(** The outcome of calling (and awaiting) a function. *)
Inductive JSResult (A : Type) : Type :=
| Ok (a : A)
| Throws (e : Thrown).
Global Arguments Ok {A} a.
Global Arguments Throws {A} e.

(** [if (s)] for a [string | undefined | null]: the string when the test
    succeeds, that is when it is there and not empty. *)
Definition truthy (s : option string) : option string :=
  match s with
  | Some (String c rest) => Some (String c rest)
  | Some EmptyString => None
  | None => None
  end.

(** [obj[k] = v] on an object kept as its list of own properties, when the
    assignment is not taken by a property up the prototype chain: an
    existing property is overwritten in place, a new one is appended. *)
Fixpoint set_property {V : Type} (k : string) (v : V)
    (obj : list (string * V)) : list (string * V) :=
  match obj with
  | [] => [(k, v)]
  | (k', v') :: rest =>
      if decide (k' = k) then (k, v) :: rest
      else (k', v') :: set_property k v rest
  end.

(** The double quote character, for messages that contain it. *)
Definition dquote : string := String "034"%char EmptyString.

End JS.

Export JS.

(** ** Declarations: configuration, schemas, responses, tools *)

Inductive FieldType : Type := TString | TNumber | TBoolean.

Record UserConfigField : Type := mkField {
  field_key : string;
  field_type : FieldType;
}.

(** [OAuthConfig]: the developer-declared public fields only. *)
Record OAuthConfig : Type := mkOAuthConfig {
  provider : string;
  authorization_url : string;
  token_url : string;
  scopes : list string;
}.

Record ConfigType : Type := mkConfig {
  userConfig : option (list UserConfigField);
  oauthConfig : option OAuthConfig;
}.

Inductive ToolTag : Type := Mutation | Destructive.

(** Zod v4 schemas: the three primitives and the object combinator that
    [generateUserConfigSchema] uses, and any other schema a tool declares.
    [ZObject shape] is [z.object] of an object with these own properties,
    in the order they were created, and the ordinary prototype;
    [ZObjectOver proto shape] is [z.object] of an object whose prototype
    is the validator [proto]. *)
#[warnings="-register-all"]
Inductive ZodType : Type :=
| ZString
| ZNumber
| ZBoolean
| ZObject (shape : list (string * ZodType))
| ZObjectOver (proto : ZodType) (shape : list (string * ZodType))
| ZOther (description : string).

(** The [shape] object that [generateUserConfigSchema] fills: its own
    properties, and its prototype when that is no longer
    [Object.prototype]. *)
Record Shape : Type := mkShape {
  own : list (string * ZodType);
  proto : option ZodType;
}.

(** What [registerTool] may receive at run time as [options.schema]. *)
Inductive SchemaArg : Type :=
| Zod4 (schema : ZodType)
| NotZod4.

(** [z.safeParse] result: [{success: true, data}] or [{success: false, error}]. *)
Inductive SafeParseResult : Type :=
| ParseSuccess (data : JSValue)
| ParseFailure (error : JSValue).

(** The external collaborators: the base64 and JSON codecs of the runtime,
    the schema validator and the router. [None] is a thrown exception,
    which every call site of [atob] and [JSON.parse] catches.
    - [toJSONSchema] is [z.toJSONSchema], which throws for a schema that
      JSON Schema cannot represent.
    - [assign_inherited proto key value shape] is [shape[key] = value] for
      a [shape] that does not own [key] and whose prototype is the
      validator object [proto]: the properties of that object and of its
      class decide whether an own property is created, a setter runs, or,
      the module being strict code, a [TypeError] is thrown.
    - [route_matches name path] tells whether Hono's router matches the
      route pattern [`/tools/${name}`] against the request path [path].
      The router builds its matcher from all the patterns at the first
      request; a name from which it cannot build one (a parameter with an
      ill-formed regular expression) is outside the model. *)
Class Platform : Type := {
  atob : string → option string;
  JSON_parse : string → option JSValue;
  JSON_stringify : JSValue → string;
  safeParse : ZodType → JSValue → SafeParseResult;
  toJSONSchema : ZodType → JSResult JSValue;
  assign_inherited : ZodType → string → ZodType → Shape → JSResult Shape;
  route_matches : string → string → bool;
}.

Record FullOAuthDetails : Type := mkFullOAuth {
  fo_provider : string;
  fo_client_id : string;
  fo_client_secret : string;
  fo_authorization_url : string;
  fo_token_url : string;
  fo_scopes : list string;
  fo_callback_url : string;
}.

Record ToolDetails : Type := mkToolDetails {
  td_name : string;
  td_description : string;
  td_schema : JSValue;
  td_tags : list ToolTag;
}.

Record ServerDetails : Type := mkDetails {
  sd_name : string;
  sd_version : string;
  sd_oauth : option FullOAuthDetails;
  sd_config : list UserConfigField;
  sd_tools : list ToolDetails;
}.

(** The payloads the library and its handlers hand to [c.text]/[c.json]. *)
Inductive Body : Type :=
| TextBody (text : string)
| JsonBody (data : JSValue)
| DetailsBody (details : ServerDetails)
| WindDownBody (message : string) (activeRequests : Z)
| GateStateBody (activeRequests : Z) (refusingRequests : bool)
| MessageBody (message : string).

Record Response : Type := mkResponse {
  status : Z;
  body : Body;
}.

(** [class XTRNResponse] *)
Module XTRNResponse.
Definition text (t : string) : Response :=
  {| status := 200; body := TextBody t |}.
Definition json (data : JSValue) : Response :=
  {| status := 200; body := JsonBody data |}.
(** [reason || ""] *)
Definition badRequestArgs (reason : option string) : Response :=
  {| status := 400; body := TextBody (default "" reason) |}.
Definition error (e : string) : Response :=
  {| status := 500; body := TextBody e |}.
Definition unauthorized : Response :=
  {| status := 401; body := TextBody "" |}.
End XTRNResponse.

(** [OAuthContextConfig]; the three environment-sourced fields are
    [undefined] when the binding is absent. *)
Record OAuthContextConfig : Type := mkOAuthContext {
  client_id : option string;
  client_secret : option string;
  ctx_token_url : string;
  callback_url : option string;
}.

Record Token : Type := mkToken { refresh_token : string }.

(** [XTRNContext]: [token] and [oauth] are attached conditionally. *)
Record XTRNContext : Type := mkContext {
  req : JSValue;
  config : JSValue;
  token : option Token;
  oauth : option OAuthContextConfig;
}.

Definition Handler : Type := XTRNContext → JSResult Response.

Record Tool : Type := mkTool {
  tool_name : string;
  tool_description : string;
  tool_schema : ZodType;
  tool_tags : list ToolTag;
  tool_handler : Handler;
}.

(** The argument of [registerTool]. *)
Record ToolOptions : Type := mkToolOptions {
  opt_name : string;
  opt_description : string;
  opt_schema : SchemaArg;
  opt_tags : option (list ToolTag);
  opt_handler : Handler;
}.

(** [class XTRNServer]. The Hono app holds one POST route per
    [registerTool] call, closed over the same name, schema and handler as
    the entry pushed on [tools], so the registry and the route table are
    one list, in registration order. *)
Record XTRNServer : Type := mkServer {
  srv_name : string;
  srv_version : string;
  srv_config : ConfigType;
  srv_tools : list Tool;
  userConfigSchema : option ZodType;
}.

(** ** Requests *)

(** [OtherMethod] is any method but [GET], [POST] and [HEAD]. A [HEAD]
    request, which Hono answers through the [GET] routes with the body
    dropped, is outside the model. *)
Inductive Method : Type := GET | POST | OtherMethod.

(** The path of a request as the route layer matched it: one of the four
    fixed paths; [PTool path], a path that the middleware's pattern
    [/tools/*] matches, kept whole since the tool routes are patterns
    too; or [POther], any path that no pattern of the application matches
    (a tool route's pattern begins with the segment [tools], so it matches
    nothing but paths that [/tools/*] matches). *)
Inductive Path : Type :=
| PDetails
| PWindDown
| PActiveRequests
| PReset
| PTool (path : string)
| POther.

(** What the library reads from a Hono context: the two headers, the body
    text and the environment bindings [env(c)]. *)
Record HonoContext : Type := mkHono {
  req_method : Method;
  req_path : Path;
  header_config : option string;
  header_token : option string;
  req_body : string;
  bindings : gmap string string;
}.

(** ** Function bodies with early [return], [throw] and a trace

    A body yields a value to the next statement, leaves through [return],
    or raises. The trace records the calls the pipeline makes to its
    collaborators and to the handler, in the order it makes them. *)

Inductive Event : Type :=
| EvConfigDecode (header : string)       (* JSON.parse(atob(configHeader)) *)
| EvConfigValidate (value : JSValue)     (* z.safeParse(userConfigSchema, _) *)
| EvTokenDecode (header : string)        (* atob(tokenHeader) *)
| EvBodyParse (text : string)            (* honoCtx.req.json() *)
| EvBodyValidate (value : JSValue)       (* z.safeParse(schema, body) *)
| EvHandler (ctx : XTRNContext).         (* handler(xtrnCtx) *)

Inductive Flow (A : Type) : Type :=
| Next (a : A)
| Return (r : Response)
| Raise (e : Thrown).
Arguments Next {A} a.
Arguments Return {A} r.
Arguments Raise {A} e.

Definition Js (A : Type) : Type := list Event * Flow A.

Definition js_ret {A : Type} (a : A) : Js A := ([], Next a).

Definition js_bind {A B : Type} (m : Js A) (k : A → Js B) : Js B :=
  match m with
  | (evs, Next a) => let '(evs', r) := k a in (evs ++ evs', r)
  | (evs, Return r) => (evs, Return r)
  | (evs, Raise e) => (evs, Raise e)
  end.

(** [return r;] *)
Definition js_return {A : Type} (r : Response) : Js A := ([], Return r).

Definition emit (ev : Event) : Js unit := ([ev], Next tt).

(** [await f(...)] for a callee with the given outcome. *)
Definition await {A : Type} (r : JSResult A) : Js A :=
  match r with
  | Ok a => ([], Next a)
  | Throws e => ([], Raise e)
  end.

(** [try { body } catch (error) { handler }] *)
Definition try_catch {A : Type} (body : Js A) (handler : Thrown → Js A) : Js A :=
  match body with
  | (evs, Raise e) => let '(evs', r) := handler e in (evs ++ evs', r)
  | other => other
  end.

(** What the caller of an [async] function observes once the body ran. *)
Definition Call (A : Type) : Type := list Event * JSResult A.

Definition function (bodyOf : Js Response) : Call Response :=
  match bodyOf with
  | (evs, Next r) => (evs, Ok r)
  | (evs, Return r) => (evs, Ok r)
  | (evs, Raise e) => (evs, Throws e)
  end.

Global Instance Js_ret : MRet Js := @js_ret.
Global Instance Js_bind : MBind Js := fun A B k m => js_bind m k.

(** ** The tool registry *)

Definition zod_of (t : FieldType) : ZodType :=
  match t with
  | TString => ZString
  | TNumber => ZNumber
  | TBoolean => ZBoolean
  end.

Section Construction.
Context `{Platform}.

(** [shape[key] = value] in [generateUserConfigSchema]. An own property is
    overwritten in place. Otherwise the assignment is resolved up the
    prototype chain: under [Object.prototype] the key [__proto__] reaches
    the accessor, which makes the validator the prototype of [shape] and
    creates no own property, and every other key becomes a new own
    property; under a validator the outcome is the validator's. *)
Definition assign (key : string) (value : ZodType) (shape : Shape) : JSResult Shape :=
  if decide (key ∈ (own shape).*1) then
    Ok {| own := set_property key value (own shape); proto := proto shape |}
  else
    match proto shape with
    | None =>
        if decide (key = "__proto__") then Ok {| own := own shape; proto := Some value |}
        else Ok {| own := set_property key value (own shape); proto := None |}
    | Some validator => assign_inherited validator key value shape
    end.

(** The [for] loop over the declared fields, stopped by a [throw]. *)
Definition fill (fs : list UserConfigField) (shape : Shape) : JSResult Shape :=
  foldl (fun acc f => match acc with
                      | Ok sh => assign (field_key f) (zod_of (field_type f)) sh
                      | Throws e => Throws e
                      end) (Ok shape) fs.

(** [z.object(shape)] *)
Definition z_object (shape : Shape) : ZodType :=
  match proto shape with
  | None => ZObject (own shape)
  | Some validator => ZObjectOver validator (own shape)
  end.

(** [generateUserConfigSchema]: [null] for no or an empty field list,
    otherwise [z.object(shape)] with one validator per declared field. *)
Definition generateUserConfigSchema
    (fields : option (list UserConfigField)) : JSResult (option ZodType) :=
  match fields with
  | None => Ok None
  | Some [] => Ok None
  | Some fs =>
      match fill fs {| own := []; proto := None |} with
      | Ok shape => Ok (Some (z_object shape))
      | Throws e => Throws e
      end
  end.

(** [new XTRNServer({name, version, config})]; the routes it sets up are
    those of [dispatch]. *)
Definition new_XTRNServer (name version : string) (cfg : ConfigType)
    : JSResult XTRNServer :=
  match generateUserConfigSchema (userConfig cfg) with
  | Ok schema =>
      Ok {| srv_name := name;
            srv_version := version;
            srv_config := cfg;
            srv_tools := [];
            userConfigSchema := schema |}
  | Throws e => Throws e
  end.

End Construction.

(** [isZod4], a type guard: the schema itself when the test succeeds. *)
Definition isZod4 (s : SchemaArg) : option ZodType :=
  match s with
  | Zod4 schema => Some schema
  | NotZod4 => None
  end.

(** [registerTool]: the schema check is the only [throw]; then the tool is
    pushed and its route is set up. *)
Definition registerTool (srv : XTRNServer) (options : ToolOptions) : JSResult XTRNServer :=
  match isZod4 (opt_schema options) with
  | None =>
      Throws (ErrorObj ("Tool " +:+ dquote +:+ opt_name options +:+ dquote +:+
                        " must use a Zod v4 schema. Zod v3 schemas are not supported."))
  | Some schema =>
      Ok {| srv_name := srv_name srv;
            srv_version := srv_version srv;
            srv_config := srv_config srv;
            srv_tools := srv_tools srv ++
              [ {| tool_name := opt_name options;
                   tool_description := opt_description options;
                   tool_schema := schema;
                   tool_tags := default [] (opt_tags options);
                   tool_handler := opt_handler options |} ];
            userConfigSchema := userConfigSchema srv |}
  end.

(** Registering a list of tools in turn, stopping at the first [throw]. *)
Definition registerTools (srv : XTRNServer) (opts : list ToolOptions) : JSResult XTRNServer :=
  foldl (fun acc o => match acc with
                      | Ok s => registerTool s o
                      | Throws e => Throws e
                      end) (Ok srv) opts.

Definition names_of (srv : XTRNServer) : list string := map tool_name (srv_tools srv).

(** ** The tool route: [setupToolRoute] *)

Section Pipeline.
Context `{Platform}.

Import XTRNResponse.

(** The statements of the route handler's [try] block, one definition per
    commented block of the source, in source order. *)

(** "Decode and parse config from header":
    [userConfig = JSON.parse(atob(configHeader))] when the header is truthy,
    [{}] otherwise. *)
Definition decodeConfigHeader (honoCtx : HonoContext) : Js JSValue :=
  match truthy (header_config honoCtx) with
  | Some configHeader =>
      _ ← emit (EvConfigDecode configHeader);
      match atob configHeader ≫= JSON_parse with
      | Some v => mret v
      | None =>
          js_return (badRequestArgs
            (Some "Invalid X-XTRN-Config header: must be base64-encoded JSON"))
      end
  | None => mret (JObj [])
  end.

(** "Validate userConfig using the userConfig schema": only when the server
    has a schema; the validated data replaces [userConfig]. *)
Definition validateUserConfig (srv : XTRNServer) (userConfig : JSValue) : Js JSValue :=
  match userConfigSchema srv with
  | Some configSchema =>
      _ ← emit (EvConfigValidate userConfig);
      match safeParse configSchema userConfig with
      | ParseSuccess data => mret data
      | ParseFailure error =>
          js_return (badRequestArgs
            (Some ("Config validation failed: " +:+ JSON_stringify error)))
      end
  | None => mret userConfig
  end.

(** "Decode token from header": [refreshToken = atob(tokenHeader)] when the
    header is truthy, [null] otherwise. *)
Definition decodeTokenHeader (honoCtx : HonoContext) : Js (option string) :=
  match truthy (header_token honoCtx) with
  | Some tokenHeader =>
      _ ← emit (EvTokenDecode tokenHeader);
      match atob tokenHeader with
      | Some t => mret (Some t)
      | None =>
          js_return (badRequestArgs
            (Some "Invalid X-XTRN-Token header: must be base64-encoded"))
      end
  | None => mret None
  end.

(** "Validate token presence if OAuth required":
    [if (this.config.oauthConfig && !refreshToken)]. *)
Definition requireToken (srv : XTRNServer) (refreshToken : option string) : Js unit :=
  match oauthConfig (srv_config srv), truthy refreshToken with
  | Some _, None =>
      js_return (badRequestArgs
        (Some "X-XTRN-Token header is required for OAuth-enabled servers"))
  | _, _ => mret tt
  end.

(** "Parse request body": [await honoCtx.req.json()]. *)
Definition parseBody (honoCtx : HonoContext) : Js JSValue :=
  _ ← emit (EvBodyParse (req_body honoCtx));
  match JSON_parse (req_body honoCtx) with
  | Some b => mret b
  | None => js_return (badRequestArgs (Some "Invalid JSON body"))
  end.

(** "Validate tool parameters against schema". *)
Definition validateParams (schema : ZodType) (body : JSValue) : Js JSValue :=
  _ ← emit (EvBodyValidate body);
  match safeParse schema body with
  | ParseSuccess data => mret data
  | ParseFailure error =>
      js_return (badRequestArgs
        (Some ("Tool params validation failed: " +:+ JSON_stringify error)))
  end.

(** "Build context": [token] and [oauth] are attached under
    [if (this.config.oauthConfig && refreshToken)], the three secrets read
    from [env(honoCtx)] at this point. *)
Definition buildContext (srv : XTRNServer) (honoCtx : HonoContext)
    (userConfig : JSValue) (refreshToken : option string) (params : JSValue)
    : XTRNContext :=
  match oauthConfig (srv_config srv), truthy refreshToken with
  | Some oc, Some t =>
      {| req := params;
         config := userConfig;
         token := Some {| refresh_token := t |};
         oauth := Some {| client_id := bindings honoCtx !! "OAUTH_CLIENT_ID";
                          client_secret := bindings honoCtx !! "OAUTH_CLIENT_SECRET";
                          ctx_token_url := token_url oc;
                          callback_url := bindings honoCtx !! "OAUTH_CALLBACK_URL" |} |}
  | _, _ =>
      {| req := params; config := userConfig; token := None; oauth := None |}
  end.

(** The two configuration steps, and the two credential steps. *)
Definition configSteps (srv : XTRNServer) (honoCtx : HonoContext) : Js JSValue :=
  userConfig ← decodeConfigHeader honoCtx;
  validateUserConfig srv userConfig.

Definition credentialSteps (srv : XTRNServer) (honoCtx : HonoContext)
    : Js (option string) :=
  refreshToken ← decodeTokenHeader honoCtx;
  _ ← requireToken srv refreshToken;
  mret refreshToken.

(** The whole [try] block. *)
Definition toolRouteBody (srv : XTRNServer) (schema : ZodType) (handler : Handler)
    (honoCtx : HonoContext) : Js Response :=
  userConfig ← configSteps srv honoCtx;
  refreshToken ← credentialSteps srv honoCtx;
  body ← parseBody honoCtx;
  params ← validateParams schema body;
  let xtrnCtx := buildContext srv honoCtx userConfig refreshToken params in
  _ ← emit (EvHandler xtrnCtx);
  response ← await (handler xtrnCtx);
  js_return response.

(** The route handler: the body inside [try], and the [catch] that answers
    [errorResponse.error(error instanceof Error ? error.message : String(error))]. *)
Definition setupToolRoute (srv : XTRNServer) (toolName : string) (schema : ZodType)
    (handler : Handler) (honoCtx : HonoContext) : Call Response :=
  function
    (try_catch (toolRouteBody srv schema handler honoCtx)
               (fun error => js_return (XTRNResponse.error (error_text error)))).

(** ** The metadata assembler: [buildDetails] *)

(** [await Promise.all(this.tools.map(async (tool) => ...))]: every
    schema is rendered; the promise rejects with the error of the first
    tool, in registration order, whose schema cannot be. *)
Fixpoint renderTools (tools : list Tool) : JSResult (list ToolDetails) :=
  match tools with
  | [] => Ok []
  | tool :: rest =>
      match toJSONSchema (tool_schema tool), renderTools rest with
      | Ok schema, Ok more =>
          Ok ({| td_name := tool_name tool;
                 td_description := tool_description tool;
                 td_schema := schema;
                 td_tags := tool_tags tool |} :: more)
      | Throws e, _ => Throws e
      | Ok _, Throws e => Throws e
      end
  end.

(** [buildDetails]: an [async] function, so a throw is a rejection. *)
Definition buildDetails (srv : XTRNServer) (honoCtx : option HonoContext)
    : JSResult ServerDetails :=
  let oauth :=
    match oauthConfig (srv_config srv) with
    | Some oc =>
        let oauthEnv : gmap string string :=
          match honoCtx with
          | Some c => bindings c
          | None => ∅
          end in
        Some {| fo_provider := provider oc;
                fo_client_id := default "" (oauthEnv !! "OAUTH_CLIENT_ID");
                fo_client_secret := default "" (oauthEnv !! "OAUTH_CLIENT_SECRET");
                fo_authorization_url := authorization_url oc;
                fo_token_url := token_url oc;
                fo_scopes := scopes oc;
                fo_callback_url := default "" (oauthEnv !! "OAUTH_CALLBACK_URL") |}
    | None => None
    end in
  match renderTools (srv_tools srv) with
  | Ok tools =>
      Ok {| sd_name := srv_name srv;
            sd_version := srv_version srv;
            sd_oauth := oauth;
            sd_config := default [] (userConfig (srv_config srv));
            sd_tools := tools |}
  | Throws e => Throws e
  end.

End Pipeline.

(** ** The application: gate stub, middleware, routes, dispatch *)

(** One deployment as a request sees it: the gate actor behind
    [XTRN_STATE.idFromName("state")], the calls the stub has delivered to it,
    and the pipeline trace. *)
Record World : Type := mkWorld {
  gate : Gate.Actor;
  gate_calls : list Gate.GateOp;
  trace : list Event;
}.

Definition App (A : Type) : Type := World → Flow A * World.

Definition app_ret {A : Type} (a : A) : App A := fun w => (Next a, w).

Definition app_bind {A B : Type} (m : App A) (k : A → App B) : App B :=
  fun w =>
    match m w with
    | (Next a, w') => k a w'
    | (Return r, w') => (Return r, w')
    | (Raise e, w') => (Raise e, w')
    end.

Global Instance App_ret : MRet App := @app_ret.
Global Instance App_bind : MBind App := fun A B k m => app_bind m k.

Definition app_return {A : Type} (r : Response) : App A := fun w => (Return r, w).

(** [await stub.method()]: the call reaches the actor and is logged. *)
Definition stub_call {A : Type} (op : Gate.GateOp)
    (method : Gate.Actor → A * Gate.Actor) : App A :=
  fun w =>
    let '(r, a) := method (gate w) in
    (Next r, {| gate := a; gate_calls := gate_calls w ++ [op]; trace := trace w |}).

(** [await next()]: the rest of the chain runs; it has no handle on the
    gate, it only extends the trace, and it answers or throws. *)
Definition await_next (next : Call Response) : App Response :=
  fun w =>
    (match next.2 with
     | Ok r => Next r
     | Throws e => Raise e
     end,
     {| gate := gate w; gate_calls := gate_calls w; trace := trace w ++ next.1 |}).

(** [try { body } finally { cleanup }]: the cleanup runs on every exit of
    the body; its own [return] or [throw] would replace the body's. *)
Definition try_finally {A B : Type} (body : App A) (cleanup : App B) : App A :=
  fun w =>
    let '(r, w1) := body w in
    let '(c, w2) := cleanup w1 in
    (match c with
     | Next _ => r
     | Return x => Return x
     | Raise e => Raise e
     end, w2).

(** [c.text(text, status)] *)
Definition c_text (t : string) (st : Z) : Response :=
  {| status := st; body := TextBody t |}.

(** [c.json(payload)], status 200 *)
Definition c_json (payload : Body) : Response :=
  {| status := 200; body := payload |}.

(** [setupToolMiddleware]: the handler installed on [/tools/*]. The response
    of the request is the one the rest of the chain produced. *)
Definition toolMiddleware (next : Call Response) : App Response :=
  r ← stub_call Gate.OpTryAcquire Gate.tryAcquire;
  if negb (Gate.allowed r) then
    app_return (c_text "Server is winding down" 503)
  else
    try_finally (await_next next) (stub_call Gate.OpRelease Gate.release).

(** [setupWinddownRoute] *)
Definition winddownRoute : App Response :=
  activeRequests ← stub_call Gate.OpWindDown Gate.windDown;
  app_return (c_json (WindDownBody "Server is now refusing new requests" activeRequests)).

(** [setupActiveRequestsRoute] *)
Definition activeRequestsRoute : App Response :=
  st ← stub_call Gate.OpGetState Gate.getState;
  app_return (c_json (GateStateBody (Gate.view_activeRequests st) (Gate.refusingRequests st))).

(** [setupResetRoute] *)
Definition resetRoute : App Response :=
  _ ← stub_call Gate.OpReset Gate.reset;
  app_return (c_json (MessageBody "State reset")).

(** Hono's answer when no route handler matched. *)
Definition notFound : Call Response := ([], Ok (c_text "404 Not Found" 404)).

Section Application.
Context `{Platform}.

(** [setupDetailsRoute]: [honoCtx.json(await this.buildDetails(honoCtx))],
    with nothing to catch a rejection. *)
Definition detailsRoute (srv : XTRNServer) (honoCtx : HonoContext) : App Response :=
  fun w =>
    match buildDetails srv (Some honoCtx) with
    | Ok details => (Return (c_json (DetailsBody details)), w)
    | Throws e => (Raise e, w)
    end.

(** The POST routes on a tool path. [registerTool] installs the handler of
    a tool under the pattern [`/tools/${toolName}`]; the first registered
    route whose pattern matches the path answers, as Hono runs matching
    handlers in registration order and a route handler never calls
    [next]. *)
Definition toolRoute (srv : XTRNServer) (path : string) (honoCtx : HonoContext)
    : Call Response :=
  match List.find (fun t => route_matches (tool_name t) path) (srv_tools srv) with
  | Some t => setupToolRoute srv (tool_name t) (tool_schema t) (tool_handler t) honoCtx
  | None => notFound
  end.

(** The handler chain of a request, by path and method. The middleware is
    installed with [app.use], so it covers every method on a tool path. *)
Definition dispatch (srv : XTRNServer) (honoCtx : HonoContext) : App Response :=
  match req_path honoCtx, req_method honoCtx with
  | PTool path, POST => toolMiddleware (toolRoute srv path honoCtx)
  | PTool _, _ => toolMiddleware notFound
  | PDetails, GET => detailsRoute srv honoCtx
  | PWindDown, POST => winddownRoute
  | PActiveRequests, GET => activeRequestsRoute
  | PReset, POST => resetRoute
  | _, _ => await_next notFound
  end.

(** [fetch]: the response of the chain. An [Error] that escapes every
    handler is answered by Hono's default error handler; any other thrown
    value rejects the promise. *)
Definition fetch (srv : XTRNServer) (honoCtx : HonoContext) (w : World)
    : JSResult Response * World :=
  match dispatch srv honoCtx w with
  | (Next r, w') => (Ok r, w')
  | (Return r, w') => (Ok r, w')
  | (Raise (ErrorObj _), w') => (Ok (c_text "Internal Server Error" 500), w')
  | (Raise (NonError v), w') => (Throws (NonError v), w')
  end.

End Application.

(** The [release] calls among the calls a stub delivered. *)
Definition release_calls (w : World) : Z := Gate.releases (gate_calls w).

(** Position of a pipeline step in the validation order. *)
Definition stage (ev : Event) : nat :=
  match ev with
  | EvConfigDecode _ => 1
  | EvConfigValidate _ => 2
  | EvTokenDecode _ => 3
  | EvBodyParse _ => 4
  | EvBodyValidate _ => 5
  | EvHandler _ => 6
  end.

Definition is_body_parse (ev : Event) : bool :=
  match ev with
  | EvBodyParse _ => true
  | _ => false
  end.

(** The contexts the handler was called with, in order. *)
Definition handler_calls (evs : list Event) : list XTRNContext :=
  omap (fun ev => match ev with
                  | EvHandler ctx => Some ctx
                  | _ => None
                  end) evs.

(** The body was never read by the run that left this trace. *)
Definition body_untouched (evs : list Event) : Prop :=
  forallb (fun ev => negb (is_body_parse ev)) evs = true.

Definition handler_not_called (evs : list Event) : Prop :=
  handler_calls evs = [].

(** The 400 answers of the pipeline. *)
Definition bad_request (reason : string) : Response :=
  XTRNResponse.badRequestArgs (Some reason).

Definition config_header_invalid : string :=
  "Invalid X-XTRN-Config header: must be base64-encoded JSON".
Definition token_header_invalid : string :=
  "Invalid X-XTRN-Token header: must be base64-encoded".
Definition token_header_required : string :=
  "X-XTRN-Token header is required for OAuth-enabled servers".
Definition body_invalid : string := "Invalid JSON body".

(** Unfolds the route to its statements and splits on every test. *)
Ltac step_route :=
  cbv [setupToolRoute toolRouteBody configSteps credentialSteps
       decodeConfigHeader validateUserConfig decodeTokenHeader requireToken
       parseBody validateParams function try_catch await emit js_return
       mbind mret Js_bind Js_ret js_bind js_ret];
  repeat (case_match; simplify_eq/=).

(** ** Sample data: a runtime and the servers of the repository

    A small runtime that agrees with the real codecs, validator and
    router on the strings the examples use, and two servers declared as in
    [servers/testserver] and [servers/pingserver]. *)

Module Samples.

Definition quoted (s : string) : string := dquote +:+ s +:+ dquote.

(** [{"locale":"en"}] and [{"message":"hi"}] *)
Definition locale_json : string :=
  "{" +:+ quoted "locale" +:+ ":" +:+ quoted "en" +:+ "}".
Definition message_json : string :=
  "{" +:+ quoted "message" +:+ ":" +:+ quoted "hi" +:+ "}".

Definition sample_atob (s : string) : option string :=
  if decide (s = "e30=") then Some "{}"
  else if decide (s = "eyJsb2NhbGUiOiJlbiJ9") then Some locale_json
  else if decide (s = "cmVmcmVzaC10b2tlbg==") then Some "refresh-token"
  else if decide (s = "") then Some ""
  else None.

Definition sample_JSON_parse (s : string) : option JSValue :=
  if decide (s = "{}") then Some (JObj [])
  else if decide (s = locale_json) then Some (JObj [("locale", JStr "en")])
  else if decide (s = message_json) then Some (JObj [("message", JStr "hi")])
  else if decide (s = "null") then Some JNull
  else None.

Definition sample_JSON_stringify (v : JSValue) : string :=
  match v with
  | JNull => "null"
  | JBool true => "true"
  | JBool false => "false"
  | JStr s => quoted s
  | JArr [] => "[]"
  | _ => "{}"
  end.

Definition property (k : string) (v : JSValue) : option JSValue :=
  match v with
  | JObj fields => snd <$> List.find (fun kv => bool_decide (kv.1 = k)) fields
  | _ => None
  end.

Definition has_type (t : ZodType) (v : option JSValue) : bool :=
  match t, v with
  | ZString, Some (JStr _) => true
  | ZNumber, Some (JNum _) => true
  | ZBoolean, Some (JBool _) => true
  | ZOther _, _ => true
  | _, _ => false
  end.

(** Objects of primitive fields, every field required, unknown keys
    stripped; any other schema accepts any object unchanged. *)
Definition sample_safeParse (schema : ZodType) (v : JSValue) : SafeParseResult :=
  match schema, v with
  | ZObject shape, JObj _ | ZObjectOver _ shape, JObj _ =>
      if forallb (fun kt => has_type kt.2 (property kt.1 v)) shape then
        ParseSuccess
          (JObj (omap (fun kt => pair kt.1 <$> property kt.1 v) shape))
      else ParseFailure (JStr "invalid_type")
  | ZOther _, JObj _ => ParseSuccess v
  | _, _ => ParseFailure (JStr "invalid_type")
  end.

(** [ZOther "date"] stands for a schema with a [z.date()] in it, which
    JSON Schema cannot represent. *)
Definition sample_toJSONSchema (schema : ZodType) : JSResult JSValue :=
  match schema with
  | ZString => Ok (JObj [("type", JStr "string")])
  | ZNumber => Ok (JObj [("type", JStr "number")])
  | ZBoolean => Ok (JObj [("type", JStr "boolean")])
  | ZObject _ => Ok (JObj [("type", JStr "object")])
  | ZObjectOver _ _ => Ok (JObj [("type", JStr "object")])
  | ZOther d =>
      if decide (d = "date")
      then Throws (ErrorObj "Date cannot be represented in JSON Schema")
      else Ok (JObj [("description", JStr d)])
  end.

(** Under a validator, the key [_zod], which every validator owns
    read-only, cannot be assigned; the key [__proto__] still reaches the
    accessor of [Object.prototype]; any other key becomes an own
    property. *)
Definition sample_assign_inherited (validator : ZodType) (key : string)
    (value : ZodType) (shape : Shape) : JSResult Shape :=
  if decide (key = "_zod")
  then Throws (ErrorObj "Cannot assign to read only property '_zod' of object '#<Object>'")
  else if decide (key = "__proto__")
  then Ok {| own := own shape; proto := Some value |}
  else Ok {| own := set_property key value (own shape); proto := proto shape |}.

(** The pattern [/tools/:id] matches any one segment under [/tools/] that
    is not empty; the pattern of any other name used here has no special
    character and matches its own path only. *)
Fixpoint one_segment (s : string) : bool :=
  match s with
  | EmptyString => true
  | String c rest => negb (bool_decide (c = "/"%char)) && one_segment rest
  end.

Fixpoint after_prefix (p s : string) : option string :=
  match p, s with
  | EmptyString, _ => Some s
  | String a p', String b s' => if decide (a = b) then after_prefix p' s' else None
  | String _ _, EmptyString => None
  end.

Definition sample_route_matches (name path : string) : bool :=
  if decide (name = ":id") then
    match after_prefix "/tools/" path with
    | Some segment => negb (bool_decide (segment = "")) && one_segment segment
    | None => false
    end
  else bool_decide (path = "/tools/" +:+ name).

Definition runtime : Platform :=
  {| atob := sample_atob;
     JSON_parse := sample_JSON_parse;
     JSON_stringify := sample_JSON_stringify;
     safeParse := sample_safeParse;
     toJSONSchema := sample_toJSONSchema;
     assign_inherited := sample_assign_inherited;
     route_matches := sample_route_matches |}.

(** The server a construction gives; the blank one stands in where the
    construction threw. *)
Definition blank : XTRNServer :=
  {| srv_name := ""; srv_version := "";
     srv_config := {| userConfig := None; oauthConfig := None |};
     srv_tools := []; userConfigSchema := None |}.

Definition built (r : JSResult XTRNServer) : XTRNServer :=
  match r with
  | Ok s => s
  | Throws _ => blank
  end.

(** The [echo] tool of the test server. *)
Definition echo_schema : ZodType := ZObject [("message", ZString)].

Definition echo_handler : Handler := fun ctx =>
  match token ctx with
  | Some t =>
      Ok (XTRNResponse.json
            (JObj [("echo", default JNull (property "message" (req ctx)));
                   ("locale", default JNull (property "locale" (config ctx)));
                   ("refresh_token", JStr (refresh_token t))]))
  | None =>
      Throws (ErrorObj "Cannot read properties of undefined (reading 'refresh_token')")
  end.

Definition echo : ToolOptions :=
  {| opt_name := "echo";
     opt_description := "Echoes back the input with server context and configuration";
     opt_schema := Zod4 echo_schema;
     opt_tags := None;
     opt_handler := echo_handler |}.

(** A second registration under the name [echo]. *)
Definition echo_again : ToolOptions :=
  {| opt_name := "echo";
     opt_description := "Another tool registered under the same name";
     opt_schema := Zod4 (ZOther "any object");
     opt_tags := Some [Mutation];
     opt_handler := fun _ => Ok (XTRNResponse.text "second") |}.

(** A tool whose handler throws. *)
Definition crash : ToolOptions :=
  {| opt_name := "crash";
     opt_description := "Always fails";
     opt_schema := Zod4 (ZOther "any object");
     opt_tags := None;
     opt_handler := fun _ => Throws (ErrorObj "upstream unavailable") |}.

Definition test_oauth : OAuthConfig :=
  {| provider := "test-provider";
     authorization_url := "https://example.com/auth";
     token_url := "https://example.com/token";
     scopes := ["read"; "write"] |}.

(** [new XTRNServer({name: "testserver", ...})] and its tools. *)
Definition testserver_empty : XTRNServer :=
  built (@new_XTRNServer runtime "testserver" "1.0.0"
           {| userConfig := Some [ {| field_key := "locale"; field_type := TString |} ];
              oauthConfig := Some test_oauth |}).

Definition testserver : XTRNServer :=
  match registerTools testserver_empty [echo; crash] with
  | Ok s => s
  | Throws _ => testserver_empty
  end.

(** A server with a credential descriptor and no user configuration. *)
Definition oauthserver : XTRNServer :=
  match registerTools
          (built (@new_XTRNServer runtime "oauth-only" "1.0.0"
                    {| userConfig := None; oauthConfig := Some test_oauth |}))
          [echo] with
  | Ok s => s
  | Throws _ => testserver_empty
  end.

(** The ping server: no configuration, no credential. *)
Definition ping : ToolOptions :=
  {| opt_name := "ping";
     opt_description := "Returns pong with a timestamp";
     opt_schema := Zod4 (ZOther "label");
     opt_tags := None;
     opt_handler := fun _ => Ok (XTRNResponse.json (JObj [("pong", JBool true)])) |}.

Definition pingserver : XTRNServer :=
  match registerTools
          (built (@new_XTRNServer runtime "pingserver" "1.0.0"
                    {| userConfig := None; oauthConfig := None |}))
          [ping] with
  | Ok s => s
  | Throws _ => testserver_empty
  end.

(** Requests. *)
Definition post_tool (name : string) (cfg tok : option string) (text : string)
    (env : gmap string string) : HonoContext :=
  {| req_method := POST; req_path := PTool ("/tools/" +:+ name);
     header_config := cfg; header_token := tok;
     req_body := text; bindings := env |}.

Definition get_details (env : gmap string string) : HonoContext :=
  {| req_method := GET; req_path := PDetails;
     header_config := None; header_token := None;
     req_body := ""; bindings := env |}.

Definition oauth_env : gmap string string :=
  {[ "OAUTH_CLIENT_ID" := "client-id"; "OAUTH_CALLBACK_URL" := "https://example.com/cb" ]}.

(** A call of the [echo] route of the test server. *)
Definition echo_call (cfg tok : option string) (text : string) : Call Response :=
  @setupToolRoute runtime testserver "echo" echo_schema echo_handler
    (post_tool "echo" cfg tok text oauth_env).

(** Gate states. *)
Definition busy_gate : Gate.Actor :=
  Gate.run_ops [Gate.OpTryAcquire; Gate.OpTryAcquire; Gate.OpTryAcquire] Gate.initial.

Definition draining_gate : Gate.Actor := (Gate.windDown busy_gate).2.

Definition world_of (g : Gate.Actor) : World :=
  {| gate := g; gate_calls := []; trace := [] |}.

End Samples.

(** ** Requests served one after another *)

Section Serving.
Context `{Platform}.

(** The deployment after a list of requests, each one completed before the
    next starts. *)
Definition serve (srv : XTRNServer) (reqs : list HonoContext) (w : World) : World :=
  foldl (fun acc c => (fetch srv c acc).2) w reqs.

End Serving.

(** The two requests that change the refusing flag. *)
Definition is_wind_down (c : HonoContext) : Prop :=
  req_path c = PWindDown ∧ req_method c = POST.

Definition is_reset (c : HonoContext) : Prop :=
  req_path c = PReset ∧ req_method c = POST.

(** The same request in another environment. *)
Definition with_bindings (c : HonoContext) (env : gmap string string) : HonoContext :=
  {| req_method := req_method c;
     req_path := req_path c;
     header_config := header_config c;
     header_token := header_token c;
     req_body := req_body c;
     bindings := env |}.

(** Two environments that bind the three OAuth secrets alike. *)
Definition same_oauth_bindings (env env' : gmap string string) : Prop :=
  env !! "OAUTH_CLIENT_ID" = env' !! "OAUTH_CLIENT_ID"
  ∧ env !! "OAUTH_CLIENT_SECRET" = env' !! "OAUTH_CLIENT_SECRET"
  ∧ env !! "OAUTH_CALLBACK_URL" = env' !! "OAUTH_CALLBACK_URL".

(** Every tool schema of the server has a JSON Schema. *)
Definition renderable `{Platform} (srv : XTRNServer) : Prop :=
  Forall (fun t => ∃ schema, toJSONSchema (tool_schema t) = Ok schema) (srv_tools srv).

(** A registered tool whose route pattern matches the path. *)
Definition routed `{Platform} (srv : XTRNServer) (path : string) : Prop :=
  Exists (fun t => route_matches (tool_name t) path = true) (srv_tools srv).

(** ** What a declaration amounts to *)

(** The type a key is declared with, by its last declaration in the list. *)
Definition last_declared (fs : list UserConfigField) (k : string) : option FieldType :=
  field_type <$> last (filter (fun f => field_key f = k) fs).

(** The entry [registerTool] pushes for an accepted declaration. *)
Definition tool_of (o : ToolOptions) (schema : ZodType) : Tool :=
  {| tool_name := opt_name o;
     tool_description := opt_description o;
     tool_schema := schema;
     tool_tags := default [] (opt_tags o);
     tool_handler := opt_handler o |}.

(** The message of the error [registerTool] throws for a tool name. *)
Definition not_zod4_message (name : string) : string :=
  "Tool " +:+ dquote +:+ name +:+ dquote +:+
  " must use a Zod v4 schema. Zod v3 schemas are not supported.".

(** ** The development server: [.dev.vars] and the command line

    The [xtrn dev] script reads the bindings it hands to the worker from a
    [.dev.vars] file and its entry point and port from the command line.
    Here a JavaScript string is the list of its UTF-16 code units, so that
    [trim], [split], [indexOf] and [slice] are what they are in the
    language. *)

Module DevServer.

(** The code units of an ASCII literal. *)
Fixpoint units (s : string) : list N :=
  match s with
  | EmptyString => []
  | String c rest => N_of_ascii c :: units rest
  end.

Definition LF : N := 10.
Definition HASH : N := 35.
Definition EQUALS : N := 61.

(** The code units [String.prototype.trim] strips: ECMAScript's WhiteSpace
    (TAB, VT, FF, ZWNBSP and the space separators) and LineTerminator
    (LF, CR, LS, PS). *)
Definition is_space (c : N) : bool :=
  bool_decide (c ∈ [9; 10; 11; 12; 13; 32; 160; 5760; 8232; 8233; 8239; 8287;
                    12288; 65279]%N)
  || (N.leb 8192 c && N.leb c 8202).

Fixpoint trimStart (s : list N) : list N :=
  match s with
  | c :: rest => if is_space c then trimStart rest else s
  | [] => []
  end.

Definition trimEnd (s : list N) : list N := reverse (trimStart (reverse s)).

(** [s.trim()] *)
Definition trim (s : list N) : list N := trimEnd (trimStart s).

(** [s.split(sep)] for a separator of one code unit. *)
Fixpoint split (sep : N) (s : list N) : list (list N) :=
  match s with
  | [] => [[]]
  | c :: rest =>
      if decide (c = sep) then [] :: split sep rest
      else match split sep rest with
           | piece :: pieces => (c :: piece) :: pieces
           | [] => [[c]]
           end
  end.

(** [s.startsWith(p)] *)
Fixpoint startsWith (p s : list N) : bool :=
  match p, s with
  | [], _ => true
  | a :: p', b :: s' => bool_decide (a = b) && startsWith p' s'
  | _ :: _, [] => false
  end.

(** [s.indexOf(c)] for one code unit; [None] is -1. *)
Fixpoint indexOf (c : N) (s : list N) : option nat :=
  match s with
  | [] => None
  | d :: rest => if decide (d = c) then Some 0%nat else S <$> indexOf c rest
  end.

(** [bindings[key] = value] on an object created by [{}]: the key
    [__proto__] reaches the accessor of [Object.prototype], whose setter
    ignores a string; every other key becomes an own property. *)
Definition set_binding (key value : list N) (bindings : gmap (list N) (list N))
    : gmap (list N) (list N) :=
  if decide (key = units "__proto__") then bindings else <[key := value]> bindings.

(** The body of the [for] loop of [parseDevVars]. *)
Definition parse_line (bindings : gmap (list N) (list N)) (line : list N)
    : gmap (list N) (list N) :=
  let trimmed := trim line in
  match trimmed with
  | [] => bindings
  | _ :: _ =>
      if startsWith [HASH] trimmed then bindings
      else match indexOf EQUALS trimmed with
           | None => bindings
           | Some eqIdx =>
               set_binding (take eqIdx trimmed) (drop (S eqIdx) trimmed) bindings
           end
  end.

(** [parseDevVars]. The argument is the file: [None] when
    [fs.existsSync] is false, otherwise what [fs.readFileSync] gives. *)
Definition parseDevVars (file : option (JSResult (list N)))
    : JSResult (gmap (list N) (list N)) :=
  match file with
  | None => Ok ∅
  | Some (Throws e) => Throws e
  | Some (Ok content) => Ok (foldl parse_line ∅ (split LF content))
  end.

(** What a line assigns, if anything: the key and the value. *)
Definition assignment (line : list N) : option (list N * list N) :=
  let trimmed := trim line in
  match trimmed with
  | [] => None
  | _ :: _ =>
      if startsWith [HASH] trimmed then None
      else match indexOf EQUALS trimmed with
           | None => None
           | Some eqIdx =>
               if decide (take eqIdx trimmed = units "__proto__") then None
               else Some (take eqIdx trimmed, drop (S eqIdx) trimmed)
           end
  end.

(** A [.dev.vars] file written from a list of bindings: one [key=value]
    line each, joined by line feeds. *)
Definition render_line (kv : list N * list N) : list N := kv.1 ++ (EQUALS :: kv.2).

Fixpoint join (sep : N) (pieces : list (list N)) : list N :=
  match pieces with
  | [] => []
  | [piece] => piece
  | piece :: more => piece ++ (sep :: join sep more)
  end.

Definition render (kvs : list (list N * list N)) : list N :=
  join LF (render_line <$> kvs).

(** Keys and values that a line can carry unchanged. *)
Definition plain_key (k : list N) : Prop :=
  (EQUALS ∉ k) ∧ (LF ∉ k) ∧ k ≠ units "__proto__"
  ∧ match k with
    | c :: _ => is_space c = false ∧ c ≠ HASH
    | [] => True
    end.

Definition plain_value (v : list N) : Prop :=
  (LF ∉ v) ∧ match last v with
           | Some c => is_space c = false
           | None => True
           end.

(** [parseArgs], over [process.argv.slice(2)]. [Number.parseInt(_, 10)] and
    [path.resolve] are the runtime's. *)
Section Args.
Context {Num : Type}.
Variables (parseInt10 : list N → Num) (num_1234 : Num) (resolve : list N → list N).

Record Args : Type := mkArgs {
  entryPoint : list N;
  port : Num;
}.

(** [arg.split("=")[1]!] as [parseInt] reads it: an absent element is
    [undefined], read as the string "undefined". *)
Definition port_text (arg : list N) : list N :=
  default (units "undefined") (split EQUALS arg !! 1%nat).

(** The body of the [for] loop, on the pair of [entryPoint] and [port]. *)
Definition parse_arg (acc : list N * Num) (arg : list N) : list N * Num :=
  if startsWith (units "--port=") arg then (acc.1, parseInt10 (port_text arg))
  else if negb (startsWith (units "--") arg) then (arg, acc.2)
  else acc.

Definition parseArgs (args : list (list N)) : Args :=
  let acc := foldl parse_arg (units "./index.ts", num_1234) args in
  {| entryPoint := resolve acc.1; port := acc.2 |}.

End Args.

End DevServer.

(** ** The calendar server: the access-token cache

    [servers/google-calendar] keeps, per refresh token, the access token
    it last obtained and its expiry, in a module-level [Map].
    [Date.now()], the token endpoint and the calendar API are the
    outside world: the time and their outcomes are arguments. *)

Module Calendar.

Record AccessToken : Type := mkAccessToken {
  access_token : string;
  expiresAt : Z;
}.

(** What [getCalendarClient] reads from the context. *)
Record ClientCtx : Type := mkClientCtx {
  unauth_test : bool;
  ctx_refresh_token : string;
  ctx_client_id : option string;
  ctx_client_secret : option string;
}.

(** What the token endpoint and the API can throw: a [GaxiosError] with
    its message, or anything else. *)
Inductive ApiError : Type :=
| GaxiosError (message : string)
| OtherError (e : Thrown).

(** [await client.refreshAccessToken()]: [{credentials}] with its two
    fields, each possibly absent, or a throw. *)
Inductive RefreshOutcome : Type :=
| Credentials (token : option string) (expiry_date : option Z)
| RefreshThrows (e : ApiError).

(** The client handed to the API: its OAuth client and the access token
    set on it. *)
Record CalendarClient : Type := mkClient {
  auth_client_id : option string;
  auth_client_secret : option string;
  auth_access_token : string;
}.

(** The module state, and the refresh tokens sent to the token endpoint. *)
Record CalState : Type := mkCalState {
  access_token_map : gmap string AccessToken;
  refresh_calls : list string;
}.

Inductive Attempt (A : Type) : Type :=
| Got (a : A)
| Threw (e : ApiError).
Arguments Got {A} a.
Arguments Threw {A} e.

Definition missing_fields : string :=
  "Missing access token fields in credentials object. Try again.".

(** [!credentials.access_token || !credentials.expiry_date]: the pair when
    both are truthy (a string that is not empty, a number that is not 0). *)
Definition usable (token : option string) (expiry_date : option Z)
    : option (string * Z) :=
  match truthy token, expiry_date with
  | Some t, Some e => if decide (e = 0) then None else Some (t, e)
  | _, _ => None
  end.

(** The [else] branch of [getCalendarClient]: ask the token endpoint,
    store what it gave, and translate what it threw. *)
Definition refresh_and_store (ctx : ClientCtx)
    (refreshAccessToken : string → RefreshOutcome) (st : CalState)
    (client : string → CalendarClient) : Attempt CalendarClient * CalState :=
  let called :=
    {| access_token_map := access_token_map st;
       refresh_calls := refresh_calls st ++ [ctx_refresh_token ctx] |} in
  match refreshAccessToken (ctx_refresh_token ctx) with
  | Credentials token expiry_date =>
      match usable token expiry_date with
      | Some (t, e) =>
          (Got (client t),
           {| access_token_map :=
                <[ctx_refresh_token ctx := {| access_token := t; expiresAt := e |}]>
                  (access_token_map st);
              refresh_calls := refresh_calls called |})
      | None => (Threw (OtherError (ErrorObj missing_fields)), called)
      end
  | RefreshThrows (GaxiosError message) =>
      if decide (message = "invalid_grant")
      then (Threw (OtherError (ErrorObj "Unauthorized")), called)
      else (Threw (GaxiosError message), called)
  | RefreshThrows (OtherError e) => (Threw (OtherError e), called)
  end.

(** [getCalendarClient] *)
Definition getCalendarClient (ctx : ClientCtx) (now : Z)
    (refreshAccessToken : string → RefreshOutcome) (st : CalState)
    : Attempt CalendarClient * CalState :=
  if unauth_test ctx then (Threw (OtherError (ErrorObj "Unauthorized")), st)
  else
    let client token :=
      {| auth_client_id := ctx_client_id ctx;
         auth_client_secret := ctx_client_secret ctx;
         auth_access_token := token |} in
    match access_token_map st !! ctx_refresh_token ctx with
    | Some cachedToken =>
        if decide (now < expiresAt cachedToken)
        then (Got (client (access_token cachedToken)), st)
        else refresh_and_store ctx refreshAccessToken st client
    | None => refresh_and_store ctx refreshAccessToken st client
    end.

(** The validated parameters of [delete-event]. *)
Record DeleteRequest : Type := mkDeleteRequest {
  calendarId : string;
  eventId : string;
  sendUpdates : option string;
}.

(** [await calendar.events.delete(...)] *)
Inductive DeleteOutcome : Type :=
| Deleted
| DeleteThrows (e : ApiError).

(** [error instanceof Error ? error.message : "Unknown error occurred"];
    a [GaxiosError] is an [Error]. *)
Definition reported (e : ApiError) : string :=
  match e with
  | GaxiosError message => message
  | OtherError (ErrorObj message) => message
  | OtherError (NonError _) => "Unknown error occurred"
  end.

Definition failure (e : ApiError) : Response :=
  XTRNResponse.json (JObj [("success", JBool false); ("error", JStr (reported e))]).

Definition deleted (request : DeleteRequest) : Response :=
  XTRNResponse.json
    (JObj [("success", JBool true);
           ("message", JStr "Event deleted successfully");
           ("eventId", JStr (eventId request))]).

(** The handler of [delete-event]; beside its response and the module
    state, the calls it made to the calendar API. *)
Definition deleteEvent (ctx : ClientCtx) (request : DeleteRequest) (now : Z)
    (refreshAccessToken : string → RefreshOutcome)
    (events_delete : CalendarClient → DeleteRequest → DeleteOutcome)
    (st : CalState)
    : Response * CalState * list (CalendarClient * DeleteRequest) :=
  match getCalendarClient ctx now refreshAccessToken st with
  | (Got calendar, st') =>
      match events_delete calendar request with
      | Deleted => (deleted request, st', [(calendar, request)])
      | DeleteThrows e => (failure e, st', [(calendar, request)])
      end
  | (Threw e, st') => (failure e, st', [])
  end.

(** The token the cache would serve at [now], if any. *)
Definition live (ctx : ClientCtx) (now : Z) (st : CalState) : option AccessToken :=
  match access_token_map st !! ctx_refresh_token ctx with
  | Some cachedToken => if decide (now < expiresAt cachedToken) then Some cachedToken else None
  | None => None
  end.

(** A cache entry a refresh can have stored. *)
Definition storable (t : AccessToken) : Prop :=
  access_token t ≠ "" ∧ expiresAt t ≠ 0.

(** Examples. *)
Definition alice : ClientCtx :=
  {| unauth_test := false; ctx_refresh_token := "rt-alice";
     ctx_client_id := Some "id"; ctx_client_secret := Some "secret" |}.
Definition empty_cache : CalState :=
  {| access_token_map := ∅; refresh_calls := [] |}.
Definition issue (token : string) (expiry : Z) : string → RefreshOutcome :=
  fun _ => Credentials (Some token) (Some expiry).
Definition revoked : string → RefreshOutcome :=
  fun _ => RefreshThrows (GaxiosError "invalid_grant").
Definition drop_event : DeleteRequest :=
  {| calendarId := "primary"; eventId := "ev1"; sendUpdates := None |}.

End Calendar.

(** More requests for the examples. *)
Module MoreSamples.

Definition request (m : Method) (p : Path) : HonoContext :=
  {| req_method := m; req_path := p; header_config := None;
     header_token := None; req_body := ""; bindings := ∅ |}.

(** The valid call of [echo] on the test server, and the context its
    handler receives. *)
Definition valid_echo_request : HonoContext :=
  Samples.post_tool "echo" (Some "eyJsb2NhbGUiOiJlbiJ9") (Some "cmVmcmVzaC10b2tlbg==")
    Samples.message_json Samples.oauth_env.

Definition echo_context : XTRNContext :=
  {| req := JObj [("message", JStr "hi")];
     config := JObj [("locale", JStr "en")];
     token := Some {| refresh_token := "refresh-token" |};
     oauth := Some {| client_id := Some "client-id";
                      client_secret := None;
                      ctx_token_url := "https://example.com/token";
                      callback_url := Some "https://example.com/cb" |} |}.

(** A tool declared with a Zod v3 schema. *)
Definition legacy : ToolOptions :=
  {| opt_name := "legacy";
     opt_description := "Declared with a Zod v3 schema";
     opt_schema := NotZod4;
     opt_tags := None;
     opt_handler := fun _ => Ok (XTRNResponse.text "never") |}.

(** The test server after its first registration. *)
Definition testserver_echo : XTRNServer :=
  match registerTool Samples.testserver_empty Samples.echo with
  | Ok s => s
  | Throws _ => Samples.testserver_empty
  end.

Definition valid_echo_call : Call Response :=
  @setupToolRoute Samples.runtime Samples.testserver "echo" Samples.echo_schema
    Samples.echo_handler valid_echo_request.

(** A tool whose parameters hold a date: its schema has no JSON Schema. *)
Definition remind : ToolOptions :=
  {| opt_name := "remind";
     opt_description := "Sets a reminder at a date";
     opt_schema := Zod4 (ZOther "date");
     opt_tags := None;
     opt_handler := fun _ => Ok (XTRNResponse.text "set") |}.

(** The ping server and the credential server, each with that tool
    registered last. *)
Definition reminderserver : XTRNServer :=
  match registerTools Samples.pingserver [remind] with
  | Ok s => s
  | Throws _ => Samples.blank
  end.

Definition oauth_reminderserver : XTRNServer :=
  match registerTools Samples.oauthserver [remind] with
  | Ok s => s
  | Throws _ => Samples.blank
  end.

(** A tool registered under a name that is a route parameter. *)
Definition by_id : ToolOptions :=
  {| opt_name := ":id";
     opt_description := "Looks a record up";
     opt_schema := Zod4 (ZOther "any object");
     opt_tags := None;
     opt_handler := fun _ => Ok (XTRNResponse.text "found") |}.

Definition idserver : XTRNServer :=
  match registerTools Samples.pingserver [by_id] with
  | Ok s => s
  | Throws _ => Samples.blank
  end.

End MoreSamples.

(** * Properties of the admission gate *)

Module GateFacts.
Import Gate.

Lemma run_ops_cons (op : GateOp) (ops : list GateOp) (a : Actor) :
  run_ops (op :: ops) a = run_ops ops (apply_op op a).
Proof. reflexivity. Qed.

Lemma run_events_cons (ev : ActorEvent) (evs : list ActorEvent) (a : Actor) :
  run_events (ev :: evs) a = run_events evs (apply_event ev a).
Proof. reflexivity. Qed.

Lemma nil_is_prefix (ops : list GateOp) : [] ∈ prefixes ops.
Proof. destruct ops; simpl; apply list_elem_of_here. Qed.

(** [prefixes] lists exactly the initial segments of a history. *)
Lemma prefixes_are_takes (ops p : list GateOp) :
  p ∈ prefixes ops ↔ ∃ k : nat, p = take k ops.
Proof.
  revert p. induction ops as [|o ops IH]; intros p; simpl.
  - rewrite list_elem_of_singleton. split.
    + intros ->. by exists 0%nat.
    + intros [k ->]. by destruct k.
  - rewrite elem_of_cons, list_elem_of_fmap. split.
    + intros [->|(q & -> & Hq)]; [by exists 0%nat|].
      apply IH in Hq as [k ->]. by exists (S k).
    + intros [[|k] ->]; [by left|]. right. exists (take k ops).
      split; [done|]. apply IH. by exists k.
Qed.

(** Every operation keeps a non-negative counter non-negative. *)
Lemma apply_op_nonneg (op : GateOp) (a : Actor) :
  0 ≤ activeRequests (inst a) → 0 ≤ activeRequests (inst (apply_op op a)).
Proof.
  intros Hpos. destruct op; simpl; try lia.
  unfold tryAcquire. destruct (refuseRequests (inst a)); simpl; lia.
Qed.

Lemma run_ops_nonneg (ops : list GateOp) (a : Actor) :
  0 ≤ activeRequests (inst a) → 0 ≤ activeRequests (inst (run_ops ops a)).
Proof.
  revert a. induction ops as [|op ops IH]; intros a Hpos; [exact Hpos|].
  rewrite run_ops_cons. apply IH. by apply apply_op_nonneg.
Qed.

Lemma acquire_accepting (a : Actor) :
  refuseRequests (inst a) = false →
  activeRequests (inst (apply_op OpTryAcquire a)) = activeRequests (inst a) + 1
  ∧ refuseRequests (inst (apply_op OpTryAcquire a)) = false.
Proof.
  intros Hacc. simpl. unfold tryAcquire. rewrite Hacc. simpl. done.
Qed.

Lemma release_effect (a : Actor) :
  activeRequests (inst (apply_op OpRelease a)) = Z.max 0 (activeRequests (inst a) - 1)
  ∧ refuseRequests (inst (apply_op OpRelease a)) = refuseRequests (inst a).
Proof. split; reflexivity. Qed.

Lemma counts_after_acquire (ops : list GateOp) :
  acquires (OpTryAcquire :: ops) = 1 + acquires ops
  ∧ releases (OpTryAcquire :: ops) = releases ops.
Proof. split; reflexivity. Qed.

Lemma counts_after_release (ops : list GateOp) :
  acquires (OpRelease :: ops) = acquires ops
  ∧ releases (OpRelease :: ops) = 1 + releases ops.
Proof. split; reflexivity. Qed.

Lemma counts_after_getState (ops : list GateOp) :
  acquires (OpGetState :: ops) = acquires ops
  ∧ releases (OpGetState :: ops) = releases ops.
Proof. split; reflexivity. Qed.

Lemma counts_nil : acquires [] = 0 ∧ releases [] = 0.
Proof. split; reflexivity. Qed.

(** In an accepting gate whose counter is [n], a history without drain or
    reset in which no release is floored ends at [n + N - M]. *)
Lemma accepting_counter (ops : list GateOp) (a : Actor) :
  refuseRequests (inst a) = false →
  no_drain_no_reset ops →
  Forall (fun p => releases p ≤ activeRequests (inst a) + acquires p) (prefixes ops) →
  activeRequests (inst (run_ops ops a))
  = activeRequests (inst a) + acquires ops - releases ops.
Proof.
  revert a. induction ops as [|op ops IH]; intros a Hacc Honly Hpre.
  - destruct counts_nil as [-> ->]. simpl. lia.
  - rewrite run_ops_cons.
    inversion Honly as [|? ? [Hnd Hnr] Hrest]; subst.
    simpl in Hpre. apply Forall_cons in Hpre as [_ Hpre].
    rewrite Forall_map in Hpre.
    destruct op; try done.
    + destruct (acquire_accepting a Hacc) as [Hn Hr].
      destruct (counts_after_acquire ops) as [-> ->].
      rewrite IH; [lia | exact Hr | exact Hrest |].
      eapply Forall_impl; [exact Hpre|]. intros p Hp. simpl in Hp.
      destruct (counts_after_acquire p) as [Ha Hb]. lia.
    + destruct (release_effect a) as [Hn Hr].
      destruct (counts_after_release ops) as [-> ->].
      assert (1 ≤ activeRequests (inst a)) as Hone.
      { rewrite Forall_forall in Hpre. specialize (Hpre [] (nil_is_prefix ops)).
        simpl in Hpre. destruct (counts_after_release []) as [Ha Hb].
        destruct counts_nil as [Hc Hd]. lia. }
      rewrite IH; [lia | by rewrite Hr | exact Hrest |].
      eapply Forall_impl; [exact Hpre|]. intros p Hp. simpl in Hp.
      destruct (counts_after_release p) as [Ha Hb]. lia.
    + destruct (counts_after_getState ops) as [-> ->].
      apply IH; [exact Hacc | exact Hrest |].
      eapply Forall_impl; [exact Hpre|]. intros p Hp. simpl in Hp.
      destruct (counts_after_getState p) as [Ha Hb].
      change (activeRequests (inst (apply_op OpGetState a)))
        with (activeRequests (inst a)). lia.
Qed.

(** Without the matching condition the counter can only end higher. *)
Lemma accepting_counter_lower_bound (ops : list GateOp) (a : Actor) :
  refuseRequests (inst a) = false →
  no_drain_no_reset ops →
  activeRequests (inst a) + acquires ops - releases ops
  ≤ activeRequests (inst (run_ops ops a)).
Proof.
  revert a. induction ops as [|op ops IH]; intros a Hacc Honly.
  - destruct counts_nil as [-> ->]. simpl. lia.
  - rewrite run_ops_cons.
    inversion Honly as [|? ? [Hnd Hnr] Hrest]; subst.
    destruct op; try done.
    + destruct (acquire_accepting a Hacc) as [Hn Hr].
      specialize (IH _ Hr Hrest).
      destruct (counts_after_acquire ops) as [-> ->]. lia.
    + destruct (release_effect a) as [Hn Hr].
      rewrite <- Hr in Hacc. specialize (IH _ Hacc Hrest).
      destruct (counts_after_release ops) as [-> ->]. lia.
    + destruct (counts_after_getState ops) as [-> ->].
      exact (IH _ Hacc Hrest).
Qed.

(** C2 (as amended). Starting from the initial gate, [activeRequests] is
    never negative after any history of gate calls; after a history with N
    [tryAcquire] and M [release] calls and neither [windDown] nor [reset]
    it is at least N - M, and it equals N - M when no prefix of the history
    has more releases than acquires. *)
Theorem gate_counter_is_acquires_minus_releases (ops : list GateOp) :
  0 ≤ activeRequests (inst (run_ops ops initial))
  ∧ (no_drain_no_reset ops →
     acquires ops - releases ops ≤ activeRequests (inst (run_ops ops initial)))
  ∧ (no_drain_no_reset ops → releases_matched ops →
     activeRequests (inst (run_ops ops initial)) = acquires ops - releases ops).
Proof.
  assert (activeRequests (inst initial) = 0) as Hzero by reflexivity.
  split; [|split].
  - apply run_ops_nonneg. lia.
  - intros Honly.
    pose proof (accepting_counter_lower_bound ops initial eq_refl Honly) as Hlb.
    lia.
  - intros Honly Hmatched.
    rewrite (accepting_counter ops initial eq_refl Honly).
    + lia.
    + eapply Forall_impl; [exact Hmatched|]. intros p Hp.
      cbv beta in Hp |- *. lia.
Qed.

Lemma run_ops_app (ops ops' : list GateOp) (a : Actor) :
  run_ops (ops ++ ops') a = run_ops ops' (run_ops ops a).
Proof. apply foldl_app. Qed.

Lemma after_acquires (n : nat) (a : Actor) :
  refuseRequests (inst a) = false →
  activeRequests (inst (run_ops (replicate n OpTryAcquire) a))
  = activeRequests (inst a) + Z.of_nat n.
Proof.
  revert a. induction n as [|n IH]; intros a Hacc; simpl replicate.
  - simpl. lia.
  - rewrite run_ops_cons. destruct (acquire_accepting a Hacc) as [Hn Hr].
    rewrite IH; [lia|exact Hr].
Qed.

Lemma after_releases (m : nat) (a : Actor) :
  Z.of_nat m ≤ activeRequests (inst a) →
  activeRequests (inst (run_ops (replicate m OpRelease) a))
  = activeRequests (inst a) - Z.of_nat m.
Proof.
  revert a. induction m as [|m IH]; intros a Hle; simpl replicate.
  - simpl. lia.
  - rewrite run_ops_cons. destruct (release_effect a) as [Hn Hr].
    rewrite IH; lia.
Qed.

(** N acquires followed by M releases, M at most N, leave N - M. *)
Lemma acquires_then_releases (n m : nat) :
  (m ≤ n)%nat →
  activeRequests (inst (run_ops (replicate n OpTryAcquire ++ replicate m OpRelease) initial))
  = Z.of_nat n - Z.of_nat m.
Proof.
  intros Hle. rewrite run_ops_app.
  pose proof (after_acquires n initial eq_refl) as Hn.
  change (activeRequests (inst initial)) with 0 in Hn.
  rewrite after_releases; lia.
Qed.

(** Four acquires and two releases, each release after an acquire, and a
    [getState] in between: the counter is 2. *)
Lemma gate_counter_witness :
  activeRequests (inst (run_ops
    [OpTryAcquire; OpTryAcquire; OpRelease; OpGetState; OpTryAcquire; OpTryAcquire;
     OpRelease] initial))
  = 4 - 2.
Proof.
  apply (proj2 (proj2 (gate_counter_is_acquires_minus_releases
    [OpTryAcquire; OpTryAcquire; OpRelease; OpGetState; OpTryAcquire; OpTryAcquire;
     OpRelease]))).
  - repeat (constructor; [by split|]). constructor.
  - unfold releases_matched. simpl. repeat (constructor; [by vm_compute|]). constructor.
Defined.

(** C2 as stated fails: a release that arrives first is floored at 0, so
    one release and one acquire (N = M = 1) leave the counter at 1, not 0. *)
Lemma gate_counter_release_first :
  no_drain_no_reset [OpRelease; OpTryAcquire]
  ∧ releases [OpRelease; OpTryAcquire] ≤ acquires [OpRelease; OpTryAcquire]
  ∧ activeRequests (inst (run_ops [OpRelease; OpTryAcquire] initial)) = 1
  ∧ activeRequests (inst (run_ops [OpRelease; OpTryAcquire] initial))
    ≠ acquires [OpRelease; OpTryAcquire] - releases [OpRelease; OpTryAcquire].
Proof.
  split; [repeat (constructor; [by split|]); constructor|].
  split; [by vm_compute|]. split; [reflexivity|by vm_compute].
Qed.

(** ** Draining *)

Lemma windDown_draining (a : Actor) : draining (windDown a).2.
Proof. split; [reflexivity|]. simpl. apply lookup_insert_eq. Qed.

Lemma draining_step (ev : ActorEvent) (a : Actor) :
  ev ≠ Invoke OpReset → draining a → draining (apply_event ev a).
Proof.
  intros Hev [Hflag Hsto]. destruct ev as [op|].
  - destruct op; simpl.
    + unfold tryAcquire. rewrite Hflag. by split.
    + by split.
    + apply windDown_draining.
    + by split.
    + congruence.
  - split; simpl; [by rewrite Hsto | exact Hsto].
Qed.

Lemma draining_run (evs : list ActorEvent) (a : Actor) :
  no_reset evs → draining a → draining (run_events evs a).
Proof.
  revert a. induction evs as [|ev evs IH]; intros a Hnr Hd; [exact Hd|].
  rewrite run_events_cons. inversion Hnr; subst.
  apply IH; [assumption|]. by apply draining_step.
Qed.

Lemma tryAcquire_refused (a : Actor) :
  refuseRequests (inst a) = true →
  tryAcquire a
  = ({| allowed := false; acq_activeRequests := activeRequests (inst a) |}, a).
Proof. intros Hflag. unfold tryAcquire. by rewrite Hflag. Qed.

(** C3. After [windDown()], whatever calls other than [reset()] follow, and
    even if the actor is re-created in between, the next [tryAcquire()] is
    refused, leaves the actor as it was and reports the current counter; a
    second [windDown()] succeeds and changes nothing; [reset()] re-opens the
    gate. *)
Theorem drain_refuses_until_reset (a : Actor) (evs : list ActorEvent) :
  no_reset evs →
  (let a' := run_events evs (windDown a).2 in
   tryAcquire a'
   = ({| allowed := false; acq_activeRequests := activeRequests (inst a') |}, a'))
  ∧ windDown (windDown a).2 = (activeRequests (inst a), (windDown a).2)
  ∧ refuseRequests (inst (windDown (windDown a).2).2) = true
  ∧ allowed (tryAcquire (reset (run_events evs (windDown a).2)).2).1 = true.
Proof.
  intros Hnr. split; [|split; [|split]].
  - intros a'. apply tryAcquire_refused.
    apply (draining_run evs _ Hnr (windDown_draining a)).
  - unfold windDown. simpl. by rewrite insert_insert_eq.
  - reflexivity.
  - reflexivity.
Qed.

(** Three requests in flight, then a drain, a release and a re-creation:
    the fourth [tryAcquire()] is refused. *)
Lemma drain_refuses_witness :
  tryAcquire (run_events [Invoke OpRelease; Recreate; Invoke OpGetState]
                (windDown Samples.busy_gate).2)
  = ({| allowed := false; acq_activeRequests := 0 |},
     run_events [Invoke OpRelease; Recreate; Invoke OpGetState]
       (windDown Samples.busy_gate).2).
Proof.
  apply (proj1 (drain_refuses_until_reset Samples.busy_gate
                  [Invoke OpRelease; Recreate; Invoke OpGetState]
                  ltac:(repeat (constructor; [discriminate|]); constructor))).
Defined.

(** The scenario "drain under load": three acquires, a drain that reports
    3, and a fourth acquire refused with the counter still at 3. *)
Example drain_under_load :
  (windDown Samples.busy_gate).1 = 3
  ∧ (getState Samples.draining_gate).1
    = {| view_activeRequests := 3; refusingRequests := true |}
  ∧ (tryAcquire Samples.draining_gate).1
    = {| allowed := false; acq_activeRequests := 3 |}.
Proof. repeat split. Qed.

(** ** Persistence *)

(** C4. Once [windDown()] has persisted the flag, and whatever calls other
    than [reset()] follow, a re-created actor answers [getState()] with
    [activeRequests = 0] and [refusingRequests = true]; and a re-created
    actor starts at 0 whatever the counter was. *)
Theorem restart_keeps_flag_drops_counter (a : Actor) (evs : list ActorEvent) :
  no_reset evs →
  (let b := restart (run_events evs (windDown a).2) in
   getState b = ({| view_activeRequests := 0; refusingRequests := true |}, b))
  ∧ activeRequests (inst (restart a)) = 0.
Proof.
  intros Hnr. split; [|reflexivity].
  intros b.
  destruct (draining_run evs _ Hnr (windDown_draining a)) as [_ Hsto].
  unfold getState, b, restart, constructor.
  cbn [inst storage activeRequests refuseRequests]. by rewrite Hsto.
Qed.

(** Three requests in flight when the drain is ordered and the actor is
    re-created: the counter reads 0, the flag is still set. *)
Lemma restart_witness :
  activeRequests (inst (windDown Samples.busy_gate).2) = 3
  ∧ (getState (restart (run_events [Invoke OpTryAcquire] (windDown Samples.busy_gate).2))).1
    = {| view_activeRequests := 0; refusingRequests := true |}.
Proof.
  split; [reflexivity|].
  exact (f_equal fst (proj1 (restart_keeps_flag_drops_counter Samples.busy_gate
           [Invoke OpTryAcquire]
           ltac:(repeat (constructor; [discriminate|]); constructor)))).
Defined.

End GateFacts.

(** * Properties of the request pipeline *)

Module PipelineFacts.
Import XTRNResponse.

(** ** Sequencing *)

Lemma bind_of_next {A B : Type} (m : Js A) (k : A → Js B) (a : A) :
  m.2 = Next a → m ≫= k = (m.1 ++ (k a).1, (k a).2).
Proof.
  destruct m as [evs f]. simpl. intros ->.
  unfold mbind, Js_bind, js_bind. by destruct (k a).
Qed.

Lemma bind_of_return {A B : Type} (m : Js A) (k : A → Js B) (r : Response) :
  m.2 = Return r → m ≫= k = (m.1, Return r).
Proof. destruct m as [evs f]. simpl. by intros ->. Qed.

Lemma handler_calls_app (evs evs' : list Event) :
  handler_calls (evs ++ evs') = handler_calls evs ++ handler_calls evs'.
Proof. apply omap_app. Qed.

Lemma body_untouched_app (evs evs' : list Event) :
  body_untouched evs → body_untouched evs' → body_untouched (evs ++ evs').
Proof. unfold body_untouched. rewrite forallb_app. by intros -> ->. Qed.

Section Route.
Context `{Platform}.
Variables (srv : XTRNServer) (toolName : string) (schema : ZodType)
          (handler : Handler) (honoCtx : HonoContext).

(** ** What each group of steps can do *)

(** The configuration steps pass a value on or answer 400; they read
    neither the credential nor the body. *)
Lemma configSteps_outcome :
  ((∃ cfg, (configSteps srv honoCtx).2 = Next cfg)
   ∨ (∃ reason, (configSteps srv honoCtx).2 = Return (bad_request reason)))
  ∧ body_untouched (configSteps srv honoCtx).1
  ∧ handler_not_called (configSteps srv honoCtx).1.
Proof.
  unfold configSteps, decodeConfigHeader, validateUserConfig.
  cbv [emit js_return mbind mret Js_bind Js_ret js_bind js_ret].
  repeat (case_match; simplify_eq/=); (split; [eauto|by split]).
Qed.

(** When the configuration steps pass: no (or an empty) header on a server
    without user configuration, or a header that decodes to a value the
    schema accepts. *)
Lemma configSteps_absent_unconfigured :
  truthy (header_config honoCtx) = None →
  userConfigSchema srv = None →
  configSteps srv honoCtx = ([], Next (JObj [])).
Proof.
  intros Hh Hs. unfold configSteps, decodeConfigHeader, validateUserConfig.
  rewrite Hh. cbv [mbind mret Js_bind Js_ret js_bind js_ret]. by rewrite Hs.
Qed.

Lemma configSteps_valid (h text : string) (v data : JSValue) (configSchema : ZodType) :
  truthy (header_config honoCtx) = Some h →
  atob h = Some text →
  JSON_parse text = Some v →
  userConfigSchema srv = Some configSchema →
  safeParse configSchema v = ParseSuccess data →
  configSteps srv honoCtx = ([EvConfigDecode h; EvConfigValidate v], Next data).
Proof.
  intros Hh Ha Hp Hs Hv. unfold configSteps, decodeConfigHeader, validateUserConfig.
  rewrite Hh, Ha. cbn. rewrite Hp.
  cbv [emit mbind mret Js_bind Js_ret js_bind js_ret]. rewrite Hs. cbn.
  by rewrite Hv.
Qed.

(** So do the credential steps. *)
Lemma credentialSteps_outcome :
  ((∃ tok, (credentialSteps srv honoCtx).2 = Next tok)
   ∨ (∃ reason, (credentialSteps srv honoCtx).2 = Return (bad_request reason)))
  ∧ body_untouched (credentialSteps srv honoCtx).1
  ∧ handler_not_called (credentialSteps srv honoCtx).1.
Proof.
  unfold credentialSteps, decodeTokenHeader, requireToken.
  cbv [emit js_return mbind mret Js_bind Js_ret js_bind js_ret].
  repeat (case_match; simplify_eq/=); (split; [eauto|by split]).
Qed.

(** A declared credential descriptor lets the credential steps pass only
    with a decoded, non-empty credential. *)
Lemma credentialSteps_pass (oc : OAuthConfig) (tok : option string) :
  oauthConfig (srv_config srv) = Some oc →
  (credentialSteps srv honoCtx).2 = Next tok →
  ∃ h t, truthy (header_token honoCtx) = Some h ∧ atob h = Some t
         ∧ tok = Some t ∧ truthy (Some t) = Some t.
Proof.
  intros Hoc. unfold credentialSteps, decodeTokenHeader, requireToken.
  rewrite Hoc.
  cbv [emit js_return mbind mret Js_bind Js_ret js_bind js_ret].
  repeat (case_match; simplify_eq/=); intros; simplify_eq.
  by eexists _, _.
Qed.

Lemma parseBody_outcome :
  (parseBody honoCtx).1 = [EvBodyParse (req_body honoCtx)]
  ∧ (parseBody honoCtx).2
    = match JSON_parse (req_body honoCtx) with
      | Some b => Next b
      | None => Return (bad_request body_invalid)
      end.
Proof.
  unfold parseBody. cbv [emit js_return mbind mret Js_bind Js_ret js_bind js_ret].
  by destruct (JSON_parse (req_body honoCtx)).
Qed.

Lemma validateParams_outcome (body : JSValue) :
  (validateParams schema body).1 = [EvBodyValidate body]
  ∧ (validateParams schema body).2
    = match safeParse schema body with
      | ParseSuccess data => Next data
      | ParseFailure error =>
          Return (bad_request ("Tool params validation failed: " +:+ JSON_stringify error))
      end.
Proof.
  unfold validateParams. cbv [emit js_return mbind mret Js_bind Js_ret js_bind js_ret].
  by destruct (safeParse schema body).
Qed.

(** The last three statements: the handler is called once, and the block
    ends as the handler does. *)
Lemma invoke_outcome (xtrnCtx : XTRNContext) :
  (_ ← emit (EvHandler xtrnCtx); response ← await (handler xtrnCtx); js_return response)
  = (([EvHandler xtrnCtx],
      match handler xtrnCtx with
      | Ok r => Return r
      | Throws e => Raise e
      end) : Js Response).
Proof.
  cbv [emit await js_return mbind mret Js_bind Js_ret js_bind js_ret].
  by destruct (handler xtrnCtx).
Qed.

(** The run of the [try] block once the four validation groups passed. *)
Lemma route_body_passes (cfg : JSValue) (tok : option string) (body params : JSValue) :
  (configSteps srv honoCtx).2 = Next cfg →
  (credentialSteps srv honoCtx).2 = Next tok →
  JSON_parse (req_body honoCtx) = Some body →
  safeParse schema body = ParseSuccess params →
  toolRouteBody srv schema handler honoCtx
  = (((configSteps srv honoCtx).1 ++ (credentialSteps srv honoCtx).1 ++
      [EvBodyParse (req_body honoCtx); EvBodyValidate body;
       EvHandler (buildContext srv honoCtx cfg tok params)],
      match handler (buildContext srv honoCtx cfg tok params) with
      | Ok r => Return r
      | Throws e => Raise e
      end) : Js Response).
Proof.
  intros Hcfg Hcred Hbody Hparams. unfold toolRouteBody.
  destruct parseBody_outcome as [Hpe Hpf]. rewrite Hbody in Hpf.
  destruct (validateParams_outcome body) as [Hve Hvf]. rewrite Hparams in Hvf.
  rewrite (bind_of_next _ _ _ Hcfg). cbn [fst snd].
  rewrite (bind_of_next _ _ _ Hcred). cbn [fst snd].
  rewrite (bind_of_next _ _ _ Hpf), Hpe. cbn [fst snd].
  rewrite (bind_of_next _ _ _ Hvf), Hve. cbn [fst snd].
  by rewrite invoke_outcome.
Qed.

(** The shape of every run of the [try] block: it answers 400 without
    calling the handler, or it calls the handler once, last, and ends as
    the handler does. It raises only what the handler throws. *)
Lemma route_body_shape :
  (∃ reason, (toolRouteBody srv schema handler honoCtx).2 = Return (bad_request reason)
             ∧ handler_not_called (toolRouteBody srv schema handler honoCtx).1)
  ∨ (∃ ctx, handler_calls (toolRouteBody srv schema handler honoCtx).1 = [ctx]
            ∧ last (toolRouteBody srv schema handler honoCtx).1 = Some (EvHandler ctx)
            ∧ (toolRouteBody srv schema handler honoCtx).2
              = match handler ctx with
                | Ok r => Return r
                | Throws e => Raise e
                end).
Proof.
  destruct configSteps_outcome as ([[cfg Hcfg]|[reason Hcfg]] & _ & Hnc).
  2:{ left. exists reason. unfold toolRouteBody.
      rewrite (bind_of_return _ _ _ Hcfg). by split. }
  destruct credentialSteps_outcome as ([[tok Hcred]|[reason Hcred]] & _ & Hnt).
  2:{ left. exists reason. unfold toolRouteBody.
      rewrite (bind_of_next _ _ _ Hcfg). cbn [fst snd].
      rewrite (bind_of_return _ _ _ Hcred). split; [done|].
      unfold handler_not_called in *. cbn [fst snd].
      by rewrite handler_calls_app, Hnc, Hnt. }
  destruct parseBody_outcome as [Hpe Hpf].
  destruct (JSON_parse (req_body honoCtx)) as [body|] eqn:Hbody.
  2:{ left. exists body_invalid. unfold toolRouteBody.
      rewrite (bind_of_next _ _ _ Hcfg). cbn [fst snd].
      rewrite (bind_of_next _ _ _ Hcred). cbn [fst snd].
      rewrite (bind_of_return _ _ _ Hpf), Hpe. split; [done|].
      unfold handler_not_called in *. cbn [fst snd].
      by rewrite !handler_calls_app, Hnc, Hnt. }
  destruct (validateParams_outcome body) as [Hve Hvf].
  destruct (safeParse schema body) as [params|error] eqn:Hparams.
  2:{ left. eexists. unfold toolRouteBody.
      rewrite (bind_of_next _ _ _ Hcfg). cbn [fst snd].
      rewrite (bind_of_next _ _ _ Hcred). cbn [fst snd].
      rewrite (bind_of_next _ _ _ Hpf), Hpe. cbn [fst snd].
      rewrite (bind_of_return _ _ _ Hvf), Hve. split; [done|].
      unfold handler_not_called in *. cbn [fst snd].
      by rewrite !handler_calls_app, Hnc, Hnt. }
  right. exists (buildContext srv honoCtx cfg tok params).
  rewrite (route_body_passes cfg tok body params Hcfg Hcred Hbody Hparams).
  cbn [fst snd]. unfold handler_not_called in *. split; [|split; [|done]].
  - by rewrite !handler_calls_app, Hnc, Hnt.
  - by rewrite !last_app.
Qed.

(** ** The failure boundary *)

Lemma boundary_of_return (m : Js Response) (r : Response) :
  m.2 = Return r →
  function (try_catch m (fun error => js_return (XTRNResponse.error (error_text error))))
  = (m.1, Ok r).
Proof. destruct m as [evs f]. simpl. by intros ->. Qed.

Lemma boundary_of_raise (m : Js Response) (e : Thrown) :
  m.2 = Raise e →
  function (try_catch m (fun error => js_return (XTRNResponse.error (error_text error))))
  = (m.1, Ok (XTRNResponse.error (error_text e))).
Proof. destruct m as [evs f]. simpl. intros ->. simpl. by rewrite app_nil_r. Qed.

(** The route never adds a step of its own to the ones of the block. *)
Lemma route_trace :
  (setupToolRoute srv toolName schema handler honoCtx).1
  = (toolRouteBody srv schema handler honoCtx).1.
Proof.
  unfold setupToolRoute.
  destruct route_body_shape as [(reason & Hf & _)|(ctx & _ & _ & Hf)].
  - by rewrite (boundary_of_return _ _ Hf).
  - destruct (handler ctx).
    + by rewrite (boundary_of_return _ _ Hf).
    + by rewrite (boundary_of_raise _ _ Hf).
Qed.

(** The route handler returns a response on every run. *)
Lemma route_always_answers :
  ∃ r, (setupToolRoute srv toolName schema handler honoCtx).2 = Ok r.
Proof.
  unfold setupToolRoute.
  destruct route_body_shape as [(reason & Hf & _)|(ctx & _ & _ & Hf)].
  - rewrite (boundary_of_return _ _ Hf). eauto.
  - destruct (handler ctx).
    + rewrite (boundary_of_return _ _ Hf). eauto.
    + rewrite (boundary_of_raise _ _ Hf). eauto.
Qed.

(** C6. The route handler always answers and never throws; whatever the
    [try] block raises is answered 500 with the error's text as the body;
    in particular an [Error] thrown by the handler is answered 500 with
    its message. *)
Theorem route_answers_500_on_throw :
  (∃ r, (setupToolRoute srv toolName schema handler honoCtx).2 = Ok r)
  ∧ (∀ e, (toolRouteBody srv schema handler honoCtx).2 = Raise e →
       (setupToolRoute srv toolName schema handler honoCtx).2
       = Ok (XTRNResponse.error (error_text e)))
  ∧ (∀ ctx message,
       handler_calls (setupToolRoute srv toolName schema handler honoCtx).1 = [ctx] →
       handler ctx = Throws (ErrorObj message) →
       (setupToolRoute srv toolName schema handler honoCtx).2
       = Ok {| status := 500; body := TextBody message |}).
Proof.
  split; [apply route_always_answers|split].
  - intros e He. unfold setupToolRoute. by rewrite (boundary_of_raise _ _ He).
  - intros ctx message Hcalls Hthrow. rewrite route_trace in Hcalls.
    destruct route_body_shape as [(reason & _ & Hnone)|(ctx' & Hone & _ & Hf)].
    + unfold handler_not_called in Hnone. congruence.
    + assert (ctx' = ctx) as -> by congruence.
      rewrite Hthrow in Hf. unfold setupToolRoute.
      by rewrite (boundary_of_raise _ _ Hf).
Qed.

(** ** Validation order *)

Lemma route_steps_in_order :
  StronglySorted lt (map stage (setupToolRoute srv toolName schema handler honoCtx).1).
Proof.
  step_route.
  all: repeat (constructor; [| repeat (constructor; try lia)]); try constructor.
Qed.

Lemma configSteps_malformed (h : string) :
  truthy (header_config honoCtx) = Some h →
  atob h ≫= JSON_parse = None →
  configSteps srv honoCtx = ([EvConfigDecode h], Return (bad_request config_header_invalid)).
Proof.
  intros Hh Hdec. unfold configSteps, decodeConfigHeader. rewrite Hh.
  cbv [emit js_return mbind mret Js_bind Js_ret js_bind js_ret] in *.
  by rewrite Hdec.
Qed.

(** C5 (as amended). The steps of a run come in the order config-header
    decode, config validation, credential-header decode, body decode, body
    validation, handler, each at most once. A non-empty config header that
    does not decode to JSON is answered 400 after that one step, the body
    unread. When the configuration steps and the credential steps pass, a
    body that is not JSON is answered 400 "Invalid JSON body". *)
Theorem validation_steps_in_order :
  StronglySorted lt (map stage (setupToolRoute srv toolName schema handler honoCtx).1)
  ∧ (∀ h, truthy (header_config honoCtx) = Some h →
          atob h ≫= JSON_parse = None →
          setupToolRoute srv toolName schema handler honoCtx
          = ([EvConfigDecode h], Ok (bad_request config_header_invalid))
          ∧ body_untouched (setupToolRoute srv toolName schema handler honoCtx).1)
  ∧ (∀ cfg tok,
       (configSteps srv honoCtx).2 = Next cfg →
       (credentialSteps srv honoCtx).2 = Next tok →
       JSON_parse (req_body honoCtx) = None →
       (setupToolRoute srv toolName schema handler honoCtx).2
       = Ok (bad_request body_invalid)
       ∧ last (setupToolRoute srv toolName schema handler honoCtx).1
         = Some (EvBodyParse (req_body honoCtx))).
Proof.
  split; [apply route_steps_in_order|split].
  - intros h Hh Hdec.
    assert (setupToolRoute srv toolName schema handler honoCtx
            = ([EvConfigDecode h], Ok (bad_request config_header_invalid))) as ->; [|done].
    unfold setupToolRoute, toolRouteBody.
    rewrite (configSteps_malformed h Hh Hdec).
    by rewrite (bind_of_return _ _ (bad_request config_header_invalid)).
  - intros cfg tok Hcfg Hcred Hbody.
    destruct parseBody_outcome as [Hpe Hpf]. rewrite Hbody in Hpf.
    unfold setupToolRoute, toolRouteBody.
    rewrite (bind_of_next _ _ _ Hcfg). cbn [fst snd].
    rewrite (bind_of_next _ _ _ Hcred). cbn [fst snd].
    rewrite (bind_of_return _ _ _ Hpf), Hpe.
    rewrite (boundary_of_return _ (bad_request body_invalid)); [|done].
    cbn [fst snd]. split; [done|]. by rewrite !last_app.
Qed.

(** ** The credential header *)

(** Whatever the call, a run that stops in the configuration or the
    credential steps is answered 400 and the handler is not called. *)
Lemma stopped_before_body (reason : string) :
  (∀ cfg, (configSteps srv honoCtx).2 = Next cfg →
          (credentialSteps srv honoCtx).2 = Return (bad_request reason)) →
  (∃ reason', (setupToolRoute srv toolName schema handler honoCtx).2
              = Ok (bad_request reason'))
  ∧ handler_not_called (setupToolRoute srv toolName schema handler honoCtx).1
  ∧ body_untouched (setupToolRoute srv toolName schema handler honoCtx).1
  ∧ (∀ cfg, (configSteps srv honoCtx).2 = Next cfg →
            (setupToolRoute srv toolName schema handler honoCtx).2
            = Ok (bad_request reason)).
Proof.
  intros Hstop.
  destruct configSteps_outcome as ([[cfg Hcfg]|[reason' Hcfg]] & Hbc & Hnc).
  - destruct credentialSteps_outcome as (_ & Hbt & Hnt).
    specialize (Hstop cfg Hcfg).
    assert (setupToolRoute srv toolName schema handler honoCtx
            = ((configSteps srv honoCtx).1 ++ (credentialSteps srv honoCtx).1,
               Ok (bad_request reason))) as ->.
    { unfold setupToolRoute, toolRouteBody.
      rewrite (bind_of_next _ _ _ Hcfg). cbn [fst snd].
      rewrite (bind_of_return _ _ _ Hstop).
      by rewrite (boundary_of_return _ (bad_request reason)). }
    cbn [fst snd]. split; [eauto|]. split; [|split; [|done]].
    + unfold handler_not_called in *. by rewrite handler_calls_app, Hnc, Hnt.
    + by apply body_untouched_app.
  - assert (setupToolRoute srv toolName schema handler honoCtx
            = ((configSteps srv honoCtx).1, Ok (bad_request reason'))) as ->.
    { unfold setupToolRoute, toolRouteBody.
      rewrite (bind_of_return _ _ _ Hcfg).
      by rewrite (boundary_of_return _ (bad_request reason')). }
    cbn [fst snd]. split; [eauto|]. split; [done|]. split; [done|].
    intros cfg Hcfg'. congruence.
Qed.

Lemma credentialSteps_missing (oc : OAuthConfig) :
  oauthConfig (srv_config srv) = Some oc →
  truthy (header_token honoCtx) = None →
  (credentialSteps srv honoCtx).2 = Return (bad_request token_header_required).
Proof.
  intros Hoc Hh. unfold credentialSteps, decodeTokenHeader, requireToken.
  by rewrite Hh, Hoc.
Qed.

Lemma credentialSteps_undecodable (h : string) :
  truthy (header_token honoCtx) = Some h →
  atob h = None →
  (credentialSteps srv honoCtx).2 = Return (bad_request token_header_invalid).
Proof.
  intros Hh Hdec. unfold credentialSteps, decodeTokenHeader. rewrite Hh.
  cbv [emit js_return mbind mret Js_bind Js_ret js_bind js_ret].
  by rewrite Hdec.
Qed.

Lemma credentialSteps_decoded (h t : string) :
  truthy (header_token honoCtx) = Some h →
  atob h = Some t →
  t ≠ "" →
  credentialSteps srv honoCtx = ([EvTokenDecode h], Next (Some t)).
Proof.
  intros Hh Hdec Hne. unfold credentialSteps, decodeTokenHeader, requireToken.
  rewrite Hh.
  cbv [emit js_return mbind mret Js_bind Js_ret js_bind js_ret].
  rewrite Hdec. destruct t; [done|]. simpl.
  by destruct (oauthConfig (srv_config srv)).
Qed.

(** C7 (as amended). On a server that declares [oauthConfig]:
    a call with no (or an empty) credential header is answered 400, the
    handler is not called and the body is not read, and when the
    configuration steps pass the reason is that the header is required;
    a call whose credential header does not decode is answered 400 in the
    same way, with the reason that it must be base64-encoded; and a call
    whose configuration steps pass, whose credential header decodes to a
    non-empty value and whose body is valid reaches the handler with that
    value as [token.refresh_token], and is answered as the handler answers. *)
Theorem credential_header_checked (oc : OAuthConfig) :
  oauthConfig (srv_config srv) = Some oc →
  (truthy (header_token honoCtx) = None →
     (∃ reason, (setupToolRoute srv toolName schema handler honoCtx).2
                = Ok (bad_request reason))
     ∧ handler_not_called (setupToolRoute srv toolName schema handler honoCtx).1
     ∧ body_untouched (setupToolRoute srv toolName schema handler honoCtx).1
     ∧ (∀ cfg, (configSteps srv honoCtx).2 = Next cfg →
               (setupToolRoute srv toolName schema handler honoCtx).2
               = Ok (bad_request token_header_required)))
  ∧ (∀ h, truthy (header_token honoCtx) = Some h → atob h = None →
     (∃ reason, (setupToolRoute srv toolName schema handler honoCtx).2
                = Ok (bad_request reason))
     ∧ handler_not_called (setupToolRoute srv toolName schema handler honoCtx).1
     ∧ body_untouched (setupToolRoute srv toolName schema handler honoCtx).1
     ∧ (∀ cfg, (configSteps srv honoCtx).2 = Next cfg →
               (setupToolRoute srv toolName schema handler honoCtx).2
               = Ok (bad_request token_header_invalid)))
  ∧ (∀ h t cfg body params,
       truthy (header_token honoCtx) = Some h → atob h = Some t → t ≠ "" →
       (configSteps srv honoCtx).2 = Next cfg →
       JSON_parse (req_body honoCtx) = Some body →
       safeParse schema body = ParseSuccess params →
       let ctx :=
         {| req := params;
            config := cfg;
            token := Some {| refresh_token := t |};
            oauth := Some {| client_id := bindings honoCtx !! "OAUTH_CLIENT_ID";
                             client_secret := bindings honoCtx !! "OAUTH_CLIENT_SECRET";
                             ctx_token_url := token_url oc;
                             callback_url := bindings honoCtx !! "OAUTH_CALLBACK_URL" |} |} in
       handler_calls (setupToolRoute srv toolName schema handler honoCtx).1 = [ctx]
       ∧ (setupToolRoute srv toolName schema handler honoCtx).2
         = match handler ctx with
           | Ok r => Ok r
           | Throws e => Ok (XTRNResponse.error (error_text e))
           end).
Proof.
  intros Hoc. split; [|split].
  - intros Hh. apply stopped_before_body.
    intros cfg _. by apply (credentialSteps_missing oc).
  - intros h Hh Hdec. apply stopped_before_body.
    intros cfg _. by apply (credentialSteps_undecodable h).
  - intros h t cfg body params Hh Hdec Hne Hcfg Hbody Hparams ctx.
    pose proof (credentialSteps_decoded h t Hh Hdec Hne) as Hcred.
    assert (buildContext srv honoCtx cfg (Some t) params = ctx) as Hctx.
    { unfold buildContext. rewrite Hoc. destruct t; [done|]. reflexivity. }
    assert ((credentialSteps srv honoCtx).2 = Next (Some t)) as Hcred2
      by (by rewrite Hcred).
    pose proof (route_body_passes cfg (Some t) body params Hcfg Hcred2 Hbody Hparams)
      as Hrun.
    rewrite Hctx in Hrun.
    destruct configSteps_outcome as (_ & _ & Hnc).
    unfold handler_not_called in Hnc.
    unfold setupToolRoute. destruct (handler ctx) as [r|e] eqn:Hh'.
    + rewrite (boundary_of_return _ r); [|by rewrite Hrun].
      rewrite Hrun, Hcred. cbn [fst snd]. split; [|done].
      by rewrite !handler_calls_app, Hnc.
    + rewrite (boundary_of_raise _ e); [|by rewrite Hrun].
      rewrite Hrun, Hcred. cbn [fst snd]. split; [|done].
      by rewrite !handler_calls_app, Hnc.
Qed.

End Route.

(** ** The pipeline on the test server *)

Import Samples.

(** A thrown [Error] of the [crash] tool is answered 500 with its message. *)
Lemma route_answers_500_witness :
  (@setupToolRoute runtime testserver "crash" (ZOther "any object")
     (fun _ => Throws (ErrorObj "upstream unavailable"))
     (post_tool "crash" (Some "eyJsb2NhbGUiOiJlbiJ9") (Some "cmVmcmVzaC10b2tlbg==")
        "{}" oauth_env)).2
  = Ok {| status := 500; body := TextBody "upstream unavailable" |}.
Proof.
  eapply (proj2 (proj2 (@route_answers_500_on_throw runtime testserver "crash"
            (ZOther "any object") (fun _ => Throws (ErrorObj "upstream unavailable"))
            (post_tool "crash" (Some "eyJsb2NhbGUiOiJlbiJ9")
               (Some "cmVmcmVzaC10b2tlbg==") "{}" oauth_env)))).
  - vm_compute. reflexivity.
  - reflexivity.
Defined.

(** Valid configuration and credential, a body that is not JSON. *)
Lemma validation_order_witness :
  (echo_call (Some "eyJsb2NhbGUiOiJlbiJ9") (Some "cmVmcmVzaC10b2tlbg==") "{").2
  = Ok (bad_request body_invalid).
Proof.
  refine (proj1 (proj2 (proj2 (@validation_steps_in_order runtime testserver "echo"
            echo_schema echo_handler
            (post_tool "echo" (Some "eyJsb2NhbGUiOiJlbiJ9")
               (Some "cmVmcmVzaC10b2tlbg==") "{" oauth_env)))
          (JObj [("locale", JStr "en")]) (Some "refresh-token") _ _ _)).
  all: by vm_compute.
Defined.

(** C5 as stated fails: with a well-formed, valid configuration header and
    a body that is not JSON, a call without credential header on a server
    that declares [oauthConfig] is answered 400 for the missing credential,
    not for the body. *)
Lemma malformed_body_not_reported :
  (@configSteps runtime testserver
     (post_tool "echo" (Some "eyJsb2NhbGUiOiJlbiJ9") None "{" oauth_env)).2
  = Next (JObj [("locale", JStr "en")])
  ∧ @JSON_parse runtime "{" = None
  ∧ (echo_call (Some "eyJsb2NhbGUiOiJlbiJ9") None "{").2
    = Ok (bad_request token_header_required)
  ∧ (echo_call (Some "eyJsb2NhbGUiOiJlbiJ9") None "{").2
    ≠ Ok (bad_request body_invalid).
Proof. repeat split; by vm_compute. Qed.

(** The decoded credential reaches the [echo] handler. *)
Lemma credential_header_witness :
  (echo_call (Some "eyJsb2NhbGUiOiJlbiJ9") (Some "cmVmcmVzaC10b2tlbg==") message_json).2
  = Ok (XTRNResponse.json
          (JObj [("echo", JStr "hi"); ("locale", JStr "en");
                 ("refresh_token", JStr "refresh-token")])).
Proof.
  refine (proj2 (proj2 (proj2 (@credential_header_checked runtime testserver "echo"
            echo_schema echo_handler
            (post_tool "echo" (Some "eyJsb2NhbGUiOiJlbiJ9")
               (Some "cmVmcmVzaC10b2tlbg==") message_json oauth_env)
            test_oauth eq_refl))
          "cmVmcmVzaC10b2tlbg==" "refresh-token" (JObj [("locale", JStr "en")])
          (JObj [("message", JStr "hi")]) (JObj [("message", JStr "hi")])
          _ _ _ _ _ _)).
  all: by vm_compute.
Defined.

(** C7 as stated fails: on the test server, which declares [oauthConfig]
    and a [locale] field, a call with no header at all is answered 400 for
    its configuration, not with the message that the credential header is
    required. *)
Lemma missing_credential_not_reported :
  oauthConfig (srv_config testserver) = Some test_oauth
  ∧ header_token (post_tool "echo" None None message_json oauth_env) = None
  ∧ (echo_call None None message_json).2
    = Ok (bad_request ("Config validation failed: " +:+ quoted "invalid_type"))
  ∧ (echo_call None None message_json).2 ≠ Ok (bad_request token_header_required).
Proof. repeat split; by vm_compute. Qed.

End PipelineFacts.

(** * Properties of the application *)

Module AppFacts.
Import Gate Samples.

(** ** Admission and release *)

Lemma middleware_admitted (next : Call Response) (w : World) :
  refuseRequests (inst (gate w)) = false →
  toolMiddleware next w
  = (match next.2 with
     | Ok r => Next r
     | Throws e => Raise e
     end,
     {| gate := (release (tryAcquire (gate w)).2).2;
        gate_calls := gate_calls w ++ [OpTryAcquire; OpRelease];
        trace := trace w ++ next.1 |}).
Proof.
  intros Hacc.
  unfold toolMiddleware, mbind, App_bind, app_bind, stub_call, try_finally, await_next.
  unfold tryAcquire. rewrite Hacc. cbn. by rewrite <- app_assoc.
Qed.

Lemma middleware_refused (next : Call Response) (w : World) :
  refuseRequests (inst (gate w)) = true →
  toolMiddleware next w
  = (Return (c_text "Server is winding down" 503),
     {| gate := gate w;
        gate_calls := gate_calls w ++ [OpTryAcquire];
        trace := trace w |}).
Proof.
  intros Href.
  unfold toolMiddleware, mbind, App_bind, app_bind, stub_call, app_return.
  unfold tryAcquire. by rewrite Href.
Qed.

Lemma releases_app (ops ops' : list GateOp) :
  releases (ops ++ ops') = releases ops + releases ops'.
Proof.
  unfold releases. induction ops as [|o ops IH]; simpl; [done|]. rewrite IH. lia.
Qed.

Lemma release_once_count (next : Call Response) (w : World) :
  release_calls (toolMiddleware next w).2
  = release_calls w + (if allowed (tryAcquire (gate w)).1 then 1 else 0).
Proof.
  destruct (refuseRequests (inst (gate w))) eqn:Hflag.
  - rewrite (middleware_refused next w Hflag).
    unfold tryAcquire. rewrite Hflag. cbn [fst snd allowed].
    unfold release_calls. cbn [gate_calls]. rewrite releases_app.
    change (releases [OpTryAcquire]) with 0. lia.
  - rewrite (middleware_admitted next w Hflag).
    unfold tryAcquire. rewrite Hflag. cbn [fst snd allowed].
    unfold release_calls. cbn [gate_calls]. by rewrite releases_app.
Qed.

(** C1. Whatever the rest of the chain does (it answers, with any status,
    or it throws): when [tryAcquire()] returned [allowed = true] the stub
    delivers exactly one [release()], after the chain has run; when it
    returned [allowed = false] the request is answered 503, the chain does
    not run and no [release()] is delivered. *)
Theorem release_once_per_admission (next : Call Response) (w : World) :
  if allowed (tryAcquire (gate w)).1 then
    gate_calls (toolMiddleware next w).2 = gate_calls w ++ [OpTryAcquire; OpRelease]
    ∧ release_calls (toolMiddleware next w).2 = release_calls w + 1
    ∧ trace (toolMiddleware next w).2 = trace w ++ next.1
    ∧ (toolMiddleware next w).1 = match next.2 with
                                  | Ok r => Next r
                                  | Throws e => Raise e
                                  end
  else
    gate_calls (toolMiddleware next w).2 = gate_calls w ++ [OpTryAcquire]
    ∧ release_calls (toolMiddleware next w).2 = release_calls w
    ∧ trace (toolMiddleware next w).2 = trace w
    ∧ (toolMiddleware next w).1 = Return (c_text "Server is winding down" 503).
Proof.
  destruct (refuseRequests (inst (gate w))) eqn:Hflag.
  - rewrite (middleware_refused next w Hflag).
    unfold tryAcquire. rewrite Hflag. cbn [fst snd allowed gate_calls trace].
    unfold release_calls. cbn [gate_calls]. rewrite releases_app.
    repeat split; try done. change (releases [OpTryAcquire]) with 0. lia.
  - rewrite (middleware_admitted next w Hflag).
    unfold tryAcquire. rewrite Hflag. cbn [fst snd allowed gate_calls trace].
    unfold release_calls. cbn [gate_calls]. rewrite releases_app.
    repeat split; try done.
Qed.

(** The three exits of an admitted request on the test server: a
    validation failure (400), a handler success (200) and a thrown error
    (500). Each time the gate received one [tryAcquire] and one [release],
    and the counter is back to 0. *)
Example release_on_every_exit :
  let seen (c : HonoContext) :=
    let out := @fetch runtime testserver c (world_of initial) in
    (status <$> match out.1 with Ok r => Some r | Throws _ => None end,
     gate_calls out.2, activeRequests (inst (gate out.2))) in
  seen (post_tool "echo" None None message_json oauth_env)
  = (Some 400, [OpTryAcquire; OpRelease], 0)
  ∧ seen (post_tool "echo" (Some "eyJsb2NhbGUiOiJlbiJ9") (Some "cmVmcmVzaC10b2tlbg==")
            message_json oauth_env)
    = (Some 200, [OpTryAcquire; OpRelease], 0)
  ∧ seen (post_tool "crash" (Some "eyJsb2NhbGUiOiJlbiJ9") (Some "cmVmcmVzaC10b2tlbg==")
            "{}" oauth_env)
    = (Some 500, [OpTryAcquire; OpRelease], 0).
Proof. repeat split; by vm_compute. Qed.

(** A tool request through the whole application: one [release()] for an
    admitted request, whatever the route answers. *)
Lemma tool_request_release_count `{Platform} (srv : XTRNServer) (c : HonoContext)
    (w : World) (path : string) :
  req_path c = PTool path →
  release_calls (fetch srv c w).2
  = release_calls w + (if allowed (tryAcquire (gate w)).1 then 1 else 0).
Proof.
  intros Hpath. unfold fetch, dispatch. rewrite Hpath.
  assert (∀ next, release_calls
            (match toolMiddleware next w with
             | (Next r, w') => (Ok r, w')
             | (Return r, w') => (Ok r, w')
             | (Raise (ErrorObj _), w') => (Ok (c_text "Internal Server Error" 500), w')
             | (Raise (NonError v), w') => (Throws (NonError v), w')
             end).2
          = release_calls w + (if allowed (tryAcquire (gate w)).1 then 1 else 0)) as Hany.
  { intros next. pose proof (release_once_count next w) as Hcount.
    destruct (toolMiddleware next w) as [[r|r|[m|v]] w']; simpl in *; exact Hcount. }
  destruct (req_method c); apply Hany.
Qed.

(** No request to a tool path makes [fetch] throw. *)
Lemma fetch_tool_answers `{Platform} (srv : XTRNServer) (c : HonoContext)
    (w : World) (path : string) :
  req_path c = PTool path → ∃ r, (fetch srv c w).1 = Ok r.
Proof.
  intros Hpath. unfold fetch, dispatch. rewrite Hpath.
  assert (∀ next : Call Response, (∃ r, next.2 = Ok r) →
            ∃ r, (match toolMiddleware next w with
                  | (Next r, w') => (Ok r, w')
                  | (Return r, w') => (Ok r, w')
                  | (Raise (ErrorObj _), w') =>
                      (Ok (c_text "Internal Server Error" 500), w')
                  | (Raise (NonError v), w') => (Throws (NonError v), w')
                  end).1 = Ok r) as Hany.
  { intros next [r Hr].
    destruct (refuseRequests (inst (gate w))) eqn:Hflag.
    - rewrite (middleware_refused next w Hflag). eauto.
    - rewrite (middleware_admitted next w Hflag), Hr. eauto. }
  destruct (req_method c); apply Hany; try (by eexists).
  unfold toolRoute. case_match; [|by eexists].
  apply PipelineFacts.route_always_answers.
Qed.

(** ** The metadata endpoint *)

Section Details.
Context `{Platform}.
Variables (srv : XTRNServer) (c : HonoContext) (w : World).

Lemma renderTools_renderable (tools : list Tool) :
  Forall (fun t => ∃ schema, toJSONSchema (tool_schema t) = Ok schema) tools →
  ∃ details, renderTools tools = Ok details.
Proof.
  induction 1 as [|t tools [schema Hs] _ [details IH]]; [by eexists|].
  cbn [renderTools]. rewrite Hs, IH. by eexists.
Qed.

Lemma fetch_details :
  req_path c = PDetails → req_method c = GET →
  fetch srv c w
  = (match buildDetails srv (Some c) with
     | Ok details => Ok (c_json (DetailsBody details))
     | Throws (ErrorObj _) => Ok (c_text "Internal Server Error" 500)
     | Throws (NonError v) => Throws (NonError v)
     end, w).
Proof.
  intros Hp Hm. unfold fetch, dispatch, detailsRoute. rewrite Hp, Hm.
  by destruct (buildDetails srv (Some c)) as [d|[m|v]].
Qed.

Lemma fetch_tool_refused (path : string) :
  refuseRequests (inst (gate w)) = true →
  req_path c = PTool path →
  fetch srv c w
  = (Ok (c_text "Server is winding down" 503),
     {| gate := gate w; gate_calls := gate_calls w ++ [OpTryAcquire]; trace := trace w |}).
Proof.
  intros Href Hp. unfold fetch, dispatch. rewrite Hp.
  destruct (req_method c); by rewrite (middleware_refused _ w Href).
Qed.

Lemma buildDetails_renderable :
  renderable srv →
  ∃ tools,
    renderTools (srv_tools srv) = Ok tools
    ∧ ∀ honoCtx, ∃ details,
        buildDetails srv honoCtx = Ok details ∧ sd_tools details = tools.
Proof.
  intros [tools Htools]%renderTools_renderable. exists tools. split; [done|].
  intros honoCtx. unfold buildDetails. rewrite Htools. by eexists.
Qed.

(** C8 (as amended). [GET /details] does not consult the gate. While the
    gate is draining it makes no call to the gate and is answered as it
    would be in any other state of the gate: 200 with the server's
    self-description when every tool schema can be rendered, 500 when
    [z.toJSONSchema] throws an [Error] for one of them; and a [POST] to
    any tool path is answered 503. *)
Theorem details_not_gated :
  refuseRequests (inst (gate w)) = true →
  (req_path c = PDetails → req_method c = GET →
   (fetch srv c w).2 = w
   ∧ (∀ w', (fetch srv c w').1 = (fetch srv c w).1)
   ∧ (renderable srv →
      ∃ details, buildDetails srv (Some c) = Ok details
                 ∧ (fetch srv c w).1 = Ok (c_json (DetailsBody details)))
   ∧ (∀ message, buildDetails srv (Some c) = Throws (ErrorObj message) →
      (fetch srv c w).1 = Ok (c_text "Internal Server Error" 500)))
  ∧ (∀ path, req_path c = PTool path → req_method c = POST →
     (fetch srv c w).1 = Ok (c_text "Server is winding down" 503)
     ∧ gate (fetch srv c w).2 = gate w
     ∧ gate_calls (fetch srv c w).2 = gate_calls w ++ [OpTryAcquire]).
Proof.
  intros Href. split.
  - intros Hp Hm. rewrite (fetch_details Hp Hm). cbn [fst snd].
    split; [done|]. split; [|split].
    + intros w'. unfold fetch, dispatch, detailsRoute. rewrite Hp, Hm.
      by destruct (buildDetails srv (Some c)) as [d|[m|v]].
    + intros (tools & _ & Hbuild)%buildDetails_renderable.
      destruct (Hbuild (Some c)) as (details & Hd & _).
      exists details. by rewrite Hd.
    + by intros message ->.
  - intros path Hp _. by rewrite (fetch_tool_refused path Href Hp).
Qed.

(** C10 (as amended). On a server that declares [oauthConfig] the
    environment never makes [GET /details] fail: a failure is that of a
    tool schema, the same whatever the environment binds. And when every
    tool schema can be rendered the answer is 200, the [oauth] object is
    there with all seven fields, and each of [client_id], [client_secret]
    and [callback_url] whose binding is absent is the empty string. *)
Theorem details_missing_secrets_empty (oc : OAuthConfig) :
  oauthConfig (srv_config srv) = Some oc →
  req_path c = PDetails → req_method c = GET →
  (∀ e env, buildDetails srv (Some c) = Throws e →
            buildDetails srv (Some (with_bindings c env)) = Throws e)
  ∧ (renderable srv →
     ∃ d fo,
       fetch srv c w = (Ok {| status := 200; body := DetailsBody d |}, w)
       ∧ sd_oauth d = Some fo
       ∧ fo_provider fo = provider oc
       ∧ fo_authorization_url fo = authorization_url oc
       ∧ fo_token_url fo = token_url oc
       ∧ fo_scopes fo = scopes oc
       ∧ fo_client_id fo = default "" (bindings c !! "OAUTH_CLIENT_ID")
       ∧ fo_client_secret fo = default "" (bindings c !! "OAUTH_CLIENT_SECRET")
       ∧ fo_callback_url fo = default "" (bindings c !! "OAUTH_CALLBACK_URL")
       ∧ (bindings c !! "OAUTH_CLIENT_ID" = None → fo_client_id fo = "")
       ∧ (bindings c !! "OAUTH_CLIENT_SECRET" = None → fo_client_secret fo = "")
       ∧ (bindings c !! "OAUTH_CALLBACK_URL" = None → fo_callback_url fo = "")).
Proof.
  intros Hoc Hp Hm. split.
  - intros e env. unfold buildDetails.
    by destruct (renderTools (srv_tools srv)).
  - intros [tools Htools]%renderTools_renderable.
    rewrite (fetch_details Hp Hm). unfold buildDetails. rewrite Hoc, Htools.
    eexists _, _. split; [reflexivity|]. cbn [sd_oauth].
    split; [reflexivity|]. cbn.
    repeat split; try done; by intros ->.
Qed.

End Details.

(** C8 as stated fails: the reminder tool's schema has no JSON Schema, so
    on its server [GET /details] is answered 500, not with the
    self-description, while the gate drains as while it accepts. *)
Lemma details_unanswerable_while_draining :
  (@fetch runtime MoreSamples.reminderserver (get_details ∅) (world_of draining_gate)).1
  = Ok (c_text "Internal Server Error" 500)
  ∧ (@fetch runtime MoreSamples.reminderserver (get_details ∅) (world_of initial)).1
    = Ok (c_text "Internal Server Error" 500).
Proof. split; by vm_compute. Qed.

(** C10 as stated fails: on the credential server with the reminder tool,
    in an environment that binds none of the three secrets,
    [GET /details] does not succeed; it is answered 500. *)
Lemma details_missing_secrets_unanswerable :
  oauthConfig (srv_config MoreSamples.oauth_reminderserver) = Some test_oauth
  ∧ (@fetch runtime MoreSamples.oauth_reminderserver (get_details ∅)
       (world_of initial)).1
    = Ok (c_text "Internal Server Error" 500).
Proof. split; by vm_compute. Qed.

Lemma testserver_renderable : @renderable runtime testserver.
Proof. repeat (constructor; [by eexists|]). constructor. Qed.

(** The test server while it drains, three requests still in flight. *)
Lemma details_not_gated_witness :
  (∃ details,
     @buildDetails runtime testserver (Some (get_details ∅)) = Ok details
     ∧ (@fetch runtime testserver (get_details ∅) (world_of draining_gate)).1
       = Ok (c_json (DetailsBody details)))
  ∧ (@fetch runtime testserver (post_tool "echo" None None message_json ∅)
       (world_of draining_gate)).1
    = Ok (c_text "Server is winding down" 503).
Proof.
  pose proof (@details_not_gated runtime testserver (get_details ∅)
                (world_of draining_gate) eq_refl) as [Hdetails _].
  pose proof (@details_not_gated runtime testserver
                (post_tool "echo" None None message_json ∅)
                (world_of draining_gate) eq_refl) as [_ Htool].
  split.
  - exact (proj1 (proj2 (proj2 (Hdetails eq_refl eq_refl))) testserver_renderable).
  - exact (proj1 (Htool "/tools/echo" eq_refl eq_refl)).
Defined.

(** The test server with only the client id and the callback URL bound:
    the client secret is the empty string. *)
Lemma details_missing_secrets_witness :
  ∃ d fo,
    (@fetch runtime testserver (get_details oauth_env) (world_of initial)).1
    = Ok {| status := 200; body := DetailsBody d |}
    ∧ sd_oauth d = Some fo
    ∧ fo_client_id fo = "client-id"
    ∧ fo_client_secret fo = "".
Proof.
  destruct (proj2 (@details_missing_secrets_empty runtime testserver
                     (get_details oauth_env) (world_of initial) test_oauth
                     eq_refl eq_refl eq_refl) testserver_renderable)
    as (d & fo & Hfetch & Hoauth & _ & _ & _ & _ & Hid & _ & _ & _ & Hsecret & _).
  exists d, fo. rewrite Hfetch. repeat split; try done.
  by apply Hsecret.
Defined.

End AppFacts.

(** * Properties of the tool registry *)

Module RegistryFacts.
Import Samples.

(** C9 as stated fails: after [echo] is registered on the test server, a
    second registration under the name [echo] succeeds, and the registry
    then lists the name twice. *)
Lemma duplicate_name_accepted :
  ∃ s1 s2,
    registerTool testserver_empty echo = Ok s1
    ∧ opt_name echo_again ∈ names_of s1
    ∧ registerTool s1 echo_again = Ok s2
    ∧ names_of s2 = ["echo"; "echo"].
Proof.
  eexists _, _. split; [reflexivity|]. split; [|split; reflexivity].
  apply list_elem_of_here.
Qed.

(** C9 (as amended). [registerTool] does not look at the names already
    registered: given a Zod v4 schema it succeeds, whether or not the name
    is taken, and appends the tool after the existing ones; its only
    construction-time error is for a schema that is not a Zod v4 schema. *)
Theorem registerTool_appends_any_name (srv : XTRNServer) (options : ToolOptions)
    (schema : ZodType) :
  opt_schema options = Zod4 schema →
  (∃ srv', registerTool srv options = Ok srv'
           ∧ names_of srv' = names_of srv ++ [opt_name options]
           ∧ srv_config srv' = srv_config srv
           ∧ userConfigSchema srv' = userConfigSchema srv)
  ∧ (∀ other e, registerTool srv other = Throws e → opt_schema other = NotZod4).
Proof.
  intros Hschema. split.
  - unfold registerTool. rewrite Hschema. cbn [isZod4]. eexists. split; [reflexivity|].
    unfold names_of. cbn [srv_tools srv_config userConfigSchema].
    by rewrite map_app.
  - intros other e. unfold registerTool. by destruct (opt_schema other).
Qed.

(** Registering [echo] a second time on the test server. *)
Lemma registerTool_witness :
  ∃ srv', registerTool testserver echo_again = Ok srv'
          ∧ names_of srv' = ["echo"; "crash"; "echo"].
Proof.
  destruct (proj1 (registerTool_appends_any_name testserver echo_again
                     (ZOther "any object") eq_refl))
    as (srv' & Hok & Hnames & _).
  exists srv'. split; [exact Hok|]. rewrite Hnames. reflexivity.
Defined.

Lemma find_first_app {A : Type} (f : A → bool) (l more : list A) :
  List.find f (l ++ more)
  = match List.find f l with
    | Some x => Some x
    | None => List.find f more
    end.
Proof. induction l as [|x l IH]; [done|]. simpl. by destruct (f x). Qed.

Lemma find_Exists {A : Type} (f : A → bool) (l : list A) :
  Exists (fun x => f x = true) l → is_Some (List.find f l).
Proof.
  induction 1 as [x l Hx|x l _ IH]; simpl.
  - rewrite Hx. by eexists.
  - destruct (f x); [by eexists|done].
Qed.

Lemma find_Forall {A : Type} (f : A → bool) (l : list A) :
  Forall (fun x => f x = false) l → List.find f l = None.
Proof. induction 1 as [|x l Hx _ IH]; [done|]. simpl. by rewrite Hx. Qed.

Lemma find_not_Exists {A : Type} (f : A → bool) (l : list A) :
  ¬ Exists (fun x => f x = true) l → List.find f l = None.
Proof.
  intros Hno. apply find_Forall, Forall_forall. intros x Hx.
  destruct (f x) eqn:Hfx; [|done].
  exfalso. apply Hno, Exists_exists. by exists x.
Qed.

Lemma unrouted_not_found `{Platform} (srv : XTRNServer) (path : string)
    (c : HonoContext) :
  ¬ routed srv path → toolRoute srv path c = notFound.
Proof.
  intros Hno. unfold toolRoute.
  by rewrite (find_not_Exists (fun t => route_matches (tool_name t) path) _ Hno).
Qed.

(** A path that a registered route already matches stays with the first
    such route, whatever is registered later. *)
Lemma first_registration_answers `{Platform} (srv srv' : XTRNServer)
    (options : ToolOptions) (path : string) (c : HonoContext) :
  routed srv path →
  registerTool srv options = Ok srv' →
  toolRoute srv' path c = toolRoute srv path c.
Proof.
  intros Hin Hreg. unfold registerTool in Hreg.
  destruct (isZod4 (opt_schema options)) as [schema|]; [|done].
  injection Hreg as <-. unfold toolRoute. cbn [srv_tools]. rewrite find_first_app.
  by destruct (find_Exists (fun t => route_matches (tool_name t) path) _ Hin) as [t ->].
Qed.

End RegistryFacts.

(** * More on the admission gate *)

Module GateLifecycle.
Import Gate.

(** What every reachable actor satisfies. *)
Lemma coherent_step (ev : ActorEvent) (a : Actor) :
  0 ≤ activeRequests (inst a)
  ∧ refuseRequests (inst a) = default false (storage a !! refuseRequests_key) →
  0 ≤ activeRequests (inst (apply_event ev a))
  ∧ refuseRequests (inst (apply_event ev a))
    = default false (storage (apply_event ev a) !! refuseRequests_key).
Proof.
  intros [Hpos Hcoh]. destruct ev as [op|].
  - destruct op; simpl.
    + unfold tryAcquire. destruct (refuseRequests (inst a)) eqn:Hflag; simpl.
      * split; [done|congruence].
      * split; [lia|congruence].
    + split; [lia|done].
    + split; [done|]. by rewrite lookup_insert_eq.
    + done.
    + split; [done|]. by rewrite lookup_delete_eq.
  - by split.
Qed.

(** X1. In every state the gate can reach (from a start on any storage,
    through any calls and re-creations) the counter is not negative and the
    in-memory flag is the stored one; so re-creating the actor never
    changes whether it refuses. *)
Theorem reachable_gate_coherent (st : gmap string bool) (evs : list ActorEvent) :
  0 ≤ activeRequests (inst (run_events evs (constructor st)))
  ∧ refuseRequests (inst (run_events evs (constructor st)))
    = default false (storage (run_events evs (constructor st)) !! refuseRequests_key)
  ∧ refuseRequests (inst (restart (run_events evs (constructor st))))
    = refuseRequests (inst (run_events evs (constructor st))).
Proof.
  assert (0 ≤ activeRequests (inst (run_events evs (constructor st)))
          ∧ refuseRequests (inst (run_events evs (constructor st)))
            = default false
                (storage (run_events evs (constructor st)) !! refuseRequests_key))
    as [Hpos Hcoh].
  { assert (0 ≤ activeRequests (inst (constructor st))
            ∧ refuseRequests (inst (constructor st))
              = default false (storage (constructor st) !! refuseRequests_key)) as Hstart
      by (by split).
    revert Hstart. generalize (constructor st).
    induction evs as [|ev evs IH]; intros a Ha; [exact Ha|].
    apply IH, coherent_step, Ha. }
  split; [exact Hpos|]. split; [exact Hcoh|]. by rewrite Hcoh.
Qed.

(** X2. [reset()] undoes a drain durably: whatever the state, afterwards
    the stored flag is gone and every other stored key is kept, the state
    reads 0 and not refusing, and also after a re-creation the next
    [tryAcquire()] is allowed and counts 1. *)
Theorem reset_reopens_durably (a : Actor) :
  (getState (reset a).2).1 = {| view_activeRequests := 0; refusingRequests := false |}
  ∧ storage (reset a).2 !! refuseRequests_key = None
  ∧ (∀ k, k ≠ refuseRequests_key → storage (reset a).2 !! k = storage a !! k)
  ∧ (getState (restart (reset a).2)).1
    = {| view_activeRequests := 0; refusingRequests := false |}
  ∧ (tryAcquire (restart (reset a).2)).1
    = {| allowed := true; acq_activeRequests := 1 |}.
Proof.
  assert (storage (reset a).2 !! refuseRequests_key = None) as Hgone
    by apply lookup_delete_eq.
  split; [done|]. split; [exact Hgone|]. split.
  - intros k Hk. simpl. by rewrite lookup_delete_ne.
  - unfold restart, constructor, getState, tryAcquire. simpl in *.
    by rewrite Hgone.
Qed.

(** X3. An admitted request that completes leaves the gate exactly as it
    found it: on an accepting gate whose counter is not negative,
    [tryAcquire()] reports the counter plus one and the [release()] that
    follows reports the old counter and restores the actor. *)
Theorem acquire_release_round_trip (a : Actor) :
  refuseRequests (inst a) = false →
  0 ≤ activeRequests (inst a) →
  (tryAcquire a).1 = {| allowed := true; acq_activeRequests := activeRequests (inst a) + 1 |}
  ∧ release (tryAcquire a).2 = (activeRequests (inst a), a).
Proof.
  intros Hflag Hpos. destruct a as [[n flag] st]. simpl in *. subst flag.
  unfold tryAcquire, release. simpl. split; [done|].
  by replace (Z.max 0 (n + 1 - 1)) with n by lia.
Qed.

Lemma acquire_release_witness :
  release (tryAcquire Samples.busy_gate).2 = (3, Samples.busy_gate).
Proof.
  exact (proj2 (acquire_release_round_trip Samples.busy_gate eq_refl
                  ltac:(by vm_compute))).
Defined.

(** X4. [release()] does not look at the flag: from a counter n that is not
    negative, m releases leave max(0, n - m), draining or not, and change
    neither the flag nor the storage; so a draining gate reaches 0 once its
    requests in flight have completed. *)
Theorem releases_count_down (a : Actor) (m : nat) :
  0 ≤ activeRequests (inst a) →
  activeRequests (inst (run_ops (replicate m OpRelease) a))
  = Z.max 0 (activeRequests (inst a) - Z.of_nat m)
  ∧ refuseRequests (inst (run_ops (replicate m OpRelease) a)) = refuseRequests (inst a)
  ∧ storage (run_ops (replicate m OpRelease) a) = storage a.
Proof.
  revert a. induction m as [|m IH]; intros a Hpos.
  - simpl. split; [lia|done].
  - change (run_ops (replicate (S m) OpRelease) a)
      with (run_ops (replicate m OpRelease) (apply_op OpRelease a)).
    destruct (IH (apply_op OpRelease a)) as (Hn & Hf & Hs); [simpl; lia|].
    rewrite Hn, Hf, Hs. simpl. split; [lia|done].
Qed.

Lemma releases_count_down_witness :
  activeRequests (inst (run_ops (replicate 5 OpRelease) Samples.draining_gate)) = 0
  ∧ refuseRequests (inst (run_ops (replicate 5 OpRelease) Samples.draining_gate)) = true.
Proof.
  destruct (releases_count_down Samples.draining_gate 5 ltac:(by vm_compute))
    as (Hn & Hf & _).
  split; [by rewrite Hn|by rewrite Hf].
Defined.

Lemma draining_bounded_step (ev : ActorEvent) (a : Actor) :
  ev ≠ Invoke OpReset → draining a → 0 ≤ activeRequests (inst a) →
  draining (apply_event ev a)
  ∧ 0 ≤ activeRequests (inst (apply_event ev a)) ≤ activeRequests (inst a).
Proof.
  intros Hev [Hflag Hsto] Hpos. destruct ev as [op|].
  - destruct op; simpl.
    + unfold tryAcquire. rewrite Hflag. repeat split; try done; lia.
    + repeat split; try done; simpl; lia.
    + split; [|lia]. split; [done|]. simpl. by rewrite lookup_insert_eq.
    + repeat split; try done; lia.
    + congruence.
  - split; [|simpl; lia]. split; simpl; [by rewrite Hsto|done].
Qed.

(** X5. Once the gate drains, the number of requests in flight never goes
    up again: after [windDown()] on a counter that is not negative, and any
    calls other than [reset()] and any re-creations, the counter is between
    0 and what it was. *)
Theorem draining_never_grows (a : Actor) (evs : list ActorEvent) :
  no_reset evs →
  0 ≤ activeRequests (inst a) →
  0 ≤ activeRequests (inst (run_events evs (windDown a).2)) ≤ activeRequests (inst a).
Proof.
  intros Hnr Hpos.
  assert (draining (windDown a).2
          ∧ 0 ≤ activeRequests (inst (windDown a).2) ≤ activeRequests (inst a)) as Hstart.
  { split; [|simpl; lia]. split; [done|]. simpl. by rewrite lookup_insert_eq. }
  revert Hstart. generalize (windDown a).2.
  induction evs as [|ev evs IH]; intros b [Hd Hb]; [exact Hb|].
  inversion Hnr; subst. simpl. apply IH; [done|].
  destruct (draining_bounded_step ev b) as [Hd' Hb']; [done|done|lia|].
  split; [done|lia].
Qed.

Lemma draining_never_grows_witness :
  0 ≤ activeRequests (inst (run_events
         [Invoke OpTryAcquire; Invoke OpRelease; Invoke OpTryAcquire; Invoke OpGetState]
         (windDown Samples.busy_gate).2)) ≤ 3.
Proof.
  exact (draining_never_grows Samples.busy_gate
           [Invoke OpTryAcquire; Invoke OpRelease; Invoke OpTryAcquire; Invoke OpGetState]
           ltac:(repeat (constructor; [discriminate|]); constructor)
           ltac:(by vm_compute)).
Defined.

End GateLifecycle.

(** * More on the routes *)

Module RoutesFacts.
Import Gate.

Section Routes.
Context `{Platform}.
Variable srv : XTRNServer.

Lemma fetch_world (c : HonoContext) (w : World) :
  (fetch srv c w).2 = (dispatch srv c w).2.
Proof.
  unfold fetch. by destruct (dispatch srv c w) as [[r|r|[m|v]] w'].
Qed.

Lemma release_after_acquire (a : Actor) :
  refuseRequests (inst a) = false →
  0 ≤ activeRequests (inst a) →
  (release (tryAcquire a).2).2 = a.
Proof.
  intros Hflag Hpos. destruct a as [[n flag] st]. simpl in *. subst flag.
  unfold tryAcquire, release. simpl.
  by replace (Z.max 0 (n + 1 - 1)) with n by lia.
Qed.

Lemma middleware_gate (next : Call Response) (w : World) :
  0 ≤ activeRequests (inst (gate w)) →
  gate (toolMiddleware next w).2 = gate w.
Proof.
  intros Hpos. destruct (refuseRequests (inst (gate w))) eqn:Hflag.
  - by rewrite (AppFacts.middleware_refused next w Hflag).
  - rewrite (AppFacts.middleware_admitted next w Hflag). simpl.
    by apply release_after_acquire.
Qed.

Lemma details_world (c : HonoContext) (w : World) :
  (detailsRoute srv c w).2 = w.
Proof. unfold detailsRoute. by destruct (buildDetails srv (Some c)). Qed.

Lemma fetch_leaves_gate (c : HonoContext) (w : World) :
  0 ≤ activeRequests (inst (gate w)) →
  ¬ is_wind_down c → ¬ is_reset c →
  gate (fetch srv c w).2 = gate w.
Proof.
  intros Hpos Hwd Hrs. rewrite fetch_world. unfold dispatch.
  unfold is_wind_down, is_reset in *.
  destruct (req_path c) eqn:Hp, (req_method c) eqn:Hm;
    try done; try (by apply middleware_gate); try (by rewrite details_world);
    naive_solver.
Qed.

(** X6. Requests served one after another leave the gate as they found it:
    if the counter is not negative and none of the requests is
    [POST /wind-down] or [POST /reset], then after all of them (tool calls
    with any outcome, metadata and state reads, unknown paths) the counter,
    the flag and the storage are what they were. *)
Theorem requests_leave_gate_as_found (reqs : list HonoContext) (w : World) :
  0 ≤ activeRequests (inst (gate w)) →
  Forall (fun c => ¬ is_wind_down c ∧ ¬ is_reset c) reqs →
  gate (serve srv reqs w) = gate w.
Proof.
  revert w. induction reqs as [|c reqs IH]; intros w Hpos Hall; [done|].
  inversion Hall as [|? ? [Hwd Hrs] Hrest]; subst.
  change (serve srv (c :: reqs) w) with (serve srv reqs (fetch srv c w).2).
  rewrite IH; [by apply fetch_leaves_gate| |done].
  by rewrite fetch_leaves_gate.
Qed.

(** X7. A tool path that no route answers (a method other than POST, or a
    path that the route pattern of no registered tool matches) still goes
    through the gate: while accepting it costs a [tryAcquire] and a
    [release] and is answered 404, while draining it is answered 503; the
    pipeline does not run. *)
Theorem unrouted_tool_path (c : HonoContext) (w : World) (path : string) :
  req_path c = PTool path →
  req_method c ≠ POST ∨ ¬ routed srv path →
  (fetch srv c w).1
  = Ok (if refuseRequests (inst (gate w))
        then c_text "Server is winding down" 503
        else c_text "404 Not Found" 404)
  ∧ gate_calls (fetch srv c w).2
    = gate_calls w ++ (if refuseRequests (inst (gate w))
                       then [OpTryAcquire]
                       else [OpTryAcquire; OpRelease])
  ∧ trace (fetch srv c w).2 = trace w.
Proof.
  intros Hp Hno.
  assert (dispatch srv c w = toolMiddleware notFound w) as Hd.
  { unfold dispatch. rewrite Hp. destruct (req_method c) eqn:Hm; try done.
    destruct Hno as [Hno|Hno]; [done|].
    by rewrite (RegistryFacts.unrouted_not_found srv path c Hno). }
  unfold fetch. rewrite Hd.
  destruct (refuseRequests (inst (gate w))) eqn:Hflag.
  - by rewrite (AppFacts.middleware_refused notFound w Hflag).
  - rewrite (AppFacts.middleware_admitted notFound w Hflag). simpl.
    by rewrite app_nil_r.
Qed.

Lemma fetch_active_requests (c : HonoContext) (w : World) :
  req_path c = PActiveRequests → req_method c = GET →
  fetch srv c w
  = (Ok (c_json (GateStateBody (activeRequests (inst (gate w)))
                   (refuseRequests (inst (gate w))))),
     {| gate := gate w; gate_calls := gate_calls w ++ [OpGetState]; trace := trace w |}).
Proof. intros Hp Hm. unfold fetch, dispatch. by rewrite Hp, Hm. Qed.

Lemma fetch_keeps_draining (c : HonoContext) (w : World) :
  refuseRequests (inst (gate w)) = true →
  ¬ is_reset c →
  refuseRequests (inst (gate (fetch srv c w).2)) = true.
Proof.
  intros Hflag Hrs. rewrite fetch_world. unfold dispatch, is_reset in *.
  destruct (req_path c) eqn:Hp, (req_method c) eqn:Hm;
    try done; try (by rewrite (AppFacts.middleware_refused _ w Hflag));
    try (by rewrite details_world); naive_solver.
Qed.

Lemma serve_keeps_draining (reqs : list HonoContext) (w : World) :
  refuseRequests (inst (gate w)) = true →
  Forall (fun c => ¬ is_reset c) reqs →
  refuseRequests (inst (gate (serve srv reqs w))) = true.
Proof.
  revert w. induction reqs as [|c reqs IH]; intros w Hflag Hall; [done|].
  inversion Hall; subst.
  change (serve srv (c :: reqs) w) with (serve srv reqs (fetch srv c w).2).
  apply IH; [by apply fetch_keeps_draining|done].
Qed.

(** X8. Draining over HTTP: [POST /wind-down] is answered 200 with the
    number of requests in flight; from then on, whatever requests are
    served other than [POST /reset], every request to a tool path is
    answered 503 and [GET /active-requests] reports that the server
    refuses. *)
Theorem wind_down_route_drains (cwd : HonoContext) (reqs : list HonoContext)
    (w : World) :
  is_wind_down cwd →
  Forall (fun c => ¬ is_reset c) reqs →
  (fetch srv cwd w).1
  = Ok (c_json (WindDownBody "Server is now refusing new requests"
                  (activeRequests (inst (gate w)))))
  ∧ (∀ c path, req_path c = PTool path →
       (fetch srv c (serve srv reqs (fetch srv cwd w).2)).1
       = Ok (c_text "Server is winding down" 503))
  ∧ (∀ c, req_path c = PActiveRequests → req_method c = GET →
       (fetch srv c (serve srv reqs (fetch srv cwd w).2)).1
       = Ok (c_json (GateStateBody
               (activeRequests (inst (gate (serve srv reqs (fetch srv cwd w).2))))
               true))).
Proof.
  intros [Hp Hm] Hall.
  assert (fetch srv cwd w
          = (Ok (c_json (WindDownBody "Server is now refusing new requests"
                           (activeRequests (inst (gate w))))),
             {| gate := (windDown (gate w)).2;
                gate_calls := gate_calls w ++ [OpWindDown];
                trace := trace w |})) as Hwd.
  { unfold fetch, dispatch. by rewrite Hp, Hm. }
  assert (refuseRequests (inst (gate (serve srv reqs (fetch srv cwd w).2))) = true)
    as Hflag.
  { apply serve_keeps_draining; [by rewrite Hwd|done]. }
  split; [by rewrite Hwd|]. split.
  - intros c path Hpath.
    by rewrite (AppFacts.fetch_tool_refused srv c _ path Hflag Hpath).
  - intros c Hpath Hmeth. rewrite (fetch_active_requests c _ Hpath Hmeth).
    cbn [fst]. by rewrite Hflag.
Qed.

(** X9. Re-opening over HTTP: [POST /reset] is answered 200; right after
    it [GET /active-requests] reports 0 and not refusing, and a POST to a
    tool path is answered by the tool route that matches it (or 404), not
    503. *)
Theorem reset_route_reopens (cr : HonoContext) (w : World) :
  is_reset cr →
  (fetch srv cr w).1 = Ok (c_json (MessageBody "State reset"))
  ∧ (∀ c, req_path c = PActiveRequests → req_method c = GET →
       (fetch srv c (fetch srv cr w).2).1 = Ok (c_json (GateStateBody 0 false)))
  ∧ (∀ c path, req_path c = PTool path → req_method c = POST →
       (fetch srv c (fetch srv cr w).2).1 = (toolRoute srv path c).2).
Proof.
  intros [Hp Hm].
  assert (fetch srv cr w
          = (Ok (c_json (MessageBody "State reset")),
             {| gate := (reset (gate w)).2;
                gate_calls := gate_calls w ++ [OpReset];
                trace := trace w |})) as Hrs.
  { unfold fetch, dispatch. by rewrite Hp, Hm. }
  rewrite Hrs. split; [done|]. split.
  - intros c Hpath Hmeth. unfold fetch, dispatch. by rewrite Hpath, Hmeth.
  - intros c path Hpath Hmeth. unfold fetch, dispatch. rewrite Hpath, Hmeth.
    rewrite AppFacts.middleware_admitted; [|done].
    assert (∃ r, (toolRoute srv path c).2 = Ok r) as [r Hr].
    { unfold toolRoute. case_match; [|by eexists].
      apply PipelineFacts.route_always_answers. }
    by rewrite Hr.
Qed.

End Routes.

Import Samples.

Lemma requests_leave_gate_witness :
  gate (@serve runtime testserver
          [post_tool "echo" None None message_json oauth_env;
           get_details oauth_env;
           post_tool "crash" (Some "eyJsb2NhbGUiOiJlbiJ9") (Some "cmVmcmVzaC10b2tlbg==")
             "{}" oauth_env]
          (world_of busy_gate))
  = busy_gate.
Proof.
  apply (@requests_leave_gate_as_found runtime testserver).
  - by vm_compute.
  - repeat (constructor; [split; intros [? ?]; discriminate|]). constructor.
Defined.

Lemma unrouted_tool_path_witness :
  (@fetch runtime testserver (post_tool "nope" None None "{}" ∅) (world_of initial)).1
  = Ok (c_text "404 Not Found" 404).
Proof.
  refine (proj1 (@unrouted_tool_path runtime testserver
                   (post_tool "nope" None None "{}" ∅) (world_of initial) "/tools/nope"
                   eq_refl _)).
  right. intros [t Hfind]%RegistryFacts.find_Exists. by vm_compute in Hfind.
Defined.

(** The test server with three requests in flight is told to drain; a
    metadata read later, the echo tool is refused. *)
Lemma wind_down_route_witness :
  (@fetch runtime testserver MoreSamples.valid_echo_request
     (@serve runtime testserver [get_details oauth_env]
        (@fetch runtime testserver (MoreSamples.request POST PWindDown)
           (world_of busy_gate)).2)).1
  = Ok (c_text "Server is winding down" 503).
Proof.
  refine (proj1 (proj2 (@wind_down_route_drains runtime testserver
            (MoreSamples.request POST PWindDown) [get_details oauth_env]
            (world_of busy_gate) _ _)) MoreSamples.valid_echo_request "/tools/echo" eq_refl).
  - by split.
  - repeat (constructor; [intros [? ?]; discriminate|]). constructor.
Defined.

Lemma reset_route_witness :
  (@fetch runtime testserver (MoreSamples.request GET PActiveRequests)
     (@fetch runtime testserver (MoreSamples.request POST PReset)
        (world_of draining_gate)).2).1
  = Ok (c_json (GateStateBody 0 false)).
Proof.
  exact (proj1 (proj2 (@reset_route_reopens runtime testserver
           (MoreSamples.request POST PReset) (world_of draining_gate)
           (conj eq_refl eq_refl)))
         (MoreSamples.request GET PActiveRequests) eq_refl eq_refl).
Defined.

End RoutesFacts.

(** * More on the request pipeline *)

Module ContextFacts.
Import XTRNResponse PipelineFacts.

Lemma js_bind_ext {A B : Type} (m : Js A) (k k' : A → Js B) :
  (∀ a, k a = k' a) → m ≫= k = m ≫= k'.
Proof.
  intros Hk. destruct m as [evs [a|r|e]]; try done.
  unfold mbind, Js_bind, js_bind. by rewrite Hk.
Qed.

Section Context.
Context `{Platform}.
Variables (srv : XTRNServer) (toolName : string) (schema : ZodType)
          (handler : Handler) (honoCtx : HonoContext).

(** Every run of the [try] block either stops in a validation step, the
    handler not called, or passes all of them. *)
Lemma route_body_cases :
  (handler_not_called (toolRouteBody srv schema handler honoCtx).1
   ∧ ∃ reason, (toolRouteBody srv schema handler honoCtx).2 = Return (bad_request reason))
  ∨ (∃ cfg tok body params,
       (configSteps srv honoCtx).2 = Next cfg
       ∧ (credentialSteps srv honoCtx).2 = Next tok
       ∧ JSON_parse (req_body honoCtx) = Some body
       ∧ safeParse schema body = ParseSuccess params).
Proof.
  destruct (configSteps_outcome srv honoCtx) as ([[cfg Hcfg]|[reason Hcfg]] & _ & Hnc).
  2:{ left. unfold toolRouteBody. rewrite (bind_of_return _ _ _ Hcfg).
      split; [done|by exists reason]. }
  destruct (credentialSteps_outcome srv honoCtx)
    as ([[tok Hcred]|[reason Hcred]] & _ & Hnt).
  2:{ left. unfold toolRouteBody.
      rewrite (bind_of_next _ _ _ Hcfg). cbn [fst snd].
      rewrite (bind_of_return _ _ _ Hcred). split; [|by exists reason].
      unfold handler_not_called in *. cbn [fst snd].
      by rewrite handler_calls_app, Hnc, Hnt. }
  destruct (parseBody_outcome honoCtx) as [Hpe Hpf].
  destruct (JSON_parse (req_body honoCtx)) as [body|] eqn:Hbody.
  2:{ left. unfold toolRouteBody.
      rewrite (bind_of_next _ _ _ Hcfg). cbn [fst snd].
      rewrite (bind_of_next _ _ _ Hcred). cbn [fst snd].
      rewrite (bind_of_return _ _ _ Hpf), Hpe. split; [|by eexists].
      unfold handler_not_called in *. cbn [fst snd].
      by rewrite !handler_calls_app, Hnc, Hnt. }
  destruct (validateParams_outcome schema body) as [Hve Hvf].
  destruct (safeParse schema body) as [params|error] eqn:Hparams.
  2:{ left. unfold toolRouteBody.
      rewrite (bind_of_next _ _ _ Hcfg). cbn [fst snd].
      rewrite (bind_of_next _ _ _ Hcred). cbn [fst snd].
      rewrite (bind_of_next _ _ _ Hpf), Hpe. cbn [fst snd].
      rewrite (bind_of_return _ _ _ Hvf), Hve. split; [|by eexists].
      unfold handler_not_called in *. cbn [fst snd].
      by rewrite !handler_calls_app, Hnc, Hnt. }
  right. by exists cfg, tok, body, params.
Qed.

(** The handler is called only by a run that passed every validation step,
    once, with the context built from what the steps produced. *)
Lemma handler_called_inversion (ctx : XTRNContext) :
  ctx ∈ handler_calls (setupToolRoute srv toolName schema handler honoCtx).1 →
  ∃ cfg tok body params,
    (configSteps srv honoCtx).2 = Next cfg
    ∧ (credentialSteps srv honoCtx).2 = Next tok
    ∧ JSON_parse (req_body honoCtx) = Some body
    ∧ safeParse schema body = ParseSuccess params
    ∧ ctx = buildContext srv honoCtx cfg tok params
    ∧ handler_calls (setupToolRoute srv toolName schema handler honoCtx).1 = [ctx].
Proof.
  rewrite route_trace. intros Hin.
  destruct route_body_cases as [[Hnone _]|(cfg & tok & body & params & Hc & Ht & Hb & Hp)].
  - unfold handler_not_called in Hnone. rewrite Hnone in Hin.
    by apply elem_of_nil in Hin.
  - exists cfg, tok, body, params.
    rewrite (route_body_passes srv schema handler honoCtx cfg tok body params Hc Ht Hb Hp)
      in Hin |- *.
    destruct (configSteps_outcome srv honoCtx) as (_ & _ & Hnc).
    destruct (credentialSteps_outcome srv honoCtx) as (_ & _ & Hnt).
    unfold handler_not_called in *. cbn [fst snd] in Hin |- *.
    rewrite !handler_calls_app, Hnc, Hnt in Hin |- *. simpl in Hin |- *.
    apply list_elem_of_singleton in Hin. by subst ctx.
Qed.

Lemma configSteps_inversion (cfg : JSValue) :
  (configSteps srv honoCtx).2 = Next cfg →
  ∃ raw,
    match truthy (header_config honoCtx) with
    | Some h => atob h ≫= JSON_parse = Some raw
    | None => raw = JObj []
    end
    ∧ match userConfigSchema srv with
      | Some configSchema => safeParse configSchema raw = ParseSuccess cfg
      | None => cfg = raw
      end.
Proof.
  unfold configSteps, decodeConfigHeader, validateUserConfig.
  cbv [emit js_return mbind mret Js_bind Js_ret js_bind js_ret].
  repeat (case_match; simplify_eq/=); intros; simplify_eq; by eexists.
Qed.

(** X10. The handler only ever sees validated parameters: it is called at
    most once per request, and whenever it is called the request body
    parsed as JSON and [ctx.req] is the data the tool's schema produced
    from it. *)
Theorem handler_sees_validated_params (ctx : XTRNContext) :
  ctx ∈ handler_calls (setupToolRoute srv toolName schema handler honoCtx).1 →
  handler_calls (setupToolRoute srv toolName schema handler honoCtx).1 = [ctx]
  ∧ ∃ body, JSON_parse (req_body honoCtx) = Some body
            ∧ safeParse schema body = ParseSuccess (req ctx).
Proof.
  intros Hin.
  destruct (handler_called_inversion ctx Hin)
    as (cfg & tok & body & params & _ & _ & Hb & Hp & -> & Hone).
  split; [exact Hone|]. exists body. split; [exact Hb|].
  unfold buildContext. by repeat case_match.
Qed.

(** X11. The credential fields of the context are there exactly when the
    server declares [oauthConfig]: then the handler always gets the decoded,
    non-empty credential as [token.refresh_token], and [oauth] with the
    declared token URL and the three secrets as the environment binds them
    (undefined when unbound); on a server without [oauthConfig] the handler
    never gets [token] or [oauth], whatever credential header was sent. *)
Theorem credential_attached_iff_declared (ctx : XTRNContext) :
  ctx ∈ handler_calls (setupToolRoute srv toolName schema handler honoCtx).1 →
  match oauthConfig (srv_config srv) with
  | Some oc =>
      ∃ h t, truthy (header_token honoCtx) = Some h ∧ atob h = Some t ∧ t ≠ ""
             ∧ token ctx = Some {| refresh_token := t |}
             ∧ oauth ctx
               = Some {| client_id := bindings honoCtx !! "OAUTH_CLIENT_ID";
                         client_secret := bindings honoCtx !! "OAUTH_CLIENT_SECRET";
                         ctx_token_url := token_url oc;
                         callback_url := bindings honoCtx !! "OAUTH_CALLBACK_URL" |}
  | None => token ctx = None ∧ oauth ctx = None
  end.
Proof.
  intros Hin.
  destruct (handler_called_inversion ctx Hin)
    as (cfg & tok & body & params & _ & Ht & _ & _ & -> & _).
  unfold buildContext.
  destruct (oauthConfig (srv_config srv)) as [oc|] eqn:Hoc; [|done].
  destruct (credentialSteps_pass srv honoCtx oc tok Hoc Ht)
    as (h & t & Hh & Hdec & -> & Htruthy).
  rewrite Htruthy. exists h, t. repeat split; try done.
  intros ->. discriminate.
Qed.

(** X12. [ctx.config] is what the configuration steps produced: the header
    decoded as base64 JSON, or [{}] when the header is absent or empty; on
    a server that declares user configuration it is the data the generated
    schema produced from that value, otherwise the value itself, unchecked,
    whatever JSON it is. *)
Theorem config_is_validator_output (ctx : XTRNContext) :
  ctx ∈ handler_calls (setupToolRoute srv toolName schema handler honoCtx).1 →
  ∃ raw,
    match truthy (header_config honoCtx) with
    | Some h => atob h ≫= JSON_parse = Some raw
    | None => raw = JObj []
    end
    ∧ match userConfigSchema srv with
      | Some configSchema => safeParse configSchema raw = ParseSuccess (config ctx)
      | None => config ctx = raw
      end.
Proof.
  intros Hin.
  destruct (handler_called_inversion ctx Hin)
    as (cfg & tok & body & params & Hc & _ & _ & _ & -> & _).
  destruct (configSteps_inversion cfg Hc) as (raw & Hraw & Hval).
  exists raw. split; [exact Hraw|].
  assert (config (buildContext srv honoCtx cfg tok params) = cfg) as ->; [|done].
  unfold buildContext. by repeat case_match.
Qed.

(** X13. A body that parses but that the tool's schema rejects is answered
    400 with the validator's error in the reason, and the handler is not
    called (the configuration and credential steps having passed). *)
Theorem invalid_params_rejected (cfg : JSValue) (tok : option string)
    (body error : JSValue) :
  (configSteps srv honoCtx).2 = Next cfg →
  (credentialSteps srv honoCtx).2 = Next tok →
  JSON_parse (req_body honoCtx) = Some body →
  safeParse schema body = ParseFailure error →
  (setupToolRoute srv toolName schema handler honoCtx).2
  = Ok (bad_request ("Tool params validation failed: " +:+ JSON_stringify error))
  ∧ handler_not_called (setupToolRoute srv toolName schema handler honoCtx).1
  ∧ last (setupToolRoute srv toolName schema handler honoCtx).1
    = Some (EvBodyValidate body).
Proof.
  intros Hcfg Hcred Hbody Hparams.
  destruct (parseBody_outcome honoCtx) as [Hpe Hpf]. rewrite Hbody in Hpf.
  destruct (validateParams_outcome schema body) as [Hve Hvf]. rewrite Hparams in Hvf.
  destruct (configSteps_outcome srv honoCtx) as (_ & _ & Hnc).
  destruct (credentialSteps_outcome srv honoCtx) as (_ & _ & Hnt).
  unfold setupToolRoute, toolRouteBody.
  rewrite (bind_of_next _ _ _ Hcfg). cbn [fst snd].
  rewrite (bind_of_next _ _ _ Hcred). cbn [fst snd].
  rewrite (bind_of_next _ _ _ Hpf), Hpe. cbn [fst snd].
  rewrite (bind_of_return _ _ _ Hvf), Hve.
  rewrite (boundary_of_return _
             (bad_request ("Tool params validation failed: " +:+ JSON_stringify error)));
    [|done].
  cbn [fst snd]. split; [done|]. split.
  - unfold handler_not_called in *. by rewrite !handler_calls_app, Hnc, Hnt.
  - by rewrite !last_app.
Qed.

(** X14. On a server that declares user configuration, a configuration
    value the generated schema rejects (the decoded header, or [{}] when
    the header is absent or empty) is answered 400 with the validator's
    error in the reason, before the credential header is decoded and
    before the body is read. *)
Theorem invalid_config_rejected (raw error : JSValue) (configSchema : ZodType) :
  match truthy (header_config honoCtx) with
  | Some h => atob h ≫= JSON_parse = Some raw
  | None => raw = JObj []
  end →
  userConfigSchema srv = Some configSchema →
  safeParse configSchema raw = ParseFailure error →
  setupToolRoute srv toolName schema handler honoCtx
  = (match truthy (header_config honoCtx) with
     | Some h => [EvConfigDecode h; EvConfigValidate raw]
     | None => [EvConfigValidate raw]
     end,
     Ok (bad_request ("Config validation failed: " +:+ JSON_stringify error))).
Proof.
  intros Hraw Hs Hv.
  assert (configSteps srv honoCtx
          = (match truthy (header_config honoCtx) with
             | Some h => [EvConfigDecode h; EvConfigValidate raw]
             | None => [EvConfigValidate raw]
             end,
             Return (bad_request ("Config validation failed: " +:+ JSON_stringify error))))
    as Hcfg.
  { unfold configSteps, decodeConfigHeader, validateUserConfig. rewrite Hs.
    cbv [emit js_return mbind mret Js_bind Js_ret js_bind js_ret] in *.
    destruct (truthy (header_config honoCtx)) as [h|].
    - rewrite Hraw. simpl. by rewrite Hv.
    - subst raw. simpl. by rewrite Hv. }
  unfold setupToolRoute, toolRouteBody. rewrite Hcfg.
  by rewrite (bind_of_return _ _
                (bad_request ("Config validation failed: " +:+ JSON_stringify error))).
Qed.

(** X15. The pipeline's own answers are 400 and 500 only: a run that does
    not call the handler is answered 400; a run that calls it is answered
    with the handler's own response, or 500 when the handler throws. *)
Theorem pipeline_answers_400_or_500 (r : Response) :
  (setupToolRoute srv toolName schema handler honoCtx).2 = Ok r →
  (handler_not_called (setupToolRoute srv toolName schema handler honoCtx).1
   ∧ status r = 400)
  ∨ (∃ ctx, handler_calls (setupToolRoute srv toolName schema handler honoCtx).1 = [ctx]
            ∧ (handler ctx = Ok r
               ∨ (∃ e, handler ctx = Throws e ∧ status r = 500))).
Proof.
  rewrite route_trace. unfold setupToolRoute.
  destruct (route_body_shape srv schema handler honoCtx)
    as [(reason & Hf & Hnone)|(ctx & Hone & _ & Hf)].
  - rewrite (boundary_of_return _ _ Hf). cbn [snd]. intros [= <-]. by left.
  - right. exists ctx. split; [exact Hone|].
    destruct (handler ctx) as [r'|e] eqn:Hh.
    + rewrite (boundary_of_return _ _ Hf) in *. cbn [snd] in *. left. congruence.
    + rewrite (boundary_of_raise _ _ Hf) in *. cbn [snd] in *.
      right. exists e. split; [done|]. by simplify_eq.
Qed.

Lemma buildContext_bindings (env' : gmap string string) (cfg : JSValue)
    (tok : option string) (params : JSValue) :
  same_oauth_bindings (bindings honoCtx) env' ∨ oauthConfig (srv_config srv) = None →
  buildContext srv (with_bindings honoCtx env') cfg tok params
  = buildContext srv honoCtx cfg tok params.
Proof.
  intros Hsame. unfold buildContext.
  destruct (oauthConfig (srv_config srv)) as [oc|] eqn:Hoc; [|done].
  destruct Hsame as [(Hid & Hsecret & Hcb)|?]; [|done].
  destruct (truthy tok); [|done]. simpl. by rewrite Hid, Hsecret, Hcb.
Qed.

(** X16. A request uses the environment only through the three OAuth
    bindings, and only on a server that declares [oauthConfig]: in two
    environments that bind [OAUTH_CLIENT_ID], [OAUTH_CLIENT_SECRET] and
    [OAUTH_CALLBACK_URL] alike (or in any two environments, without
    [oauthConfig]) a tool call runs the same steps, hands the handler the
    same context and gets the same answer, and the metadata is the same. *)
Theorem only_oauth_bindings_are_read (env' : gmap string string) :
  same_oauth_bindings (bindings honoCtx) env' ∨ oauthConfig (srv_config srv) = None →
  setupToolRoute srv toolName schema handler (with_bindings honoCtx env')
  = setupToolRoute srv toolName schema handler honoCtx
  ∧ buildDetails srv (Some (with_bindings honoCtx env'))
    = buildDetails srv (Some honoCtx).
Proof.
  intros Hsame. split.
  - unfold setupToolRoute, toolRouteBody. do 2 f_equal.
    change (configSteps srv (with_bindings honoCtx env')) with (configSteps srv honoCtx).
    apply js_bind_ext. intros cfg.
    change (credentialSteps srv (with_bindings honoCtx env'))
      with (credentialSteps srv honoCtx).
    apply js_bind_ext. intros tok.
    change (parseBody (with_bindings honoCtx env')) with (parseBody honoCtx).
    apply js_bind_ext. intros body.
    apply js_bind_ext. intros params.
    by rewrite buildContext_bindings.
  - unfold buildDetails.
    destruct (oauthConfig (srv_config srv)) as [oc|] eqn:Hoc; [|done].
    destruct Hsame as [(Hid & Hsecret & Hcb)|?]; [|done].
    simpl. by rewrite Hid, Hsecret, Hcb.
Qed.

End Context.

Import Samples MoreSamples.

Lemma echo_context_is_called :
  echo_context ∈ handler_calls valid_echo_call.1.
Proof. vm_compute. apply list_elem_of_here. Qed.

Lemma validated_params_witness :
  ∃ body, @JSON_parse runtime message_json = Some body
          ∧ @safeParse runtime echo_schema body = ParseSuccess (req echo_context).
Proof.
  exact (proj2 (@handler_sees_validated_params runtime testserver "echo" echo_schema
                  echo_handler valid_echo_request echo_context echo_context_is_called)).
Defined.

Lemma credential_attached_witness :
  ∃ h t, truthy (header_token valid_echo_request) = Some h
         ∧ @atob runtime h = Some t ∧ t ≠ ""
         ∧ token echo_context = Some {| refresh_token := t |}
         ∧ oauth echo_context
           = Some {| client_id := bindings valid_echo_request !! "OAUTH_CLIENT_ID";
                     client_secret := bindings valid_echo_request !! "OAUTH_CLIENT_SECRET";
                     ctx_token_url := token_url test_oauth;
                     callback_url := bindings valid_echo_request !! "OAUTH_CALLBACK_URL" |}.
Proof.
  exact (@credential_attached_iff_declared runtime testserver "echo" echo_schema
           echo_handler valid_echo_request echo_context echo_context_is_called).
Defined.

Lemma config_output_witness :
  ∃ raw, @atob runtime "eyJsb2NhbGUiOiJlbiJ9" ≫= @JSON_parse runtime = Some raw
         ∧ @safeParse runtime (ZObject [("locale", ZString)]) raw
           = ParseSuccess (config echo_context).
Proof.
  exact (@config_is_validator_output runtime testserver "echo" echo_schema
           echo_handler valid_echo_request echo_context echo_context_is_called).
Defined.

(** The echo tool called with [{}]: no [message]. *)
Lemma invalid_params_witness :
  (echo_call (Some "eyJsb2NhbGUiOiJlbiJ9") (Some "cmVmcmVzaC10b2tlbg==") "{}").2
  = Ok (bad_request ("Tool params validation failed: " +:+ quoted "invalid_type")).
Proof.
  refine (proj1 (@invalid_params_rejected runtime testserver "echo" echo_schema
            echo_handler
            (post_tool "echo" (Some "eyJsb2NhbGUiOiJlbiJ9") (Some "cmVmcmVzaC10b2tlbg==")
               "{}" oauth_env)
            (JObj [("locale", JStr "en")]) (Some "refresh-token") (JObj [])
            (JStr "invalid_type") _ _ _ _)).
  all: by vm_compute.
Defined.

(** The echo tool called with the configuration [{}]: no [locale]. *)
Lemma invalid_config_witness :
  echo_call (Some "e30=") (Some "cmVmcmVzaC10b2tlbg==") message_json
  = ([EvConfigDecode "e30="; EvConfigValidate (JObj [])],
     Ok (bad_request ("Config validation failed: " +:+ quoted "invalid_type"))).
Proof.
  refine (@invalid_config_rejected runtime testserver "echo" echo_schema echo_handler
            (post_tool "echo" (Some "e30=") (Some "cmVmcmVzaC10b2tlbg==")
               message_json oauth_env)
            (JObj []) (JStr "invalid_type") (ZObject [("locale", ZString)]) _ _ _).
  all: by vm_compute.
Defined.

Lemma pipeline_answers_witness :
  (handler_not_called (echo_call None None message_json).1
   ∧ status (bad_request ("Config validation failed: " +:+ quoted "invalid_type")) = 400)
  ∨ (∃ ctx, handler_calls (echo_call None None message_json).1 = [ctx]
            ∧ (echo_handler ctx
               = Ok (bad_request ("Config validation failed: " +:+ quoted "invalid_type"))
               ∨ (∃ e, echo_handler ctx = Throws e
                       ∧ status (bad_request
                                   ("Config validation failed: " +:+ quoted "invalid_type"))
                         = 500))).
Proof.
  exact (@pipeline_answers_400_or_500 runtime testserver "echo" echo_schema echo_handler
           (post_tool "echo" None None message_json oauth_env)
           (bad_request ("Config validation failed: " +:+ quoted "invalid_type"))
           ltac:(by vm_compute)).
Defined.

(** An environment with one more secret bound: nothing changes. *)
Lemma only_oauth_bindings_witness :
  @setupToolRoute runtime testserver "echo" echo_schema echo_handler
    (with_bindings valid_echo_request (<["STRIPE_KEY" := "sk_live"]> oauth_env))
  = valid_echo_call.
Proof.
  refine (proj1 (@only_oauth_bindings_are_read runtime testserver "echo" echo_schema
            echo_handler valid_echo_request (<["STRIPE_KEY" := "sk_live"]> oauth_env) _)).
  left. repeat split; by vm_compute.
Defined.

End ContextFacts.

(** * More on declarations: schemas, tools, metadata *)

Module DeclarationFacts.

(** ** The generated configuration schema *)

Lemma set_property_keys {V : Type} (k : string) (v : V) (obj : list (string * V)) :
  (set_property k v obj).*1 = if decide (k ∈ obj.*1) then obj.*1 else obj.*1 ++ [k].
Proof.
  induction obj as [|[k' v'] obj IH].
  - cbn [set_property fmap list_fmap].
    destruct (decide (k ∈ [])) as [Hin|_]; [by apply elem_of_nil in Hin|done].
  - cbn [set_property].
    destruct (decide (k' = k)) as [->|Hne]; cbn [fmap list_fmap fst].
    + destruct (decide (k ∈ k :: obj.*1)) as [_|Hn]; [done|].
      exfalso. apply Hn, list_elem_of_here.
    + change (list_fmap _ _ fst (set_property k v obj)) with (set_property k v obj).*1.
      rewrite IH.
      destruct (decide (k ∈ obj.*1)) as [Hin|Hnin];
        destruct (decide (k ∈ k' :: obj.*1)) as [Hin'|Hnin']; try done.
      * exfalso. by apply Hnin', list_elem_of_further.
      * apply elem_of_cons in Hin' as [?|?]; congruence.
Qed.

Lemma set_property_NoDup {V : Type} (k : string) (v : V) (obj : list (string * V)) :
  NoDup obj.*1 → NoDup (set_property k v obj).*1.
Proof.
  intros Hnd. rewrite set_property_keys. case_decide as Hin; [done|].
  apply NoDup_app. split; [done|]. split; [|apply NoDup_singleton].
  intros x Hx ->%list_elem_of_singleton. done.
Qed.

Lemma set_property_lookup {V : Type} (k : string) (v : V) (obj : list (string * V)) :
  NoDup obj.*1 →
  (list_to_map (set_property k v obj) : gmap string V) = <[k := v]> (list_to_map obj).
Proof.
  induction obj as [|[k' v'] obj IH]; intros Hnd; simpl; [done|].
  apply NoDup_cons in Hnd as [Hk' Hnd].
  destruct (decide (k' = k)) as [->|Hne]; simpl.
  - by rewrite insert_insert_eq.
  - rewrite IH by done. by rewrite insert_insert_ne.
Qed.

Lemma last_declared_snoc (fs : list UserConfigField) (f : UserConfigField) (k : string) :
  last_declared (fs ++ [f]) k
  = if decide (field_key f = k) then Some (field_type f) else last_declared fs k.
Proof.
  unfold last_declared. rewrite filter_app, filter_cons, filter_nil.
  destruct (decide (field_key f = k)) as [Hk|Hk].
  - by rewrite last_snoc.
  - by rewrite app_nil_r.
Qed.

Lemma shape_of_fields (fs : list UserConfigField) :
  NoDup (foldl (fun shape f => set_property (field_key f) (zod_of (field_type f)) shape)
               [] fs).*1
  ∧ ∀ k, (list_to_map
            (foldl (fun shape f => set_property (field_key f) (zod_of (field_type f)) shape)
                   [] fs) : gmap string ZodType) !! k
         = zod_of <$> last_declared fs k.
Proof.
  induction fs as [|f fs IH] using rev_ind.
  - split; [apply NoDup_nil_2|]. intros k.
    unfold last_declared. rewrite filter_nil. apply lookup_empty.
  - destruct IH as [Hnd Hlook]. rewrite foldl_app. simpl. split.
    + by apply set_property_NoDup.
    + intros k. rewrite set_property_lookup by done.
      rewrite last_declared_snoc.
      destruct (decide (field_key f = k)) as [->|Hne].
      * by rewrite lookup_insert_eq.
      * rewrite lookup_insert_ne by done. apply Hlook.
Qed.

Section Schema.
Context `{Platform}.

Lemma fill_cons (f : UserConfigField) (fs : list UserConfigField) (shape : Shape) :
  fill (f :: fs) shape
  = match assign (field_key f) (zod_of (field_type f)) shape with
    | Ok shape' => fill fs shape'
    | Throws e => Throws e
    end.
Proof.
  unfold fill. simpl.
  destruct (assign (field_key f) (zod_of (field_type f)) shape) as [shape'|e]; [done|].
  induction fs as [|f' fs IH]; [done|]. exact IH.
Qed.

Lemma assign_ordinary (key : string) (value : ZodType) (props : list (string * ZodType)) :
  key ≠ "__proto__" →
  assign key value {| own := props; proto := None |}
  = Ok {| own := set_property key value props; proto := None |}.
Proof.
  intros Hkey. unfold assign. cbn [own proto].
  destruct (decide (key ∈ props.*1)); [done|].
  by destruct (decide (key = "__proto__")).
Qed.

Lemma fill_ordinary (fs : list UserConfigField) (props : list (string * ZodType)) :
  ("__proto__" ∉ field_key <$> fs) →
  fill fs {| own := props; proto := None |}
  = Ok {| own := foldl (fun shape f =>
                          set_property (field_key f) (zod_of (field_type f)) shape)
                       props fs;
          proto := None |}.
Proof.
  revert props. induction fs as [|f fs IH]; intros props Hno; [done|].
  rewrite fill_cons, assign_ordinary.
  - rewrite IH; [done|]. intros Hin. apply Hno. rewrite fmap_cons.
    by apply list_elem_of_further.
  - intros Hkey. apply Hno. rewrite fmap_cons, Hkey. apply list_elem_of_here.
Qed.

Lemma fill_app (fs more : list UserConfigField) (shape : Shape) :
  fill (fs ++ more) shape
  = match fill fs shape with
    | Ok shape' => fill more shape'
    | Throws e => Throws e
    end.
Proof.
  revert shape. induction fs as [|f fs IH]; intros shape; [done|].
  rewrite <- app_comm_cons, !fill_cons.
  destruct (assign (field_key f) (zod_of (field_type f)) shape) as [shape'|e]; [|done].
  apply IH.
Qed.

Lemma shape_keys (fs : list UserConfigField) (k : string) :
  k ∈ (foldl (fun shape f => set_property (field_key f) (zod_of (field_type f)) shape)
             [] fs).*1
  ↔ k ∈ field_key <$> fs.
Proof.
  destruct (shape_of_fields fs) as [Hnd Hlook]. split.
  - intros Hin. apply list_elem_of_fmap.
    destruct (last_declared fs k) as [t|] eqn:Hlast.
    + unfold last_declared in Hlast.
      destruct (last (filter (fun f => field_key f = k) fs)) as [f|] eqn:Hf; [|done].
      apply last_Some_elem_of, list_elem_of_filter in Hf as [Hk Hf]. by exists f.
    + specialize (Hlook k). rewrite Hlast in Hlook.
      by apply not_elem_of_list_to_map in Hlook.
  - intros (f & -> & Hf)%list_elem_of_fmap.
    destruct (decide (field_key f ∈ (foldl
               (fun shape f0 => set_property (field_key f0) (zod_of (field_type f0)) shape)
               [] fs).*1)) as [Hin|Hnin]; [done|].
    apply (not_elem_of_list_to_map (M:=gmap string)) in Hnin.
    rewrite Hlook in Hnin. unfold last_declared in Hnin.
    assert (f ∈ filter (fun f0 => field_key f0 = field_key f) fs) as Hin
      by (by apply list_elem_of_filter).
    destruct (filter (fun f0 => field_key f0 = field_key f) fs) as [|x l _]
      using rev_ind; [by apply elem_of_nil in Hin|].
    by rewrite last_snoc in Hnin.
Qed.

(** X17. [generateUserConfigSchema] gives no schema exactly for a missing
    or empty field list. For a list in which no key is [__proto__] it
    gives an object schema whose keys are the declared keys, each once,
    where a key declared several times gets the validator of its last
    declaration. A declaration of the key [__proto__] after such a list
    adds no key: it makes its validator the prototype of the shape. *)
Theorem generated_schema_last_declaration_wins (fields : option (list UserConfigField)) :
  (generateUserConfigSchema fields = Ok None ↔ default [] fields = [])
  ∧ (∀ fs, fields = Some fs → fs ≠ [] → ("__proto__" ∉ field_key <$> fs) →
       ∃ shape, generateUserConfigSchema fields = Ok (Some (ZObject shape))
                ∧ NoDup shape.*1
                ∧ (∀ k, k ∈ shape.*1 ↔ k ∈ field_key <$> fs)
                ∧ (∀ k, (list_to_map shape : gmap string ZodType) !! k
                        = zod_of <$> last_declared fs k))
  ∧ (∀ fs f, fields = Some (fs ++ [f]) → ("__proto__" ∉ field_key <$> fs) →
       field_key f = "__proto__" →
       ∃ shape, generateUserConfigSchema fields
                = Ok (Some (ZObjectOver (zod_of (field_type f)) shape))
                ∧ (∀ k, k ∈ shape.*1 ↔ k ∈ field_key <$> fs)).
Proof.
  split; [|split].
  - destruct fields as [[|f fs]|]; simpl; split; try done.
    by destruct (fill (f :: fs) _).
  - intros fs -> Hne Hno. destruct (shape_of_fields fs) as [Hnd Hlook].
    eexists. split.
    + unfold generateUserConfigSchema. rewrite (fill_ordinary fs [] Hno).
      by destruct fs.
    + split; [exact Hnd|]. split; [apply shape_keys|exact Hlook].
  - intros fs f -> Hno Hkey. eexists. split.
    + unfold generateUserConfigSchema.
      rewrite fill_app, (fill_ordinary fs [] Hno), fill_cons.
      unfold assign. cbn [own proto]. rewrite Hkey.
      destruct (decide ("__proto__" ∈ _)) as [Hin|_].
      { exfalso. by apply Hno, shape_keys. }
      destruct (decide ("__proto__" = "__proto__")) as [_|]; [|done].
      cbn. by destruct fs.
    + apply shape_keys.
Qed.

End Schema.

Import Samples.

(** [timezone] declared as a string and again as a number: one validator,
    the number. *)
Lemma generated_schema_witness :
  ∃ shape,
    @generateUserConfigSchema runtime
      (Some [ {| field_key := "timezone"; field_type := TString |};
              {| field_key := "debug"; field_type := TBoolean |};
              {| field_key := "timezone"; field_type := TNumber |} ])
    = Ok (Some (ZObject shape))
    ∧ (list_to_map shape : gmap string ZodType) !! "timezone" = Some ZNumber.
Proof.
  destruct (proj1 (proj2 (@generated_schema_last_declaration_wins runtime
              (Some [ {| field_key := "timezone"; field_type := TString |};
                      {| field_key := "debug"; field_type := TBoolean |};
                      {| field_key := "timezone"; field_type := TNumber |} ])))
              _ eq_refl ltac:(discriminate)
              ltac:(apply (bool_decide_unpack _); by vm_compute))
    as (shape & Hgen & _ & _ & Hlook).
  exists shape. split; [exact Hgen|]. by rewrite Hlook.
Defined.

(** ** Registration and metadata *)

Lemma registerTool_accepted (srv : XTRNServer) (o : ToolOptions) (schema : ZodType) :
  isZod4 (opt_schema o) = Some schema →
  registerTool srv o
  = Ok {| srv_name := srv_name srv;
          srv_version := srv_version srv;
          srv_config := srv_config srv;
          srv_tools := srv_tools srv ++ [tool_of o schema];
          userConfigSchema := userConfigSchema srv |}.
Proof. intros Hs. unfold registerTool. by rewrite Hs. Qed.

Lemma registerTools_cons (srv : XTRNServer) (o : ToolOptions) (opts : list ToolOptions) :
  registerTools srv (o :: opts)
  = match registerTool srv o with
    | Ok s => registerTools s opts
    | Throws e => Throws e
    end.
Proof.
  unfold registerTools. simpl. destruct (registerTool srv o) as [s|e]; [done|].
  induction opts as [|o' opts IH]; [done|]. exact IH.
Qed.

Lemma registerTools_accepted (opts : list ToolOptions) (srv : XTRNServer) :
  Forall (fun o => is_Some (isZod4 (opt_schema o))) opts →
  ∃ srv', registerTools srv opts = Ok srv'
          ∧ srv_name srv' = srv_name srv
          ∧ srv_version srv' = srv_version srv
          ∧ srv_config srv' = srv_config srv
          ∧ userConfigSchema srv' = userConfigSchema srv
          ∧ tool_name <$> srv_tools srv'
            = (tool_name <$> srv_tools srv) ++ (opt_name <$> opts)
          ∧ tool_tags <$> srv_tools srv'
            = (tool_tags <$> srv_tools srv) ++ ((fun o => default [] (opt_tags o)) <$> opts).
Proof.
  revert srv. induction opts as [|o opts IH]; intros srv Hall.
  - exists srv. by rewrite !app_nil_r.
  - inversion Hall as [|? ? [schema Hs] Hrest]; subst.
    rewrite registerTools_cons, (registerTool_accepted srv o schema Hs).
    destruct (IH {| srv_name := srv_name srv;
                    srv_version := srv_version srv;
                    srv_config := srv_config srv;
                    srv_tools := srv_tools srv ++ [tool_of o schema];
                    userConfigSchema := userConfigSchema srv |} Hrest)
      as (srv' & Hok & Hn & Hv & Hc & Hu & Hnames & Htags).
    exists srv'. cbn [srv_name srv_version srv_config userConfigSchema srv_tools] in *.
    repeat split; try done.
    + rewrite Hnames, fmap_app, <- app_assoc. done.
    + rewrite Htags, fmap_app, <- app_assoc. done.
Qed.

Lemma renderTools_fields `{Platform} (tools : list Tool) (details : list ToolDetails) :
  renderTools tools = Ok details →
  td_name <$> details = tool_name <$> tools
  ∧ td_tags <$> details = tool_tags <$> tools
  ∧ Forall2 (fun t d => toJSONSchema (tool_schema t) = Ok (td_schema d)) tools details.
Proof.
  revert details. induction tools as [|t tools IH]; intros details; cbn [renderTools].
  - intros [= <-]. repeat split; constructor.
  - destruct (toJSONSchema (tool_schema t)) as [schema|e] eqn:Hs; [|done].
    destruct (renderTools tools) as [more|e]; [|done].
    intros [= <-]. destruct (IH more eq_refl) as (Hn & Ht & Hall).
    rewrite !fmap_cons, Hn, Ht. repeat split; [done..|]. by constructor.
Qed.

Lemma renderTools_first_failure `{Platform} (before after : list Tool) (t : Tool)
    (e : Thrown) :
  Forall (fun t' => ∃ schema, toJSONSchema (tool_schema t') = Ok schema) before →
  toJSONSchema (tool_schema t) = Throws e →
  renderTools (before ++ t :: after) = Throws e.
Proof.
  intros Hall Hbad. induction Hall as [|t' before [schema Hs] _ IH].
  - cbn [app renderTools]. by rewrite Hbad.
  - rewrite <- app_comm_cons. cbn [renderTools]. by rewrite Hs, IH.
Qed.

(** X18. The metadata lists what was registered. On a newly constructed
    server, after a series of [registerTool] calls with Zod v4 schemas:
    when every tool schema can be rendered, the details carry the
    server's name and version, the declared configuration fields (none
    when undeclared), and one entry per call, in call order, with the
    tool's name, its tags (an absent [tags] given as the empty list) and
    the rendering of its schema; otherwise [buildDetails] throws what
    [z.toJSONSchema] threw for the first tool whose schema cannot be
    rendered. *)
Theorem details_list_registered_tools `{Platform} (name version : string)
    (cfg : ConfigType) (opts : list ToolOptions) (honoCtx : option HonoContext)
    (created : XTRNServer) :
  new_XTRNServer name version cfg = Ok created →
  Forall (fun o => is_Some (isZod4 (opt_schema o))) opts →
  ∃ srv,
    registerTools created opts = Ok srv
    ∧ (renderable srv →
       ∃ details,
         buildDetails srv honoCtx = Ok details
         ∧ sd_name details = name
         ∧ sd_version details = version
         ∧ sd_config details = default [] (userConfig cfg)
         ∧ td_name <$> sd_tools details = opt_name <$> opts
         ∧ td_tags <$> sd_tools details = (fun o => default [] (opt_tags o)) <$> opts
         ∧ Forall2 (fun t d => toJSONSchema (tool_schema t) = Ok (td_schema d))
             (srv_tools srv) (sd_tools details))
    ∧ (∀ before t after e,
         srv_tools srv = before ++ t :: after →
         Forall (fun t' => ∃ schema, toJSONSchema (tool_schema t') = Ok schema) before →
         toJSONSchema (tool_schema t) = Throws e →
         buildDetails srv honoCtx = Throws e).
Proof.
  intros Hnew Hall.
  assert (srv_name created = name ∧ srv_version created = version
          ∧ srv_config created = cfg ∧ srv_tools created = []) as (Hn0 & Hv0 & Hc0 & Ht0).
  { unfold new_XTRNServer in Hnew.
    destruct (generateUserConfigSchema (userConfig cfg)); [|done].
    by injection Hnew as <-. }
  destruct (registerTools_accepted opts created Hall)
    as (srv & Hok & Hn & Hv & Hc & _ & Hnames & Htags).
  rewrite Ht0 in Hnames, Htags. cbn [fmap list_fmap app] in Hnames, Htags.
  exists srv. split; [exact Hok|]. split.
  - intros [tools Htools]%AppFacts.renderTools_renderable.
    destruct (renderTools_fields _ _ Htools) as (Hdn & Hdt & Hds).
    eexists. unfold buildDetails. rewrite Htools. split; [reflexivity|].
    cbn [sd_name sd_version sd_config sd_tools].
    rewrite Hn, Hv, Hc, Hn0, Hv0, Hc0, Hdn, Hdt. by repeat split.
  - intros before t after e Htools Hbefore Hbad. unfold buildDetails.
    by rewrite Htools, (renderTools_first_failure before after t e Hbefore Hbad).
Qed.

(** X19. Registration stops at the first schema that is not a Zod v4
    schema: the calls before it succeed, that call throws an [Error] whose
    message names the tool, and no later call takes place. *)
Theorem first_invalid_schema_aborts (srv : XTRNServer)
    (before after : list ToolOptions) (o : ToolOptions) :
  Forall (fun o' => is_Some (isZod4 (opt_schema o'))) before →
  isZod4 (opt_schema o) = None →
  registerTools srv (before ++ o :: after)
  = Throws (ErrorObj (not_zod4_message (opt_name o))).
Proof.
  revert srv. induction before as [|b before IH]; intros srv Hall Hbad.
  - simpl app. rewrite registerTools_cons. unfold registerTool. by rewrite Hbad.
  - inversion Hall as [|? ? [schema Hs] Hrest]; subst.
    simpl app. rewrite registerTools_cons, (registerTool_accepted srv b schema Hs).
    by apply IH.
Qed.

(** X20. Where a registration lands in the routing: on a path that the
    new tool's route pattern matches and no earlier route matches, the new
    tool answers with its own pipeline (its schema, its handler); a path
    that an earlier route matches stays with that route; and a path that
    the new pattern does not match is routed as before. *)
Theorem registration_routing `{Platform} (srv srv' : XTRNServer) (o : ToolOptions)
    (path : string) (honoCtx : HonoContext) :
  registerTool srv o = Ok srv' →
  (route_matches (opt_name o) path = true → ¬ routed srv path →
   ∃ schema, opt_schema o = Zod4 schema
             ∧ toolRoute srv' path honoCtx
               = setupToolRoute srv' (opt_name o) schema (opt_handler o) honoCtx)
  ∧ (routed srv path →
     toolRoute srv' path honoCtx = toolRoute srv path honoCtx)
  ∧ (route_matches (opt_name o) path = false →
     toolRoute srv' path honoCtx = toolRoute srv path honoCtx).
Proof.
  intros Hreg. split; [|split].
  - intros Hmatch Hnew. unfold registerTool in Hreg.
    destruct (isZod4 (opt_schema o)) as [schema|] eqn:Hs; [|done].
    injection Hreg as <-.
    assert (opt_schema o = Zod4 schema) as Hz.
    { destruct (opt_schema o); simpl in Hs; congruence. }
    exists schema. split; [exact Hz|].
    unfold toolRoute. cbn [srv_tools].
    rewrite RegistryFacts.find_first_app.
    rewrite (RegistryFacts.find_not_Exists
               (fun t => route_matches (tool_name t) path) _ Hnew).
    cbn [List.find tool_name]. by rewrite Hmatch.
  - intros Hold. by apply (RegistryFacts.first_registration_answers srv srv' o).
  - intros Hmatch. unfold registerTool in Hreg.
    destruct (isZod4 (opt_schema o)) as [schema|] eqn:Hs; [|done].
    injection Hreg as <-. unfold toolRoute. cbn [srv_tools].
    rewrite RegistryFacts.find_first_app.
    destruct (List.find _ (srv_tools srv)) as [t|]; [done|].
    cbn [List.find tool_name]. by rewrite Hmatch.
Qed.

Import Samples.

Lemma details_list_witness :
  ∃ srv,
    registerTools
      (built (@new_XTRNServer runtime "testserver" "1.0.0"
                {| userConfig := None; oauthConfig := None |}))
      [echo; crash] = Ok srv
    ∧ (@renderable runtime srv →
       ∃ details,
         @buildDetails runtime srv None = Ok details
         ∧ td_name <$> sd_tools details = ["echo"; "crash"]).
Proof.
  destruct (@details_list_registered_tools runtime "testserver" "1.0.0"
              {| userConfig := None; oauthConfig := None |} [echo; crash] None
              (built (@new_XTRNServer runtime "testserver" "1.0.0"
                        {| userConfig := None; oauthConfig := None |}))
              eq_refl
              ltac:(repeat (constructor; [by eexists|]); constructor))
    as (srv & Hok & Hdetails & _).
  exists srv. split; [exact Hok|]. intros Hrender.
  destruct (Hdetails Hrender) as (details & Hd & _ & _ & _ & Hnames & _).
  by exists details.
Defined.

Lemma first_invalid_schema_witness :
  registerTools testserver_empty [echo; MoreSamples.legacy; crash]
  = Throws (ErrorObj ("Tool " +:+ quoted "legacy" +:+
                      " must use a Zod v4 schema. Zod v3 schemas are not supported.")).
Proof.
  exact (first_invalid_schema_aborts testserver_empty [echo] [crash] MoreSamples.legacy
           ltac:(repeat (constructor; [by eexists|]); constructor) eq_refl).
Defined.

(** With a tool registered under the name [:id] on the ping server, its
    pipeline answers the path [/tools/nope]. *)
Lemma registration_routing_witness :
  ∃ schema,
    opt_schema MoreSamples.by_id = Zod4 schema
    ∧ @toolRoute runtime MoreSamples.idserver "/tools/nope"
        (post_tool "nope" None None "{}" ∅)
      = @setupToolRoute runtime MoreSamples.idserver ":id" schema
          (opt_handler MoreSamples.by_id) (post_tool "nope" None None "{}" ∅).
Proof.
  apply (proj1 (@registration_routing runtime pingserver MoreSamples.idserver
                  MoreSamples.by_id "/tools/nope" (post_tool "nope" None None "{}" ∅)
                  eq_refl)).
  - reflexivity.
  - intros [t Hfind]%RegistryFacts.find_Exists. by vm_compute in Hfind.
Defined.

End DeclarationFacts.

(** * The development server *)

Module DevServerFacts.
Import DevServer.

(** ** Strings *)

Lemma split_without (sep : N) (s : list N) : sep ∉ s → split sep s = [s].
Proof.
  induction s as [|c s IH]; intros Hno; [done|]. simpl.
  destruct (decide (c = sep)) as [->|Hne].
  - exfalso. apply Hno, list_elem_of_here.
  - rewrite IH; [done|]. intros Hin. by apply Hno, list_elem_of_further.
Qed.

Lemma split_app (sep : N) (s rest : list N) :
  sep ∉ s → split sep (s ++ (sep :: rest)) = s :: split sep rest.
Proof.
  induction s as [|c s IH]; intros Hno; simpl.
  - by rewrite decide_True.
  - destruct (decide (c = sep)) as [->|Hne].
    + exfalso. apply Hno, list_elem_of_here.
    + rewrite IH; [done|]. intros Hin. by apply Hno, list_elem_of_further.
Qed.

Lemma split_join (sep : N) (pieces : list (list N)) :
  pieces ≠ [] → Forall (fun piece => sep ∉ piece) pieces →
  split sep (join sep pieces) = pieces.
Proof.
  induction pieces as [|piece pieces IH]; intros Hne Hall; [done|].
  inversion Hall as [|? ? Hpiece Hrest]; subst.
  destruct pieces as [|next pieces].
  - simpl. by apply split_without.
  - change (join sep (piece :: next :: pieces))
      with (piece ++ (sep :: join sep (next :: pieces))).
    rewrite split_app by done. by rewrite IH.
Qed.

Lemma trimStart_plain (s : list N) :
  match s with
  | c :: _ => is_space c = false
  | [] => True
  end → trimStart s = s.
Proof. destruct s as [|c s]; [done|]. simpl. by intros ->. Qed.

Lemma trimEnd_plain (s : list N) :
  match last s with
  | Some c => is_space c = false
  | None => True
  end → trimEnd s = s.
Proof.
  unfold trimEnd. destruct s as [|c s _] using rev_ind; [done|].
  rewrite last_snoc, reverse_snoc. intros Hc. simpl. rewrite Hc.
  by rewrite reverse_cons, reverse_involutive.
Qed.

Lemma indexOf_app (c : N) (s rest : list N) :
  c ∉ s → indexOf c (s ++ (c :: rest)) = Some (length s).
Proof.
  induction s as [|d s IH]; intros Hno; simpl.
  - by rewrite decide_True.
  - destruct (decide (d = c)) as [->|Hne].
    + exfalso. apply Hno, list_elem_of_here.
    + rewrite IH; [done|]. intros Hin. by apply Hno, list_elem_of_further.
Qed.

Lemma indexOf_Some (c : N) (s : list N) (i : nat) :
  indexOf c s = Some i → s = take i s ++ (c :: drop (S i) s) ∧ (c ∉ take i s).
Proof.
  revert i. induction s as [|d s IH]; intros i; simpl; [done|].
  destruct (decide (d = c)) as [->|Hne].
  - intros [= <-]. split; [done|]. apply not_elem_of_nil.
  - destruct (indexOf c s) as [j|] eqn:Hj; [|done]. simpl. intros [= <-].
    destruct (IH j eq_refl) as [Hs Hno]. simpl. split; [by rewrite <- Hs|].
    intros [?|?]%elem_of_cons; [congruence|done].
Qed.

Lemma startsWith_shorter (p q s : list N) :
  startsWith (p ++ q) s = true → startsWith p s = true.
Proof.
  revert s. induction p as [|a p IH]; intros s; [done|].
  destruct s as [|b s]; simpl; [done|].
  intros [-> Hrest]%andb_prop. by rewrite (IH s Hrest).
Qed.

Lemma drop_after (s rest : list N) (c : N) :
  drop (S (length s)) (s ++ (c :: rest)) = rest.
Proof. induction s as [|d s IH]; [done|]. exact IH. Qed.

Lemma indexOf_None (c : N) (s : list N) : indexOf c s = None → c ∉ s.
Proof.
  induction s as [|d s IH]; simpl; [intros _; apply not_elem_of_nil|].
  destruct (decide (d = c)) as [->|Hne]; [done|].
  destruct (indexOf c s); [done|]. intros _ [?|?]%elem_of_cons; [congruence|].
  by apply IH.
Qed.

(** ** Lines *)

(** The loop body assigns what [assignment] reads off the line. *)
Lemma parse_line_assignment (bindings : gmap (list N) (list N)) (line : list N) :
  parse_line bindings line
  = match assignment line with
    | Some (k, v) => <[k := v]> bindings
    | None => bindings
    end.
Proof.
  unfold parse_line, assignment, set_binding.
  destruct (trim line) as [|c t]; [done|].
  destruct (startsWith [HASH] (c :: t)); [done|].
  destruct (indexOf EQUALS (c :: t)) as [i|]; [|done].
  by destruct (decide (take i (c :: t) = units "__proto__")).
Qed.

Lemma parse_lines_assignments (lines : list (list N)) (bindings : gmap (list N) (list N)) :
  foldl parse_line bindings lines
  = foldl (fun m kv => <[kv.1 := kv.2]> m) bindings (omap assignment lines).
Proof.
  revert bindings. induction lines as [|line lines IH]; intros bindings; [done|].
  simpl. rewrite parse_line_assignment, IH.
  by destruct (assignment line) as [[k v]|].
Qed.

(** What makes a line an assignment of [v] to [k]. *)
Lemma assignment_spec (line k v : list N) :
  assignment line = Some (k, v)
  ↔ trim line = k ++ (EQUALS :: v)
    ∧ (EQUALS ∉ k)
    ∧ k ≠ units "__proto__"
    ∧ startsWith [HASH] (trim line) = false.
Proof.
  unfold assignment. split.
  - destruct (trim line) as [|c t] eqn:Ht; [done|].
    destruct (startsWith [HASH] (c :: t)) eqn:Hh; [done|].
    destruct (indexOf EQUALS (c :: t)) as [i|] eqn:Hi; [|done].
    destruct (decide (take i (c :: t) = units "__proto__")) as [|Hp]; [done|].
    intros [= <- <-]. destruct (indexOf_Some _ _ _ Hi) as [Hs Hno].
    by repeat split.
  - intros (Ht & Hno & Hp & Hh). rewrite Ht in *.
    destruct (k ++ (EQUALS :: v)) as [|c t] eqn:Hkv; [by destruct k|].
    rewrite Hh, <- Hkv, (indexOf_app _ _ _ Hno).
    rewrite take_app_length, drop_after.
    by rewrite decide_False by done.
Qed.

Lemma assignment_rendered (k v : list N) :
  plain_key k → plain_value v → assignment (render_line (k, v)) = Some (k, v).
Proof.
  intros (Heq & _ & Hproto & Hhead) (_ & Hlast).
  apply assignment_spec.
  assert (trim (render_line (k, v)) = k ++ (EQUALS :: v)) as Ht.
  { unfold trim, render_line. cbn [fst snd].
    rewrite trimStart_plain; [|by destruct k as [|c k]; [|destruct Hhead]].
    apply trimEnd_plain.
    destruct v as [|d v] using rev_ind.
    - change (k ++ [EQUALS]) with (k ++ [EQUALS]). by rewrite last_snoc.
    - rewrite last_snoc in Hlast.
      change (k ++ (EQUALS :: (v ++ [d]))) with (k ++ ((EQUALS :: v) ++ [d])).
      by rewrite (assoc_L (++)), last_snoc. }
  rewrite Ht. repeat split; try done.
  destruct k as [|c k]; [done|]. destruct Hhead as [_ Hc]. simpl.
  by rewrite bool_decide_false.
Qed.

Lemma inserts_of_distinct (kvs : list (list N * list N)) (m : gmap (list N) (list N)) :
  NoDup kvs.*1 →
  foldl (fun acc kv => <[kv.1 := kv.2]> acc) m kvs = list_to_map kvs ∪ m.
Proof.
  revert m. induction kvs as [|[k v] kvs IH]; intros m Hnd; simpl.
  - by rewrite (left_id_L ∅ (∪)).
  - apply NoDup_cons in Hnd as [Hk Hnd]. rewrite IH by done.
    rewrite <- insert_union_l.
    by rewrite <- insert_union_r by (by apply not_elem_of_list_to_map).
Qed.

(** X21. Writing bindings to a [.dev.vars] file and reading them back
    gives the same bindings: for distinct keys that contain no "=" and no
    line feed, do not start with white space or "#" and are not
    [__proto__], and values that contain no line feed and do not end in
    white space, [parseDevVars] of the lines [key=value] is exactly that
    map. Values may contain "=" and inner spaces; a key or a value may be
    empty. *)
Theorem dev_vars_round_trip (kvs : list (list N * list N)) :
  NoDup kvs.*1 →
  Forall (fun kv => plain_key kv.1 ∧ plain_value kv.2) kvs →
  parseDevVars (Some (Ok (render kvs))) = Ok (list_to_map kvs).
Proof.
  intros Hnd Hall. unfold parseDevVars, render. f_equal.
  destruct kvs as [|kv kvs]; [done|].
  rewrite split_join.
  - rewrite parse_lines_assignments.
    assert (omap assignment (render_line <$> kv :: kvs) = kv :: kvs) as ->.
    { clear Hnd. induction Hall as [|[k v] rest [Hk Hv] _ IH]; [done|].
      cbn [fmap list_fmap omap list_omap]. rewrite (assignment_rendered k v Hk Hv).
      f_equal. exact IH. }
    rewrite inserts_of_distinct by done. by rewrite (right_id_L ∅ (∪)).
  - done.
  - apply Forall_fmap. eapply Forall_impl; [exact Hall|].
    intros [k v] [(Hk & Hlf & _) (Hv & _)]. unfold render_line. cbn [fst snd].
    intros [?|[?|?]%elem_of_cons]%elem_of_app; done.
Qed.

(** X22. Reading a [.dev.vars] file: a line assigns when, trimmed, it is
    not empty, does not start with "#" and contains "="; the key is what
    stands before the first "=", the value everything after it; the key
    [__proto__] is never bound. A key is bound to the value of the last
    line that assigns it, and to nothing when no line does. *)
Theorem dev_vars_last_assignment_wins (content k : list N) :
  (∀ line key value,
     assignment line = Some (key, value)
     ↔ trim line = key ++ (EQUALS :: value)
       ∧ (EQUALS ∉ key)
       ∧ key ≠ units "__proto__"
       ∧ startsWith [HASH] (trim line) = false)
  ∧ ∃ bindings,
      parseDevVars (Some (Ok content)) = Ok bindings
      ∧ bindings !! k
        = snd <$> last (filter (fun kv => kv.1 = k)
                          (omap assignment (split LF content))).
Proof.
  split; [apply assignment_spec|].
  eexists. split; [reflexivity|].
  rewrite parse_lines_assignments.
  induction (omap assignment (split LF content)) as [|[k' v'] kvs IH] using rev_ind.
  - rewrite filter_nil. apply lookup_empty.
  - rewrite foldl_app, filter_app, filter_cons, filter_nil. simpl.
    destruct (decide (k' = k)) as [->|Hne].
    + by rewrite lookup_insert_eq, last_snoc.
    + rewrite lookup_insert_ne by done. by rewrite app_nil_r.
Qed.

(** A file with a secret that contains "=", and an empty value. *)
Lemma dev_vars_round_trip_witness :
  parseDevVars
    (Some (Ok (units "OAUTH_CLIENT_SECRET=a=b c" ++ [LF] ++ units "OAUTH_CALLBACK_URL=")))
  = Ok (list_to_map [(units "OAUTH_CLIENT_SECRET", units "a=b c");
                     (units "OAUTH_CALLBACK_URL", [])]).
Proof.
  apply (dev_vars_round_trip [(units "OAUTH_CLIENT_SECRET", units "a=b c");
                              (units "OAUTH_CALLBACK_URL", [])]).
  - apply (bool_decide_unpack _). by vm_compute.
  - repeat (constructor;
            [unfold plain_key, plain_value; cbn; repeat split;
             first [done | apply (bool_decide_unpack _); by vm_compute]|]).
    constructor.
Defined.

(** ** The command line *)

Section Args.
Context {Num : Type}.
Variables (parseInt10 : list N → Num) (num_1234 : Num) (resolve : list N → list N).

Lemma port_flag_is_a_flag (arg : list N) :
  startsWith (units "--port=") arg = true → startsWith (units "--") arg = true.
Proof.
  change (units "--port=") with (units "--" ++ units "port=").
  apply startsWith_shorter.
Qed.

Lemma port_text_of_flag (digits : list N) :
  EQUALS ∉ digits → port_text (units "--port=" ++ digits) = digits.
Proof.
  intros Hno. unfold port_text.
  change (units "--port=" ++ digits) with (units "--port" ++ (EQUALS :: digits)).
  rewrite split_app.
  - by rewrite (split_without _ _ Hno).
  - apply (bool_decide_unpack _). by vm_compute.
Qed.

Lemma parse_args_fold (args : list (list N)) :
  foldl (parse_arg parseInt10) (units "./index.ts", num_1234) args
  = (default (units "./index.ts")
       (last (filter (fun a => startsWith (units "--") a = false) args)),
     default num_1234
       ((fun a => parseInt10 (port_text a))
          <$> last (filter (fun a => startsWith (units "--port=") a = true) args))).
Proof.
  induction args as [|arg args IH] using rev_ind.
  - by rewrite !filter_nil.
  - rewrite foldl_app, IH, !filter_app, !filter_cons, !filter_nil.
    cbn [foldl]. unfold parse_arg. cbn [fst snd].
    destruct (startsWith (units "--port=") arg) eqn:Hport.
    + rewrite (port_flag_is_a_flag arg Hport).
      destruct (decide (true = false)) as [|_]; [done|].
      destruct (decide (true = true)) as [_|]; [|done].
      by rewrite app_nil_r, last_snoc.
    + destruct (startsWith (units "--") arg) eqn:Hflag; cbn [negb].
      * destruct (decide (true = false)) as [|_]; [done|].
        destruct (decide (false = true)) as [|_]; [done|].
        by rewrite !app_nil_r.
      * destruct (decide (false = false)) as [_|]; [|done].
        destruct (decide (false = true)) as [|_]; [done|].
        by rewrite app_nil_r, last_snoc.
Qed.

(** X23. The command line of [xtrn dev]: the entry point is the last
    argument that does not start with "--" (so also one like "-v"),
    "./index.ts" when there is none, resolved to an absolute path; the
    port is read from the last argument that starts with "--port=", 1234
    when there is none; every other argument that starts with "--" is
    ignored. The text handed to [parseInt] is what follows "--port=" up to
    the next "=". *)
Theorem parseArgs_last_argument_wins (args : list (list N)) :
  entryPoint (parseArgs parseInt10 num_1234 resolve args)
  = resolve (default (units "./index.ts")
               (last (filter (fun a => startsWith (units "--") a = false) args)))
  ∧ port (parseArgs parseInt10 num_1234 resolve args)
    = default num_1234
        ((fun a => parseInt10 (port_text a))
           <$> last (filter (fun a => startsWith (units "--port=") a = true) args))
  ∧ (∀ digits more,
       (EQUALS ∉ digits) →
       port_text (units "--port=" ++ digits) = digits
       ∧ port_text (units "--port=" ++ digits ++ (EQUALS :: more)) = digits).
Proof.
  unfold parseArgs. rewrite parse_args_fold. split; [done|]. split; [done|].
  intros digits more Hno. split; [by apply port_text_of_flag|].
  unfold port_text.
  change (units "--port=" ++ digits ++ (EQUALS :: more))
    with (units "--port" ++ (EQUALS :: (digits ++ (EQUALS :: more)))).
  rewrite split_app by (apply (bool_decide_unpack _); by vm_compute).
  by rewrite split_app.
Qed.

End Args.

End DevServerFacts.

(** * Properties of the calendar server's token cache *)

Module CalendarFacts.
Import Calendar.

Lemma getCalendarClient_live (ctx : ClientCtx) (now : Z)
    (refresh : string → RefreshOutcome) (st : CalState) (t : AccessToken) :
  unauth_test ctx = false →
  live ctx now st = Some t →
  getCalendarClient ctx now refresh st
  = (Got {| auth_client_id := ctx_client_id ctx;
            auth_client_secret := ctx_client_secret ctx;
            auth_access_token := access_token t |}, st).
Proof.
  unfold getCalendarClient, live. intros -> Hlive.
  destruct (access_token_map st !! ctx_refresh_token ctx) as [c|]; [|done].
  destruct (decide (now < expiresAt c)); [|done]. by simplify_eq.
Qed.

Lemma getCalendarClient_stale (ctx : ClientCtx) (now : Z)
    (refresh : string → RefreshOutcome) (st : CalState) :
  unauth_test ctx = false →
  live ctx now st = None →
  getCalendarClient ctx now refresh st
  = refresh_and_store ctx refresh st
      (fun token => {| auth_client_id := ctx_client_id ctx;
                       auth_client_secret := ctx_client_secret ctx;
                       auth_access_token := token |}).
Proof.
  unfold getCalendarClient, live. intros -> Hlive.
  destruct (access_token_map st !! ctx_refresh_token ctx) as [c|]; [|done].
  by destruct (decide (now < expiresAt c)).
Qed.

Lemma refresh_and_store_calls (ctx : ClientCtx)
    (refresh : string → RefreshOutcome) (st : CalState)
    (client : string → CalendarClient) :
  refresh_calls (refresh_and_store ctx refresh st client).2
  = refresh_calls st ++ [ctx_refresh_token ctx].
Proof.
  unfold refresh_and_store.
  destruct (refresh (ctx_refresh_token ctx)) as [token expiry|[message|e]].
  - by destruct (usable token expiry) as [[t e]|].
  - by destruct (decide (message = "invalid_grant")).
  - done.
Qed.

Lemma usable_storable (token : option string) (expiry : option Z) (t : string) (e : Z) :
  usable token expiry = Some (t, e) →
  token = Some t ∧ expiry = Some e ∧ t ≠ "" ∧ e ≠ 0.
Proof.
  unfold usable. destruct token as [[|c rest]|]; cbn [truthy]; [done| |done].
  destruct expiry as [z|]; [|done].
  destruct (decide (z = 0)); [done|]. intros [= <- <-]. done.
Qed.

Lemma refresh_and_store_got (ctx : ClientCtx)
    (refresh : string → RefreshOutcome) (st st' : CalState)
    (client : string → CalendarClient) (cl : CalendarClient) :
  refresh_and_store ctx refresh st client = (Got cl, st') →
  ∃ t e,
    refresh (ctx_refresh_token ctx) = Credentials (Some t) (Some e)
    ∧ t ≠ "" ∧ e ≠ 0
    ∧ cl = client t
    ∧ access_token_map st'
      = <[ctx_refresh_token ctx := {| access_token := t; expiresAt := e |}]>
          (access_token_map st).
Proof.
  unfold refresh_and_store.
  destruct (refresh (ctx_refresh_token ctx)) as [token expiry|[message|e]].
  - destruct (usable token expiry) as [[t e]|] eqn:Husable; [|done].
    intros [= <- <-]. apply usable_storable in Husable as (-> & -> & Ht & He).
    by exists t, e.
  - by destruct (decide (message = "invalid_grant")).
  - done.
Qed.

Lemma refresh_and_store_threw (ctx : ClientCtx)
    (refresh : string → RefreshOutcome) (st st' : CalState)
    (client : string → CalendarClient) (err : ApiError) :
  refresh_and_store ctx refresh st client = (Threw err, st') →
  access_token_map st' = access_token_map st.
Proof.
  unfold refresh_and_store.
  destruct (refresh (ctx_refresh_token ctx)) as [token expiry|[message|e]].
  - destruct (usable token expiry) as [[t e]|]; [done|]. by intros [= <- <-].
  - destruct (decide (message = "invalid_grant")); by intros [= <- <-].
  - by intros [= <- <-].
Qed.

Lemma threw_keeps_cache (ctx : ClientCtx) (now : Z)
    (refresh : string → RefreshOutcome) (st st' : CalState) (err : ApiError) :
  getCalendarClient ctx now refresh st = (Threw err, st') →
  access_token_map st' = access_token_map st.
Proof.
  intros Hcall.
  destruct (unauth_test ctx) eqn:Hunauth.
  - unfold getCalendarClient in Hcall. rewrite Hunauth in Hcall.
    by injection Hcall as <- <-.
  - destruct (live ctx now st) as [t|] eqn:Hlive.
    { by rewrite (getCalendarClient_live _ _ _ _ _ Hunauth Hlive) in Hcall. }
    rewrite (getCalendarClient_stale _ _ _ _ Hunauth Hlive) in Hcall.
    by eapply refresh_and_store_threw.
Qed.

(** X24. [getCalendarClient] contacts the token endpoint exactly when the
    cache has no entry for the refresh token that is still strictly before
    its expiry: with such an entry it hands out the cached access token and
    makes no call; without one it makes exactly one call, with that
    refresh token; under [unauth_test] it makes none. *)
Theorem endpoint_called_iff_no_live_token (ctx : ClientCtx) (now : Z)
    (refresh : string → RefreshOutcome) (st : CalState) :
  refresh_calls (getCalendarClient ctx now refresh st).2
  = refresh_calls st
    ++ (if unauth_test ctx then []
        else match live ctx now st with
             | Some _ => []
             | None => [ctx_refresh_token ctx]
             end)
  ∧ (∀ t, unauth_test ctx = false → live ctx now st = Some t →
       ∃ cl, getCalendarClient ctx now refresh st = (Got cl, st)
             ∧ auth_access_token cl = access_token t).
Proof.
  split.
  - destruct (unauth_test ctx) eqn:Hunauth.
    + unfold getCalendarClient. rewrite Hunauth. cbn. by rewrite app_nil_r.
    + destruct (live ctx now st) as [t|] eqn:Hlive.
      * rewrite (getCalendarClient_live _ _ _ _ _ Hunauth Hlive). cbn.
        by rewrite app_nil_r.
      * rewrite (getCalendarClient_stale _ _ _ _ Hunauth Hlive).
        apply refresh_and_store_calls.
  - intros t Hunauth Hlive. eexists. split.
    + by apply getCalendarClient_live.
    + done.
Qed.

(** X25. After any successful [getCalendarClient] the cache holds, for the
    refresh token, the access token just handed out; a later call for the
    same context strictly before that entry's expiry returns the same
    client and leaves the state, and so the token endpoint, untouched,
    whatever the endpoint would have answered. *)
Theorem handed_token_is_reused (ctx : ClientCtx) (now : Z)
    (refresh : string → RefreshOutcome) (st st' : CalState) (cl : CalendarClient) :
  getCalendarClient ctx now refresh st = (Got cl, st') →
  ∃ t,
    access_token_map st' !! ctx_refresh_token ctx = Some t
    ∧ access_token t = auth_access_token cl
    ∧ (∀ later refresh',
         later < expiresAt t →
         getCalendarClient ctx later refresh' st' = (Got cl, st')).
Proof.
  intros Hcall.
  destruct (unauth_test ctx) eqn:Hunauth.
  { unfold getCalendarClient in Hcall. by rewrite Hunauth in Hcall. }
  destruct (live ctx now st) as [t|] eqn:Hlive.
  - rewrite (getCalendarClient_live _ _ _ _ _ Hunauth Hlive) in Hcall.
    injection Hcall as <- <-.
    assert (access_token_map st !! ctx_refresh_token ctx = Some t) as Hentry.
    { unfold live in Hlive.
      destruct (access_token_map st !! ctx_refresh_token ctx) as [c|]; [|done].
      destruct (decide (now < expiresAt c)); [|done]. by simplify_eq. }
    exists t. split; [done|]. split; [done|].
    intros later refresh' Hlater. apply getCalendarClient_live; [done|].
    unfold live. rewrite Hentry. by destruct (decide (later < expiresAt t)).
  - rewrite (getCalendarClient_stale _ _ _ _ Hunauth Hlive) in Hcall.
    apply refresh_and_store_got in Hcall as (t & e & _ & _ & _ & -> & Hmap).
    exists {| access_token := t; expiresAt := e |}.
    split; [by rewrite Hmap, lookup_insert_eq|]. split; [done|].
    intros later refresh' Hlater.
    rewrite (getCalendarClient_live ctx later refresh' st'
               {| access_token := t; expiresAt := e |}); [done|done|].
    unfold live. rewrite Hmap, lookup_insert_eq. cbn [expiresAt] in *.
    by destruct (decide (later < e)).
Qed.

Lemma handed_token_is_reused_witness :
  ∃ t,
    access_token_map (getCalendarClient alice 100 (issue "at-1" 3600) empty_cache).2
      !! "rt-alice" = Some t
    ∧ access_token t = "at-1"
    ∧ (∀ later refresh',
         later < expiresAt t →
         getCalendarClient alice later refresh'
           (getCalendarClient alice 100 (issue "at-1" 3600) empty_cache).2
         = (Got {| auth_client_id := Some "id"; auth_client_secret := Some "secret";
                   auth_access_token := "at-1" |},
            (getCalendarClient alice 100 (issue "at-1" 3600) empty_cache).2)).
Proof.
  apply (handed_token_is_reused alice 100 (issue "at-1" 3600) empty_cache
           (getCalendarClient alice 100 (issue "at-1" 3600) empty_cache).2
           {| auth_client_id := Some "id"; auth_client_secret := Some "secret";
              auth_access_token := "at-1" |}).
  reflexivity.
Defined.

(** X26. A [getCalendarClient] that throws leaves the cache as it was: an
    expired entry is kept, not evicted, and nothing is stored for
    credentials that lack a field. What it throws is an [Error] with the
    message "Unauthorized" when [unauth_test] is set or the endpoint threw
    a [GaxiosError] with the message "invalid_grant"; any other error of
    the endpoint is rethrown as it is. *)
Theorem failed_attempt_keeps_cache (ctx : ClientCtx) (now : Z)
    (refresh : string → RefreshOutcome) (st st' : CalState) (err : ApiError) :
  getCalendarClient ctx now refresh st = (Threw err, st') →
  access_token_map st' = access_token_map st
  ∧ (unauth_test ctx = true → err = OtherError (ErrorObj "Unauthorized") ∧ st' = st)
  ∧ (unauth_test ctx = false →
     live ctx now st = None
     ∧ match refresh (ctx_refresh_token ctx) with
       | Credentials token expiry =>
           usable token expiry = None ∧ err = OtherError (ErrorObj missing_fields)
       | RefreshThrows (GaxiosError message) =>
           err = if decide (message = "invalid_grant")
                 then OtherError (ErrorObj "Unauthorized")
                 else GaxiosError message
       | RefreshThrows (OtherError e) => err = OtherError e
       end).
Proof.
  intros Hcall.
  destruct (unauth_test ctx) eqn:Hunauth.
  - unfold getCalendarClient in Hcall. rewrite Hunauth in Hcall.
    injection Hcall as <- <-. by repeat split.
  - destruct (live ctx now st) as [t|] eqn:Hlive.
    { by rewrite (getCalendarClient_live _ _ _ _ _ Hunauth Hlive) in Hcall. }
    split; [by eapply threw_keeps_cache|]. split; [done|].
    rewrite (getCalendarClient_stale _ _ _ _ Hunauth Hlive) in Hcall.
    intros _. split; [done|].
    unfold refresh_and_store in Hcall.
    destruct (refresh (ctx_refresh_token ctx)) as [token expiry|[message|e]].
    + destruct (usable token expiry) as [[t e]|]; [done|].
      by injection Hcall as <- <-.
    + destruct (decide (message = "invalid_grant")); by injection Hcall as <- <-.
    + by injection Hcall as <- <-.
Qed.

Lemma failed_attempt_witness :
  access_token_map (getCalendarClient alice 100 revoked empty_cache).2
  = access_token_map empty_cache
  ∧ (unauth_test alice = true →
     OtherError (ErrorObj "Unauthorized") = OtherError (ErrorObj "Unauthorized")
     ∧ (getCalendarClient alice 100 revoked empty_cache).2 = empty_cache)
  ∧ (unauth_test alice = false →
     live alice 100 empty_cache = None
     ∧ match revoked (ctx_refresh_token alice) with
       | Credentials token expiry =>
           usable token expiry = None
           ∧ OtherError (ErrorObj "Unauthorized") = OtherError (ErrorObj missing_fields)
       | RefreshThrows (GaxiosError message) =>
           OtherError (ErrorObj "Unauthorized")
           = if decide (message = "invalid_grant")
             then OtherError (ErrorObj "Unauthorized")
             else GaxiosError message
       | RefreshThrows (OtherError e) => OtherError (ErrorObj "Unauthorized") = OtherError e
       end).
Proof.
  apply (failed_attempt_keeps_cache alice 100 revoked empty_cache).
  reflexivity.
Defined.

(** X27. The cache only ever holds entries a refresh can have stored: if
    every entry has a non-empty access token and a non-zero expiry before
    [getCalendarClient], every entry has afterwards, whatever the endpoint
    answers. *)
Theorem cache_holds_storable_tokens (ctx : ClientCtx) (now : Z)
    (refresh : string → RefreshOutcome) (st : CalState) :
  map_Forall (fun _ t => storable t) (access_token_map st) →
  map_Forall (fun _ t => storable t)
    (access_token_map (getCalendarClient ctx now refresh st).2).
Proof.
  intros Hinv.
  destruct (getCalendarClient ctx now refresh st) as [[cl|err] st'] eqn:Hcall;
    cbn [snd].
  - destruct (unauth_test ctx) eqn:Hunauth.
    { unfold getCalendarClient in Hcall. by rewrite Hunauth in Hcall. }
    destruct (live ctx now st) as [t|] eqn:Hlive.
    + rewrite (getCalendarClient_live _ _ _ _ _ Hunauth Hlive) in Hcall.
      by injection Hcall as <- <-.
    + rewrite (getCalendarClient_stale _ _ _ _ Hunauth Hlive) in Hcall.
      apply refresh_and_store_got in Hcall as (t & e & _ & Ht & He & _ & ->).
      by apply map_Forall_insert_2.
  - apply threw_keeps_cache in Hcall. by rewrite Hcall.
Qed.

Lemma cache_holds_storable_witness :
  map_Forall (fun _ t => storable t)
    (access_token_map (getCalendarClient alice 100 (issue "at-1" 3600) empty_cache).2).
Proof.
  apply (cache_holds_storable_tokens alice 100 (issue "at-1" 3600) empty_cache).
  apply map_Forall_empty.
Defined.

(** X28. The [delete-event] handler never throws and always answers with
    status 200: [{success: true, ...}] with the event id exactly when it
    called the API once, with the request, and the call returned;
    [{success: false, error}] otherwise, the error being the one
    [getCalendarClient] threw (then the API was not called) or the one the
    API threw. Under [unauth_test] the answer is status 200 with the error
    "Unauthorized", and neither the token endpoint nor the API is
    contacted. *)
Theorem delete_event_reports_in_band (ctx : ClientCtx) (request : DeleteRequest)
    (now : Z) (refresh : string → RefreshOutcome)
    (events_delete : CalendarClient → DeleteRequest → DeleteOutcome) (st : CalState) :
  let out := deleteEvent ctx request now refresh events_delete st in
  status out.1.1 = 200
  ∧ ((out.1.1 = deleted request
      ∧ ∃ calendar, out.2 = [(calendar, request)]
                    ∧ events_delete calendar request = Deleted)
     ∨ (∃ err, out.1.1 = failure err
               ∧ ((out.2 = []
                   ∧ (getCalendarClient ctx now refresh st).1 = Threw err)
                  ∨ (∃ calendar, out.2 = [(calendar, request)]
                                 ∧ events_delete calendar request = DeleteThrows err))))
  ∧ (unauth_test ctx = true →
     out = (failure (OtherError (ErrorObj "Unauthorized")), st, [])).
Proof.
  cbn zeta. unfold deleteEvent.
  destruct (getCalendarClient ctx now refresh st) as [[calendar|err] st'] eqn:Hcall.
  - destruct (events_delete calendar request) as [|err] eqn:Hdelete; cbn [fst snd].
    + split; [done|]. split; [left; eauto|].
      intros Hunauth. unfold getCalendarClient in Hcall. by rewrite Hunauth in Hcall.
    + split; [done|]. split; [right; exists err; eauto|].
      intros Hunauth. unfold getCalendarClient in Hcall. by rewrite Hunauth in Hcall.
  - cbn [fst snd]. split; [done|]. split; [right; exists err; eauto|].
    intros Hunauth. unfold getCalendarClient in Hcall. rewrite Hunauth in Hcall.
    by injection Hcall as <- <-.
Qed.

(** X29. The [delete-event] handler calls the calendar API only with an
    access token that the cache holds for the caller's refresh token when
    the handler ends, and that was either cached and strictly before its
    expiry when the handler started, or issued by the token endpoint
    during this call. *)
Theorem delete_event_token_is_current (ctx : ClientCtx) (request : DeleteRequest)
    (now : Z) (refresh : string → RefreshOutcome)
    (events_delete : CalendarClient → DeleteRequest → DeleteOutcome) (st : CalState)
    (calendar : CalendarClient) (sent : DeleteRequest) :
  (calendar, sent) ∈ (deleteEvent ctx request now refresh events_delete st).2 →
  sent = request
  ∧ ∃ t,
      access_token_map (deleteEvent ctx request now refresh events_delete st).1.2
        !! ctx_refresh_token ctx = Some t
      ∧ auth_access_token calendar = access_token t
      ∧ (live ctx now st = Some t
         ∨ (live ctx now st = None
            ∧ refresh (ctx_refresh_token ctx)
              = Credentials (Some (access_token t)) (Some (expiresAt t)))).
Proof.
  unfold deleteEvent.
  destruct (getCalendarClient ctx now refresh st) as [[cl|err] st'] eqn:Hcall.
  2: { cbn [snd]. by intros ?%elem_of_nil. }
  assert (∃ t,
            access_token_map st' !! ctx_refresh_token ctx = Some t
            ∧ auth_access_token cl = access_token t
            ∧ (live ctx now st = Some t
               ∨ (live ctx now st = None
                  ∧ refresh (ctx_refresh_token ctx)
                    = Credentials (Some (access_token t)) (Some (expiresAt t)))))
    as Htoken.
  { destruct (unauth_test ctx) eqn:Hunauth.
    { unfold getCalendarClient in Hcall. by rewrite Hunauth in Hcall. }
    destruct (live ctx now st) as [t|] eqn:Hlive.
    - rewrite (getCalendarClient_live _ _ _ _ _ Hunauth Hlive) in Hcall.
      injection Hcall as <- <-. exists t. split; [|by split; [|left]].
      unfold live in Hlive.
      destruct (access_token_map st !! ctx_refresh_token ctx) as [c|]; [|done].
      destruct (decide (now < expiresAt c)); [|done]. by simplify_eq.
    - rewrite (getCalendarClient_stale _ _ _ _ Hunauth Hlive) in Hcall.
      apply refresh_and_store_got in Hcall as (t & e & Hrefresh & _ & _ & -> & Hmap).
      exists {| access_token := t; expiresAt := e |}.
      split; [by rewrite Hmap, lookup_insert_eq|]. split; [done|]. by right. }
  destruct (events_delete cl request); cbn [fst snd];
    intros [= -> ->]%list_elem_of_singleton; by split.
Qed.

Lemma delete_event_token_witness :
  drop_event = drop_event
  ∧ ∃ t,
      access_token_map
        (deleteEvent alice drop_event 100 (issue "at-1" 3600) (fun _ _ => Deleted)
           empty_cache).1.2
        !! ctx_refresh_token alice = Some t
      ∧ "at-1" = access_token t
      ∧ (live alice 100 empty_cache = Some t
         ∨ (live alice 100 empty_cache = None
            ∧ issue "at-1" 3600 (ctx_refresh_token alice)
              = Credentials (Some (access_token t)) (Some (expiresAt t)))).
Proof.
  apply (delete_event_token_is_current alice drop_event 100 (issue "at-1" 3600)
           (fun _ _ => Deleted) empty_cache
           {| auth_client_id := Some "id"; auth_client_secret := Some "secret";
              auth_access_token := "at-1" |} drop_event).
  apply list_elem_of_singleton. reflexivity.
Defined.

End CalendarFacts.

(** * The application as a whole *)

Module FetchFacts.
Import Gate.

Section Fetch.
Context `{Platform}.
Variable srv : XTRNServer.

Lemma middleware_not_found_trace (w : World) :
  trace (toolMiddleware notFound w).2 = trace w.
Proof.
  destruct (refuseRequests (inst (gate w))) eqn:Hflag.
  - by rewrite (AppFacts.middleware_refused notFound w Hflag).
  - rewrite (AppFacts.middleware_admitted notFound w Hflag). cbn.
    by rewrite app_nil_r.
Qed.

Lemma await_not_found_trace (w : World) :
  trace (await_next notFound w).2 = trace w.
Proof. unfold await_next, notFound. cbn. by rewrite app_nil_r. Qed.

(** X30. [fetch] answers every request that does not make [buildDetails]
    throw something other than an [Error], whatever the path, the method,
    the headers, the body, the handlers and the state of the gate: its
    promise rejects for no request but a [GET /details]. And the
    validation pipeline runs for no request but a POST to a path that the
    route pattern of a registered tool matches, while the gate is
    accepting: every other request leaves the record of pipeline steps as
    it was. *)
Theorem fetch_always_answers (c : HonoContext) (w : World) :
  ((∃ r, (fetch srv c w).1 = Ok r)
   ∨ (∃ v, req_path c = PDetails ∧ req_method c = GET
           ∧ buildDetails srv (Some c) = Throws (NonError v)
           ∧ (fetch srv c w).1 = Throws (NonError v)))
  ∧ (trace (fetch srv c w).2 = trace w
     ∨ (∃ path,
          req_path c = PTool path ∧ req_method c = POST
          ∧ routed srv path
          ∧ refuseRequests (inst (gate w)) = false)).
Proof.
  split.
  - destruct (req_path c) as [| | | |path|] eqn:Hp.
    5: left; by apply (AppFacts.fetch_tool_answers srv c w path).
    all: destruct (req_method c) eqn:Hm.
    1: { rewrite (AppFacts.fetch_details srv c w Hp Hm). cbn [fst].
         destruct (buildDetails srv (Some c)) as [d|[m|v]]; [left..|right];
           by eexists. }
    all: left; unfold fetch, dispatch; rewrite Hp, ?Hm; by eexists.
  - rewrite RoutesFacts.fetch_world. unfold dispatch.
    destruct (req_path c) as [| | | |path|] eqn:Hp,
             (req_method c) eqn:Hm;
      try (by left); try (left; apply middleware_not_found_trace);
      try (left; apply await_not_found_trace);
      try (left; by rewrite RoutesFacts.details_world).
    destruct (refuseRequests (inst (gate w))) eqn:Hflag.
    { left. by rewrite (AppFacts.middleware_refused _ w Hflag). }
    destruct (decide (Exists (fun t => route_matches (tool_name t) path = true)
                        (srv_tools srv))) as [Hin|Hno].
    + right. by exists path.
    + left. rewrite (RegistryFacts.unrouted_not_found srv path c Hno).
      apply middleware_not_found_trace.
Qed.

End Fetch.

End FetchFacts.
